(** * SO101-Pilot: the episode adapter of [scripts/lib/hdf5_adapter.py]

  A shallow embedding of the helpers that load and validate SO101 HDF5
  datasets, and the properties of the episode extraction and validation
  layer proved about them.

  Conventions of the embedding.
  - A Python [str] is a [string] that holds the UTF-8 bytes of the text,
    which is well-formed; a character is the string of its bytes.  What
    the Unicode database says of the characters outside ASCII is part of
    the [runtime].
  - Integers are unbounded, as Python's are, and the interpreter's limit
    on the number of digits converted between [str] and [int] is taken
    to be switched off.
  - Code that can raise returns a [result]; exceptions carry their Python
    class and, for [ValueError], which message was built.
  - What the interpreter and its libraries supply and the repository does
    not fix (the per-process string hash, the Unicode database, the text
    of a number or of an array, the parsing of a number) is gathered in a
    [runtime] record that the functions needing it take as an argument.
  - An array has one of the types numpy gives to floats, fixed-width
    integers, booleans and text; arithmetic on integers wraps around. *)

From Stdlib Require Import List String Ascii ZArith QArith Qround Bool Lia.
From Stdlib.Strings Require Import Byte.
From Stdlib Require Import Permutation Sorted DecimalString.
From Stdlib Require DecimalN.
Import ListNotations.

Local Open Scope string_scope.
Local Open Scope list_scope.
Local Open Scope Z_scope.

Set Warnings "-register-all".

(* ================================================================== *)
(** ** Exceptions and the error monad *)

Module Exn.

(** The messages of the [ValueError]s that can be met. *)
Inductive message : Type :=
| UnsupportedSchema
    (* "Unsupported schema: expected top-level 'episodes' group." *)
| ZeroEpisodes
    (* "Dataset has zero episodes." *)
| MissingPaths (first_key : string) (missing : list string)
    (* f"Episode '{first_key}' missing required paths: {missing}" *)
| FieldNames
    (* h5py: a dataset indexed by a name *)
| DiffOfScalar
    (* numpy: diff of a zero-dimensional array *)
| FloatLiteral
    (* float() of text that is not a number *)
| IntLiteral.
    (* int() of text that is not a decimal numeral *)

Inductive exn : Type :=
| ValueError (m : message)
| KeyError (name : string)
| TypeError
| IndexError
| AttributeError
| UnicodeDecodeError.

Inductive result (A : Type) : Type :=
| Ok (a : A)
| Raise (e : exn).

Arguments Ok {A} a.
Arguments Raise {A} e.

Definition bind {A B} (c : result A) (k : A -> result B) : result B :=
  match c with
  | Ok a => k a
  | Raise e => Raise e
  end.


End Exn.
Import Exn.

Notation "x <- c ;; k" := (bind c (fun x => k))
(at level 61, c at next level, right associativity).

(* ================================================================== *)
(** ** Python strings, sorting and paths *)

Module Py.

(** *** ASCII digits *)

Definition is_ascii_digit (c : ascii) : bool :=
  let n := nat_of_ascii c in (48 <=? n)%nat && (n <=? 57)%nat.

Fixpoint all_digits (s : string) : bool :=
  match s with
  | EmptyString => true
  | String c t => is_ascii_digit c && all_digits t
  end.

Definition digit_value (c : ascii) : Z := Z.of_nat (nat_of_ascii c) - 48.

Fixpoint int_digits (acc : Z) (s : string) : Z :=
  match s with
  | EmptyString => acc
  | String c t => int_digits (10 * acc + digit_value c) t
  end.

(** [int(s)] for a string of ASCII digits. *)
Definition int_of_digits (s : string) : Z := int_digits 0 s.

(** *** Characters *)

(** The number of bytes of the character that a byte starts. *)
Definition utf8_width (c : ascii) : nat :=
  let n := nat_of_ascii c in
  if (n <? 192)%nat then 1%nat
  else if (n <? 224)%nat then 2%nat
  else if (n <? 240)%nat then 3%nat
  else 4%nat.

(** The characters of a well-formed text, each the string of its bytes:
    [cur] is the character being read and [left] the number of its bytes
    still to come. *)
Fixpoint chars_from (left : nat) (cur s : string) : list string :=
  match s with
  | EmptyString =>
      match cur with
      | EmptyString => []
      | String _ _ => [cur]
      end
  | String c t =>
      match left with
      | S k => chars_from k (cur ++ String c EmptyString) t
      | O =>
          match cur with
          | EmptyString => chars_from (utf8_width c - 1) (String c EmptyString) t
          | String _ _ => cur :: chars_from (utf8_width c - 1) (String c EmptyString) t
          end
      end
  end.

Definition chars (s : string) : list string := chars_from 0 EmptyString s.

(** *** [str.isdigit] and [int] *)

Inductive digit : Type := d0 | d1 | d2 | d3 | d4 | d5 | d6 | d7 | d8 | d9.

Definition digit_val (d : digit) : Z :=
  match d with
  | d0 => 0 | d1 => 1 | d2 => 2 | d3 => 3 | d4 => 4
  | d5 => 5 | d6 => 6 | d7 => 7 | d8 => 8 | d9 => 9
  end.

(** What the Unicode database says of a character: it is no digit; it
    is a digit that is not a decimal digit, such as a superscript two,
    which [isdigit] accepts and [int] refuses; or it is a decimal digit,
    with its value. *)
Inductive digit_kind : Type :=
| NotDigit
| OtherDigit
| DecimalDigit (value : digit).

Definition ascii_digit (c : ascii) : digit_kind :=
  match c with
  | "0" => DecimalDigit d0 | "1" => DecimalDigit d1 | "2" => DecimalDigit d2
  | "3" => DecimalDigit d3 | "4" => DecimalDigit d4 | "5" => DecimalDigit d5
  | "6" => DecimalDigit d6 | "7" => DecimalDigit d7 | "8" => DecimalDigit d8
  | "9" => DecimalDigit d9
  | _ => NotDigit
  end%char.

(** The kind of a character: fixed for ASCII, given by the database [db]
    for the others. *)
Definition char_kind (db : string -> digit_kind) (ch : string) : digit_kind :=
  match ch with
  | String c EmptyString =>
      if (nat_of_ascii c <? 128)%nat then ascii_digit c else db ch
  | _ => db ch
  end.

Definition is_digit_char (db : string -> digit_kind) (ch : string) : bool :=
  match char_kind db ch with
  | NotDigit => false
  | OtherDigit | DecimalDigit _ => true
  end.

(** [s.isdigit()]: at least one character, and all of them digits. *)
Definition isdigit (db : string -> digit_kind) (s : string) : bool :=
  match chars s with
  | [] => false
  | l => forallb (is_digit_char db) l
  end.

Fixpoint int_chars (db : string -> digit_kind) (acc : Z) (l : list string)
  : result Z :=
  match l with
  | [] => Ok acc
  | ch :: t =>
      match char_kind db ch with
      | DecimalDigit d => int_chars db (10 * acc + digit_val d) t
      | NotDigit | OtherDigit => Raise (ValueError IntLiteral)
      end
  end.

(** [int(s)] for a string that [isdigit] accepts, the only strings the
    adapter converts (both calls sit under an [isdigit] test): decimal
    digits of any script give the integer, a digit that is not decimal
    gives a [ValueError]. *)
Definition int (db : string -> digit_kind) (s : string) : result Z :=
  match chars s with
  | [] => Raise (ValueError IntLiteral)
  | l => int_chars db 0 l
  end.

(** *** [in] and [split(sep, 1)] on strings *)

Fixpoint contains (sep s : string) : bool :=
  if prefix sep s then true
  else match s with
       | EmptyString => false
       | String _ t => contains sep t
       end.

Fixpoint drop (n : nat) (s : string) : string :=
  match n, s with
  | O, _ => s
  | S _, EmptyString => EmptyString
  | S m, String _ t => drop m t
  end.

(** [s.split(sep, 1)] for a non-empty separator: the text before the
    first occurrence and the text after it, or [s] alone. *)
Fixpoint split1 (sep s : string) : list string :=
  if prefix sep s then [EmptyString; drop (String.length sep) s]
  else match s with
       | EmptyString => [EmptyString]
       | String c t =>
           match split1 sep t with
           | h :: rest => String c h :: rest
           | [] => []
           end
       end.

(** [l[i]] *)
Definition getitem {A} (l : list A) (i : nat) : result A :=
  match nth_error l i with
  | Some x => Ok x
  | None => Raise IndexError
  end.

(** *** [sorted(l, key=...)] *)

Section Sorted.
Context {A : Type} (key : A -> Z).

(** The order of the keys. *)
Definition key_le (x y : A) : Prop := key x <= key y.

Fixpoint insert (x : A) (l : list A) : list A :=
  match l with
  | [] => [x]
  | y :: t => if key x <=? key y then x :: l else y :: insert x t
  end.

(** Python's sort is stable: among equal keys the input order is kept.
    Each element is put in front of the already sorted elements that
    followed it, before the first one whose key is not smaller. *)
Definition sorted (l : list A) : list A := fold_right insert [] l.
End Sorted.

(** [sorted(l, key=f)] for a key function that can raise: the keys of all
    the elements are computed first, in the order of the list, and the
    first exception ends the call. *)
Fixpoint keyed {A} (key : A -> result Z) (l : list A) : result (list (Z * A)) :=
  match l with
  | [] => Ok []
  | x :: t => k <- key x ;; ks <- keyed key t ;; Ok ((k, x) :: ks)
  end.

Definition sort_by_key {A} (key : A -> result Z) (l : list A) : result (list A) :=
  ks <- keyed key l ;; Ok (map snd (sorted fst ks)).

(** *** [pathlib] paths (POSIX flavour) *)

Record Path : Type := { anchor : string; parts : list string }.

Fixpoint split_slash (cur : string) (s : string) : list string :=
  match s with
  | EmptyString => [cur]
  | String c t =>
      if Ascii.eqb c "/" then cur :: split_slash EmptyString t
      else split_slash (cur ++ String c EmptyString) t
  end.

Definition keep_part (x : string) : bool :=
  negb (String.eqb x EmptyString) && negb (String.eqb x ".").

Fixpoint lstrip_slash (s : string) : string :=
  match s with
  | String c t => if Ascii.eqb c "/" then lstrip_slash t else s
  | EmptyString => s
  end.

(** The root of a path: two leading slashes are kept, one or more than
    two are a single slash. *)
Definition splitroot (s : string) : string * string :=
  match s with
  | String c _ =>
      if Ascii.eqb c "/" then
        let stripped := lstrip_slash s in
        if (String.length s - String.length stripped =? 2)%nat
        then ("//", stripped) else ("/", stripped)
      else (EmptyString, s)
  | EmptyString => (EmptyString, s)
  end.

(** [Path(s)]: empty components and [.] components are dropped. *)
Definition path_of_str (s : string) : Path :=
  let '(root, rel) := splitroot s in
  {| anchor := root; parts := filter keep_part (split_slash EmptyString rel) |}.

(** [p / s]: a rooted right operand replaces the left one. *)
Definition joinpath (p : Path) (s : string) : Path :=
  let q := path_of_str s in
  if String.eqb (anchor q) EmptyString
  then {| anchor := anchor p; parts := parts p ++ parts q |}
  else q.

(** *** [f"{n:04d}"] *)

Fixpoint zeros (n : nat) : string :=
  match n with
  | O => EmptyString
  | S m => String "0" (zeros m)
  end.

Definition zfill (width : nat) (digits : string) : string :=
  zeros (width - String.length digits) ++ digits.

Definition decimal (n : N) : string := NilZero.string_of_uint (N.to_uint n).

Definition format_04d (n : Z) : string :=
  if n <? 0 then String "-" (zfill 3 (decimal (Z.to_N (- n))))
  else zfill 4 (decimal (Z.to_N n)).

End Py.

(* ================================================================== *)
(** ** numpy values *)

Module Np.

(** A number held by an array or a numpy scalar: a finite value, or one
    of the IEEE specials.  Of floats only the class of a value and the
    sign of a difference are ever tested, and floating-point rounding
    changes neither, so finite values are kept exact. *)
Inductive scalar : Type :=
| Finite (q : Q)
| PosInf
| NegInf
| NaN.

Definition isfinite (x : scalar) : bool :=
  match x with
  | Finite _ => true
  | _ => false
  end.

Definition isnan (x : scalar) : bool :=
  match x with
  | NaN => true
  | _ => false
  end.

(** [x - y] *)
Definition sub (x y : scalar) : scalar :=
  match x, y with
  | NaN, _ | _, NaN => NaN
  | Finite a, Finite b => Finite (a - b)%Q
  | PosInf, PosInf => NaN
  | NegInf, NegInf => NaN
  | PosInf, _ => PosInf
  | NegInf, _ => NegInf
  | Finite _, PosInf => NegInf
  | Finite _, NegInf => PosInf
  end.

(** [x >= 0] *)
Definition ge0 (x : scalar) : bool :=
  match x with
  | Finite q => Qle_bool 0 q
  | PosInf => true
  | NegInf | NaN => false
  end.

(** [x < y], false as soon as one side is NaN. *)
Definition lt (x y : scalar) : bool :=
  match x, y with
  | NaN, _ | _, NaN => false
  | Finite a, Finite b => negb (Qle_bool b a)
  | NegInf, NegInf => false
  | NegInf, _ => true
  | _, NegInf => false
  | PosInf, _ => false
  | Finite _, PosInf => true
  end.

(** The widths of the integer types. *)
Inductive width : Type := W8 | W16 | W32 | W64.

Definition bits (w : width) : Z :=
  match w with
  | W8 => 8
  | W16 => 16
  | W32 => 32
  | W64 => 64
  end.

(** The type of the elements of an array: a float type (float16,
    float32, float64), a signed or unsigned integer type of a given
    width, the boolean type, or a type of text (bytes or str).  The
    elements of an integer array are integers of its range, those of a
    boolean array are 0 and 1, those of an array of text are text.  The
    other types an HDF5 file can hold (compound, complex, enumerated,
    opaque, references) are outside the model. *)
Inductive DType : Type :=
| Floating
| SignedInt (w : width)
| UnsignedInt (w : width)
| Boolean
| Text.

(** An element of a stored array: a number, or text of a string type. *)
Inductive elem : Type :=
| ENum (x : scalar)
| EBytes (b : list byte)
| EStr (s : string).

(** An array: the type of its elements, its shape and its elements in
    row-major order.  numpy keeps as many elements as the product of the
    shape. *)
Record ndarray : Type := { dtype : DType; shape : list nat; items : list elem }.

(** The integer that the arithmetic of a type gives for the exact result
    [z]: integers wrap around, and the difference of two booleans is
    whether they differ. *)
Definition wrap (d : DType) (z : Z) : Z :=
  match d with
  | SignedInt w => (z + 2 ^ (bits w - 1)) mod 2 ^ bits w - 2 ^ (bits w - 1)
  | UnsignedInt w => z mod 2 ^ bits w
  | Boolean => z mod 2
  | Floating | Text => z
  end.

(** [y - x] in the arithmetic of the type of the array *)
Definition minus (d : DType) (y x : scalar) : scalar :=
  match d, y, x with
  | (SignedInt _ | UnsignedInt _ | Boolean), Finite q, Finite p =>
      Finite (inject_Z (wrap d (Qfloor q - Qfloor p)))
  | _, _, _ => sub y x
  end.

(** The nearest double of an integer, ties to even: [float(n)] for an
    integer of at most 64 bits. *)
Definition round_to_double (z : Z) : Z :=
  let n := Z.abs z in
  let bits := Z.log2 n + 1 in
  if bits <=? 53 then z
  else
    let shift := bits - 53 in
    let q := Z.shiftr n shift in
    let r := Z.land n (Z.ones shift) in
    let half := Z.shiftl 1 (shift - 1) in
    let q' := if (half <? r) || ((r =? half) && Z.odd q) then q + 1 else q in
    Z.sgn z * Z.shiftl q' shift.

(** [float(x)] for an element of an array of the given type: a float is
    kept, an integer is rounded to the nearest double. *)
Definition as_float (d : DType) (x : scalar) : scalar :=
  match d, x with
  | (SignedInt _ | UnsignedInt _ | Boolean), Finite q =>
      Finite (inject_Z (round_to_double (Qfloor q)))
  | _, _ => x
  end.

Definition ndim (a : ndarray) : nat := List.length (shape a).

(** [len(a)], a [TypeError] for a zero-dimensional array. *)
Definition len (a : ndarray) : result nat :=
  match shape a with
  | [] => Raise TypeError
  | n :: _ => Ok n
  end.

Fixpoint numbers (l : list elem) : result (list scalar) :=
  match l with
  | [] => Ok []
  | ENum x :: t => xs <- numbers t ;; Ok (x :: xs)
  | _ :: _ => Raise TypeError
  end.

(** The numbers of an array, as arithmetic and [isfinite] take them:
    both are defined on numbers only and raise a [TypeError] on an array
    of text, whatever its size. *)
Definition values (a : ndarray) : result (list scalar) :=
  match dtype a with
  | Text => Raise TypeError
  | Floating | SignedInt _ | UnsignedInt _ | Boolean => numbers (items a)
  end.

(** [np.isfinite(a).all()] *)
Definition all_finite (a : ndarray) : result bool :=
  xs <- values a ;; Ok (forallb isfinite xs).

(** The pairs of neighbours along the last axis, whose extent is [n]:
    [k] counts the elements already passed in the current row. *)
Fixpoint neighbours (n k : nat) (l : list scalar) : list (scalar * scalar) :=
  match l with
  | a :: t =>
      match t with
      | b :: _ =>
          if (S k <? n)%nat then (a, b) :: neighbours n (S k) t
          else neighbours n 0 t
      | [] => []
      end
  | [] => []
  end.

(** [np.diff(a)]: the differences [a[..., i+1] - a[..., i]], in the
    arithmetic of the type of the array. *)
Definition diff (a : ndarray) : result (list scalar) :=
  match rev (shape a) with
  | [] => Raise (ValueError DiffOfScalar)
  | n :: _ =>
      xs <- values a ;;
      Ok (map (fun p => minus (dtype a) (snd p) (fst p)) (neighbours n 0 xs))
  end.

(** [np.all(np.diff(a) >= 0)] *)
Definition all_diff_ge0 (a : ndarray) : result bool :=
  d <- diff a ;; Ok (forallb ge0 d).

End Np.

(* ================================================================== *)
(** ** Python objects read from a dataset, and their text *)

Module Obj.

Inductive pyobj : Type :=
| PyBytes (b : list byte)            (* bytes, numpy.bytes_ *)
| PyStr (s : string)                 (* str, numpy.str_ *)
| PyNum (d : Np.DType) (x : Np.scalar) (* a numpy number of the given type *)
| NdArray (shape : list nat) (items : list pyobj).

(** What the interpreter and numpy supply. *)
Record runtime : Type := {
  (* hash() of a str, fixed within a process *)
  hash : string -> Z;
  (* the Unicode database, on a character outside ASCII *)
  unicode_digit : string -> Py.digit_kind;
  (* str() of a number *)
  num_str : Np.DType -> Np.scalar -> string;
  (* str() of an array with at least one axis *)
  array_str : list nat -> list pyobj -> string;
  (* float() of text *)
  float_of_text : string -> result Np.scalar;
  (* whether float() still takes an array of one element that has an
     axis, as numpy did before it made this an error *)
  size1_array_as_scalar : bool
}.

(** *** UTF-8 *)

Definition between (lo hi : N) (b : byte) : bool :=
  let n := Byte.to_N b in (lo <=? n)%N && (n <=? hi)%N.

Definition cont (b : byte) : bool := between 128 191 b.

(** The well-formed byte sequences of UTF-8. *)
Fixpoint utf8_valid (l : list byte) : bool :=
  match l with
  | [] => true
  | b0 :: t =>
      if between 0 127 b0 then utf8_valid t
      else match t with
      | [] => false
      | b1 :: t1 =>
          if between 194 223 b0 then cont b1 && utf8_valid t1
          else match t1 with
          | [] => false
          | b2 :: t2 =>
              if between 224 239 b0 then
                (if between 224 224 b0 then between 160 191 b1
                 else if between 237 237 b0 then between 128 159 b1
                 else cont b1)
                && cont b2 && utf8_valid t2
              else match t2 with
              | [] => false
              | b3 :: t3 =>
                  between 240 244 b0
                  && (if between 240 240 b0 then between 144 191 b1
                      else if between 244 244 b0 then between 128 143 b1
                      else cont b1)
                  && cont b2 && cont b3 && utf8_valid t3
              end
          end
      end
  end.

(** [b.decode("utf-8")] *)
Definition decode_utf8 (b : list byte) : result string :=
  if utf8_valid b then Ok (string_of_list_byte b) else Raise UnicodeDecodeError.

(** *** [repr] of text *)

Definition hex_digit (n : nat) : ascii :=
  nth n (list_ascii_of_string "0123456789abcdef") "0"%char.

Definition dquote : ascii := ascii_of_nat 34.
Definition squote : ascii := "'"%char.
Definition backslash : ascii := "\"%char.

Definition one (c : ascii) : string := String c EmptyString.

(** One character inside quotes; [high] tells whether a character above
    the ASCII range is escaped ([bytes]) or kept ([str]). *)
Definition escape (high : bool) (quote c : ascii) : string :=
  let n := nat_of_ascii c in
  if Ascii.eqb c backslash then String backslash (one backslash)
  else if Ascii.eqb c quote then String backslash (one quote)
  else if (n =? 9)%nat then String backslash "t"
  else if (n =? 10)%nat then String backslash "n"
  else if (n =? 13)%nat then String backslash "r"
  else if (n <? 32)%nat || (n =? 127)%nat || (high && (127 <? n)%nat)
  then String backslash (String "x" (String (hex_digit (n / 16)) (one (hex_digit (n mod 16)))))
  else one c.

Fixpoint has_char (c : ascii) (s : string) : bool :=
  match s with
  | EmptyString => false
  | String d t => Ascii.eqb c d || has_char c t
  end.

Fixpoint escape_all (high : bool) (quote : ascii) (s : string) : string :=
  match s with
  | EmptyString => EmptyString
  | String c t => escape high quote c ++ escape_all high quote t
  end.

(** Single quotes, unless the text has one and has no double quote. *)
Definition quoted (high : bool) (s : string) : string :=
  let q := if has_char squote s && negb (has_char dquote s) then dquote else squote in
  String q (escape_all high q s ++ one q).

Definition bytes_repr (b : list byte) : string :=
  String "b" (quoted true (string_of_list_byte b)).

Definition str_repr (s : string) : string := quoted false s.

Fixpoint join (sep : string) (l : list string) : string :=
  match l with
  | [] => EmptyString
  | [x] => x
  | x :: t => x ++ sep ++ join sep t
  end.

(** The bytes of the items of an array that holds only bytes. *)
Fixpoint all_bytes (items : list pyobj) : option (list (list byte)) :=
  match items with
  | [] => Some []
  | PyBytes b :: t =>
      match all_bytes t with
      | Some bs => Some (b :: bs)
      | None => None
      end
  | _ :: _ => None
  end.

(** The printed form of a one-dimensional array of bytes: the [repr]s of
    its items between brackets, separated by one space. *)
Definition row_of_bytes (bs : list (list byte)) : string :=
  "[" ++ join " " (map bytes_repr bs) ++ "]".

(** [str] of an array with at least one axis.  numpy prints a
    one-dimensional array of bytes that fits well within a line as
    [row_of_bytes] has it; the layout of the other arrays (nested
    brackets, padded numbers, broken lines, abbreviation) is left to
    numpy. *)
Definition array_text (rt : runtime) (shape : list nat) (items : list pyobj)
  : string :=
  match shape, all_bytes items with
  | [n], Some bs =>
      if (n =? List.length items)%nat
         && (String.length (row_of_bytes bs) <=? 70)%nat
      then row_of_bytes bs
      else array_str rt shape items
  | _, _ => array_str rt shape items
  end.

(** [str(v)] *)
Fixpoint str (rt : runtime) (v : pyobj) : string :=
  match v with
  | PyBytes b => bytes_repr b
  | PyStr s => s
  | PyNum d x => num_str rt d x
  | NdArray shape items =>
      match shape with
      | [] =>
          match items with
          | x :: _ => str rt x
          | [] => EmptyString
          end
      | _ :: _ => array_text rt shape items
      end
  end.

(** [float(v)] *)
Fixpoint float (rt : runtime) (v : pyobj) : result Np.scalar :=
  match v with
  | PyNum d x => Ok (Np.as_float d x)
  | PyStr s => float_of_text rt s
  | PyBytes b => float_of_text rt (string_of_list_byte b)
  | NdArray shape items =>
      match items with
      | [x] =>
          match shape with
          | [] => float rt x
          | _ :: _ =>
              if size1_array_as_scalar rt then float rt x else Raise TypeError
          end
      | _ => Raise TypeError
      end
  end.

Definition obj_of_elem (d : Np.DType) (e : Np.elem) : pyobj :=
  match e with
  | Np.ENum x => PyNum d x
  | Np.EBytes b => PyBytes b
  | Np.EStr s => PyStr s
  end.

End Obj.

(* ================================================================== *)
(** ** The HDF5 store *)

Module H5.

(** A member of a group: a group again, or a dataset with its array. *)
Inductive h5obj : Type :=
| Group (members : list (string * h5obj))
| Dataset (a : Np.ndarray).

(** An episode is a group, given by its members. *)
Definition episode : Type := list (string * h5obj).

(** An open file, as far as the adapter looks at it: the members of its
    top-level group [episodes], in the order h5py enumerates them, or
    [None] when the file has no such member.  The schema is taken for
    granted this far: [episodes] is a group and so are its members; below
    an episode, groups and datasets may sit anywhere.  Member names are
    unique within a group. *)
Record File : Type := { episodes : option (list (string * episode)) }.

Fixpoint lookup {V} (name : string) (ms : list (string * V)) : option V :=
  match ms with
  | [] => None
  | (k, v) :: t => if String.eqb name k then Some v else lookup name t
  end.

(** [g.keys()] *)
Definition keys {V} (ms : list (string * V)) : list string := map fst ms.

(** [g[name]] on a group given by its members *)
Definition member {V} (ms : list (string * V)) (name : string) : result V :=
  match lookup name ms with
  | Some v => Ok v
  | None => Raise (KeyError name)
  end.

(** [o[name]] *)
Definition getitem (o : h5obj) (name : string) : result h5obj :=
  match o with
  | Group ms => member ms name
  | Dataset _ => Raise (ValueError FieldNames)
  end.

(** [o[()]]: the value of a scalar dataset, the whole array otherwise. *)
Definition read (o : h5obj) : result Obj.pyobj :=
  match o with
  | Group _ => Raise TypeError
  | Dataset a =>
      match Np.shape a with
      | [] =>
          match Np.items a with
          | e :: _ => Ok (Obj.obj_of_elem (Np.dtype a) e)
          | [] => Raise IndexError
          end
      | sh => Ok (Obj.NdArray sh (map (Obj.obj_of_elem (Np.dtype a)) (Np.items a)))
      end
  end.

(** [o[...]] *)
Definition read_array (o : h5obj) : result Np.ndarray :=
  match o with
  | Group _ => Raise TypeError
  | Dataset a => Ok a
  end.

(** [o.shape] *)
Definition shape (o : h5obj) : result (list nat) :=
  match o with
  | Group _ => Raise AttributeError
  | Dataset a => Ok (Np.shape a)
  end.

Fixpoint walk (components : list string) (o : h5obj) : bool :=
  match components with
  | [] => true
  | c :: rest =>
      match o with
      | Group ms =>
          match lookup c ms with
          | Some child => walk rest child
          | None => false
          end
      | Dataset _ => false
      end
  end.

(** [path in g] for a relative path: every component names a member,
    going down through groups; nothing is found below a dataset. *)
Definition contains (g : episode) (path : string) : bool :=
  negb (String.eqb path EmptyString)
  && walk (filter Py.keep_part (Py.split_slash EmptyString path)) (Group g).

End H5.

(* ================================================================== *)
(** ** scripts/lib/hdf5_adapter.py *)

Module Adapter.
Import Obj.

Definition VIDEO_PATH_MARKER : string := "videos/".

(** Resolved view of one episode in the canonical HDF5. *)
Record EpisodeView : Type := {
  episode_key : string;
  demo_id : Z;
  num_steps : Z;
  task_text : string;
  video_path_hdf5 : string;
  video_path_resolved : Py.Path;
  from_timestamp : Np.scalar;
  to_timestamp : Np.scalar;
  fps : Np.scalar
}.

(** Decode a scalar HDF5 string payload into Python str. *)
Fixpoint decode_scalar_string (rt : runtime) (raw : pyobj) : result string :=
  match raw with
  | PyBytes b => decode_utf8 b
  | NdArray shape items =>
      match shape with
      | [] =>
          match items with
          | x :: _ => decode_scalar_string rt x
          | [] => Raise IndexError
          end
      | _ :: _ => Ok (str rt raw)
      end
  | _ => Ok (str rt raw)
  end.

(** Resolve a video path stored in HDF5 against a local root. *)
Definition resolve_video_path (video_root : Py.Path) (raw_video_path : string)
  : result Py.Path :=
  rel <- (if Py.contains VIDEO_PATH_MARKER raw_video_path
          then Py.getitem (Py.split1 VIDEO_PATH_MARKER raw_video_path) 1
          else Ok raw_video_path) ;;
  Ok (Py.joinpath video_root rel).

(** Return the top-level episodes group for supported schemas. *)
Definition get_episode_group (dataset : H5.File)
  : result (list (string * H5.episode)) :=
  match H5.episodes dataset with
  | Some g => Ok g
  | None => Raise (ValueError UnsupportedSchema)
  end.

(** Required datasets/groups per episode for V0 loader compatibility. *)
Definition required_episode_paths : list string :=
  [ "action/delta_eef";
    "obs/proprio";
    "obs/eef_pose";
    "meta/frame_index";
    "meta/timestamps";
    "meta/task_text";
    "meta/video/path";
    "meta/video/from_timestamp";
    "meta/video/to_timestamp";
    "meta/video/fps" ].

(** Stable sort helper for episode keys that may be numeric strings. *)
Definition _sort_key (rt : runtime) (key : string) : result Z :=
  if Py.isdigit (unicode_digit rt) key then Py.int (unicode_digit rt) key
  else Ok (Z.abs (hash rt key)).

Definition missing_paths (first_episode : H5.episode) : list string :=
  filter (fun path => negb (H5.contains first_episode path)) required_episode_paths.

(** Raise ValueError if required episode structure is missing. *)
Definition assert_required_structure (rt : runtime) (dataset : H5.File)
  : result unit :=
  episodes <- get_episode_group dataset ;;
  if (List.length (H5.keys episodes) =? 0)%nat then Raise (ValueError ZeroEpisodes)
  else
    ordered <- Py.sort_by_key (_sort_key rt) (H5.keys episodes) ;;
    first_key <- Py.getitem ordered 0 ;;
    first_episode <- H5.member episodes first_key ;;
    match missing_paths first_episode with
    | [] => Ok tt
    | missing => Raise (ValueError (MissingPaths first_key missing))
    end.

(** [episode["meta"][name]] and [episode["meta"]["video"][name]] *)
Definition meta_field (episode : H5.episode) (name : string) : result H5.h5obj :=
  meta <- H5.member episode "meta" ;; H5.getitem meta name.

Definition video_field (episode : H5.episode) (name : string) : result H5.h5obj :=
  video <- meta_field episode "video" ;; H5.getitem video name.

(** [int(episode_key) if str(episode_key).isdigit() else _sort_key(episode_key)] *)
Definition demo_id_of (rt : runtime) (episode_key : string) : result Z :=
  if Py.isdigit (unicode_digit rt) episode_key
  then Py.int (unicode_digit rt) episode_key
  else _sort_key rt episode_key.

(** The body of the loop of [iter_episode_views] for one key. *)
Definition episode_view (rt : runtime) (episodes : list (string * H5.episode))
    (video_root : Py.Path) (key : string) : result EpisodeView :=
  episode <- H5.member episodes key ;;
  action <- (g <- H5.member episode "action" ;; H5.getitem g "delta_eef") ;;
  task_text <- (d <- meta_field episode "task_text" ;; v <- H5.read d ;;
                decode_scalar_string rt v) ;;
  raw_video <- (d <- video_field episode "path" ;; v <- H5.read d ;;
                decode_scalar_string rt v) ;;
  from_ts <- (d <- video_field episode "from_timestamp" ;; v <- H5.read d ;; float rt v) ;;
  to_ts <- (d <- video_field episode "to_timestamp" ;; v <- H5.read d ;; float rt v) ;;
  fps <- (d <- video_field episode "fps" ;; v <- H5.read d ;; float rt v) ;;
  demo_id <- demo_id_of rt key ;;
  num_steps <- (sh <- H5.shape action ;; Py.getitem sh 0) ;;
  resolved <- resolve_video_path video_root raw_video ;;
  Ok {| episode_key := key;
        demo_id := demo_id;
        num_steps := Z.of_nat num_steps;
        task_text := task_text;
        video_path_hdf5 := raw_video;
        video_path_resolved := resolved;
        from_timestamp := from_ts;
        to_timestamp := to_ts;
        fps := fps |}.

(** What a generator does when it is run to its end: the values it
    yields, and the exception that stopped it, if one did. *)
Record trace : Type := { yielded : list EpisodeView; raised : option exn }.

Fixpoint yield_views (rt : runtime) (episodes : list (string * H5.episode))
    (video_root : Py.Path) (keys : list string) : trace :=
  match keys with
  | [] => {| yielded := []; raised := None |}
  | key :: rest =>
      match episode_view rt episodes video_root key with
      | Raise e => {| yielded := []; raised := Some e |}
      | Ok view =>
          let tr := yield_views rt episodes video_root rest in
          {| yielded := view :: yielded tr; raised := raised tr |}
      end
  end.

(** Yield episode views sorted by stable key ordering. *)
Definition iter_episode_views (rt : runtime) (dataset : H5.File)
    (video_root : Py.Path) : trace :=
  match get_episode_group dataset with
  | Raise e => {| yielded := []; raised := Some e |}
  | Ok episodes =>
      match Py.sort_by_key (_sort_key rt) (H5.keys episodes) with
      | Raise e => {| yielded := []; raised := Some e |}
      | Ok keys => yield_views rt episodes video_root keys
      end
  end.

(** The five arrays read at the top of [validate_episode_arrays]. *)
Record arrays : Type := {
  delta_eef : Np.ndarray;
  proprio : Np.ndarray;
  eef_pose : Np.ndarray;
  frame_index : Np.ndarray;
  timestamps : Np.ndarray
}.

Definition read_at (episode : H5.episode) (g name : string) : result Np.ndarray :=
  o <- H5.member episode g ;; d <- H5.getitem o name ;; H5.read_array d.

Definition load_arrays (episode : H5.episode) : result arrays :=
  d <- read_at episode "action" "delta_eef" ;;
  p <- read_at episode "obs" "proprio" ;;
  e <- read_at episode "obs" "eef_pose" ;;
  f <- read_at episode "meta" "frame_index" ;;
  t <- read_at episode "meta" "timestamps" ;;
  Ok {| delta_eef := d; proprio := p; eef_pose := e;
        frame_index := f; timestamps := t |}.

(** [len(proprio) == len(eef_pose) == len(frame_index) == len(timestamps)
    == length]: a chained comparison stops at the first pair that
    differs, without evaluating the operands to its right. *)
Definition same_lengths (a : arrays) (length : nat) : result bool :=
  lp <- Np.len (proprio a) ;;
  le <- Np.len (eef_pose a) ;;
  if negb (lp =? le)%nat then Ok false else
  lf <- Np.len (frame_index a) ;;
  if negb (le =? lf)%nat then Ok false else
  lt <- Np.len (timestamps a) ;;
  if negb (lf =? lt)%nat then Ok false else
  Ok (lt =? length)%nat.

(** [if cond: issues.append(tag)] *)
Definition append_if (cond : bool) (tag : string) (issues : list string)
  : list string :=
  if cond then issues ++ [tag] else issues.

(** [delta_eef.ndim != 2 or delta_eef.shape[1] != 6] *)
Definition not_Tx6 (a : Np.ndarray) : bool :=
  negb (Np.ndim a =? 2)%nat
  || match nth_error (Np.shape a) 1 with
     | Some c => negb (c =? 6)%nat
     | None => true
     end.

Definition check_arrays (a : arrays) : result (list string) :=
  let issues := [] in
  length <- Np.len (delta_eef a) ;;
  same <- same_lengths a length ;;
  let issues := append_if (negb same) "length_mismatch" issues in
  ok <- Np.all_finite (delta_eef a) ;;
  let issues := append_if (negb ok) "delta_eef_non_finite" issues in
  ok <- Np.all_finite (proprio a) ;;
  let issues := append_if (negb ok) "proprio_non_finite" issues in
  ok <- Np.all_finite (eef_pose a) ;;
  let issues := append_if (negb ok) "eef_pose_non_finite" issues in
  ok <- Np.all_diff_ge0 (frame_index a) ;;
  let issues := append_if (negb ok) "frame_index_not_monotonic" issues in
  ok <- Np.all_diff_ge0 (timestamps a) ;;
  let issues := append_if (negb ok) "timestamps_not_monotonic" issues in
  let issues := append_if (not_Tx6 (delta_eef a)) "delta_eef_shape_not_Tx6" issues in
  Ok issues.

(** Return a list of validation issues for one episode. *)
Definition validate_episode_arrays (episode : H5.episode) : result (list string) :=
  a <- load_arrays episode ;; check_arrays a.

End Adapter.

(* ================================================================== *)
(** ** The names the scripts derive from [demo_id] *)

Module Scripts.

(** 00a_validate_transfer.py: [f"demo_{demo_id:04d}_front.mp4"] *)
Definition expected_export_name (demo_id : Z) : string :=
  "demo_" ++ Py.format_04d demo_id ++ "_front.mp4".

(** 02_export_mp4_from_hdf5.py: [f"demo_{demo_id:04d}_{camera_key}.mp4"] *)
Definition output_name (demo_id : Z) (camera_key : string) : string :=
  "demo_" ++ Py.format_04d demo_id ++ "_" ++ camera_key ++ ".mp4".

End Scripts.

(* ================================================================== *)
(** ** The rules of the specification, stated on their own *)

Module Rules.
Import Obj Adapter.

Definition numerals : list ascii := list_ascii_of_string "0123456789".

(** A string of the decimal digits 0 to 9. *)
Definition is_decimal (s : string) : Prop :=
  s <> EmptyString /\ Forall (fun c => In c numerals) (list_ascii_of_string s).

Definition numeral_value (c : ascii) : Z :=
  match c with
  | "0" => 0 | "1" => 1 | "2" => 2 | "3" => 3 | "4" => 4
  | "5" => 5 | "6" => 6 | "7" => 7 | "8" => 8 | "9" => 9
  | _ => 0
  end%char.

(** The integer a string of digits denotes, by the weight of each
    position. *)
Fixpoint decimal_value (s : string) : Z :=
  match s with
  | EmptyString => 0
  | String c t => numeral_value c * 10 ^ Z.of_nat (String.length t) + decimal_value t
  end.

(** The value of a character that is a decimal digit, of any script. *)
Definition char_value (rt : runtime) (ch : string) : option Z :=
  match Py.char_kind (unicode_digit rt) ch with
  | Py.DecimalDigit d => Some (Py.digit_val d)
  | Py.OtherDigit | Py.NotDigit => None
  end.

(** A key made of decimal digits, of any script. *)
Definition decimal_key (rt : runtime) (key : string) : Prop :=
  Py.chars key <> []
  /\ Forall (fun ch => char_value rt ch <> None) (Py.chars key).

(** A key made of digits, decimal or not. *)
Definition digit_key (rt : runtime) (key : string) : Prop :=
  Py.chars key <> []
  /\ Forall (fun ch => Py.char_kind (unicode_digit rt) ch <> Py.NotDigit)
       (Py.chars key).

(** The integer that digits denote, by the weight of each position. *)
Fixpoint positional (l : list Z) : Z :=
  match l with
  | [] => 0
  | v :: t => v * 10 ^ Z.of_nat (List.length t) + positional t
  end.

Definition value_or_zero (rt : runtime) (ch : string) : Z :=
  match char_value rt ch with
  | Some v => v
  | None => 0
  end.

Definition key_value (rt : runtime) (key : string) : Z :=
  positional (map (value_or_zero rt) (Py.chars key)).

(** The sort rule: a key of decimal digits sorts as its integer value,
    any other key by the absolute value of its hash. *)
Inductive sorts_as (rt : runtime) (key : string) : Z -> Prop :=
| sorts_as_integer : decimal_key rt key -> sorts_as rt key (key_value rt key)
| sorts_as_hash : ~ decimal_key rt key -> sorts_as rt key (Z.abs (hash rt key)).

(** A key the sort can place: not one made of digits of which some is
    not a decimal digit. *)
Definition sortable (rt : runtime) (key : string) : Prop :=
  digit_key rt key -> decimal_key rt key.

(** [v] does not come after [w] under the sort rule. *)
Definition in_order (rt : runtime) (v w : Adapter.EpisodeView) : Prop :=
  forall a b,
    sorts_as rt (Adapter.episode_key v) a ->
    sorts_as rt (Adapter.episode_key w) b -> a <= b.

(** [sep] occurs in [s]. *)
Definition occurs (sep s : string) : Prop :=
  exists before after, s = (before ++ sep ++ after)%string.

(** [before] is what precedes the first occurrence of [sep] in [s], and
    [after] what follows it. *)
Definition first_split (sep s before after : string) : Prop :=
  s = (before ++ sep ++ after)%string
  /\ forall before' after', s = (before' ++ sep ++ after')%string ->
       (String.length before <= String.length before')%nat.

(** The text of a scalar string payload: raw bytes are decoded as UTF-8,
    a str is its own text, and a zero-dimensional array has the text of
    what it wraps. *)
Inductive payload_text : pyobj -> result string -> Prop :=
| text_of_bytes (b : list byte) : payload_text (PyBytes b) (decode_utf8 b)
| text_of_str (s : string) : payload_text (PyStr s) (Ok s)
| text_of_wrapped (x : pyobj) (r : result string) :
    payload_text x r -> payload_text (NdArray [] [x]) r.

(** The neighbours of an array of numbers: consecutive elements along
    its last axis. *)
Definition neighbour_pairs (arr : Np.ndarray) : list (Np.scalar * Np.scalar) :=
  match Np.numbers (Np.items arr) with
  | Ok xs => Np.neighbours (last (Np.shape arr) 0%nat) 0 xs
  | Raise _ => []
  end.

(** The properties the issue tags stand for. *)
Definition non_finite (x : Np.scalar) : Prop :=
  x = Np.NaN \/ x = Np.PosInf \/ x = Np.NegInf.

Definition has_non_finite (arr : Np.ndarray) : Prop :=
  exists x, In (Np.ENum x) (Np.items arr) /\ non_finite x.

(** From [x] to its neighbour [y] the test [y - x >= 0] fails.  For
    floats: [y] is smaller than [x], or the difference is not a number.
    For integers and booleans: the difference, brought into the range of
    the type, is negative. *)
Definition failed_step (d : Np.DType) (x y : Np.scalar) : Prop :=
  match d, x, y with
  | (Np.SignedInt _ | Np.UnsignedInt _ | Np.Boolean), Np.Finite p, Np.Finite q =>
      Np.wrap d (Qfloor q - Qfloor p) < 0
  | _, _, _ => Np.lt y x = true \/ Np.isnan (Np.sub y x) = true
  end.

Definition has_failed_step (arr : Np.ndarray) : Prop :=
  exists x y, In (x, y) (neighbour_pairs arr) /\ failed_step (Np.dtype arr) x y.




Definition same_length (a : arrays) : Prop :=
  exists n, Np.len (delta_eef a) = Ok n
            /\ Np.len (proprio a) = Ok n /\ Np.len (eef_pose a) = Ok n
            /\ Np.len (frame_index a) = Ok n /\ Np.len (timestamps a) = Ok n.

Definition is_Tx6 (arr : Np.ndarray) : Prop :=
  exists T, Np.shape arr = [T; 6%nat].

(** A per-step array of numbers: at least one axis, no text. *)
Definition per_step (arr : Np.ndarray) : Prop :=
  Np.shape arr <> []
  /\ Np.dtype arr <> Np.Text
  /\ Forall (fun e => exists x, e = Np.ENum x) (Np.items arr).



(** What a view reports of an episode. *)
Record content : Type := {
  step_count : nat;
  task : string;
  video : string;
  video_from : Np.scalar;
  video_to : Np.scalar;
  video_fps : Np.scalar
}.




(** The issues reported, in the order of the tests, by the outcome of
    each test. *)
Definition tags (b1 b2 b3 b4 b5 b6 b7 : bool) : list string :=
  append_if b7 "delta_eef_shape_not_Tx6"
    (append_if b6 "timestamps_not_monotonic"
       (append_if b5 "frame_index_not_monotonic"
          (append_if b4 "eef_pose_non_finite"
             (append_if b3 "proprio_non_finite"
                (append_if b2 "delta_eef_non_finite"
                   (append_if b1 "length_mismatch" [])))))).

End Rules.

(* ================================================================== *)
(** ** Sample data *)

Module Sample.
Import Obj Adapter.

(** The Arabic-Indic digit three (U+0663), a decimal digit, and the
    superscript two (U+00B2), a digit that is not decimal. *)
Definition arabic_three : string :=
  String (ascii_of_nat 217) (String (ascii_of_nat 163) EmptyString).

Definition superscript_two : string :=
  String (ascii_of_nat 194) (String (ascii_of_nat 178) EmptyString).

(** A runtime to evaluate with. *)
Definition rt : runtime :=
  {| hash := fun s => 17 - 31 * Z.of_nat (String.length s);
     unicode_digit := fun ch =>
       if String.eqb ch arabic_three then Py.DecimalDigit Py.d3
       else if String.eqb ch superscript_two then Py.OtherDigit
       else Py.NotDigit;
     num_str := fun _ _ => "0.0";
     array_str := fun _ _ => "[...]";
     float_of_text := fun _ => Raise (ValueError FloatLiteral);
     size1_array_as_scalar := false |}.


Definition fin (z : Z) : Np.scalar := Np.Finite (inject_Z z).

(** A one-dimensional array of float64. *)
Definition vector (l : list Np.scalar) : Np.ndarray :=
  {| Np.dtype := Np.Floating; Np.shape := [List.length l]; Np.items := map Np.ENum l |}.

(** A two-dimensional array of float64. *)
Definition matrix (rows cols : nat) (x : Np.scalar) : Np.ndarray :=
  {| Np.dtype := Np.Floating; Np.shape := [rows; cols];
     Np.items := repeat (Np.ENum x) (rows * cols) |}.

(** A scalar dataset: of float64 for a number, of text otherwise. *)
Definition scalar_of (e : Np.elem) : H5.h5obj :=
  H5.Dataset {| Np.dtype := match e with
                            | Np.ENum _ => Np.Floating
                            | Np.EBytes _ | Np.EStr _ => Np.Text
                            end;
                Np.shape := []; Np.items := [e] |}.

Definition bytes_of (s : string) : Np.elem := Np.EBytes (list_byte_of_string s).

(** An episode with the ten required members. *)
Definition episode_of (delta_eef proprio eef_pose frame_index timestamps : Np.ndarray)
    (task video : string) : H5.episode :=
  [ ("action", H5.Group [("delta_eef", H5.Dataset delta_eef)]);
    ("obs", H5.Group [("proprio", H5.Dataset proprio);
                      ("eef_pose", H5.Dataset eef_pose)]);
    ("meta", H5.Group
       [("frame_index", H5.Dataset frame_index);
        ("timestamps", H5.Dataset timestamps);
        ("task_text", scalar_of (bytes_of task));
        ("video", H5.Group
           [("path", scalar_of (bytes_of video));
            ("from_timestamp", scalar_of (Np.ENum (fin 0)));
            ("to_timestamp", scalar_of (Np.ENum (fin 2)));
            ("fps", scalar_of (Np.ENum (fin 30)))])]) ].

(** A one-dimensional array of integers of the given type. *)
Definition integers_of (d : Np.DType) (l : list Z) : Np.ndarray :=
  {| Np.dtype := d; Np.shape := [List.length l];
     Np.items := map Np.ENum (map fin l) |}.

(** A one-dimensional array of int64. *)
Definition steps (l : list Z) : Np.ndarray := integers_of (Np.SignedInt Np.W64) l.

(** A one-dimensional array of float64 that holds integers. *)
Definition times (l : list Z) : Np.ndarray := vector (map fin l).

(** Three steps, every check passed. *)
Definition good_episode : H5.episode :=
  episode_of (matrix 3 6 (fin 0)) (matrix 3 7 (fin 1)) (matrix 3 7 (fin 1))
    (steps [0; 1; 2]) (times [0; 1; 2])
    "pick the cube" "videos/chunk-000/observation.images.front/episode_000000.mp4".

(** The same, with a NaN in the pose array. *)
Definition nan_pose_episode : H5.episode :=
  episode_of (matrix 3 6 (fin 0)) (matrix 3 7 (fin 1))
    {| Np.dtype := Np.Floating; Np.shape := [3%nat; 1%nat];
       Np.items := [Np.ENum (fin 1); Np.ENum Np.NaN; Np.ENum (fin 1)] |}
    (steps [0; 1; 2]) (times [0; 1; 2])
    "pick the cube" "videos/chunk-000/observation.images.front/episode_000001.mp4".



(** The same as [good_episode], with a single frame index stored as a
    scalar: all ten required paths are present. *)
Definition scalar_frame_episode : H5.episode :=
  episode_of (matrix 3 6 (fin 0)) (matrix 3 7 (fin 1)) (matrix 3 7 (fin 1))
    {| Np.dtype := Np.SignedInt Np.W64; Np.shape := []; Np.items := [Np.ENum (fin 0)] |}
    (times [0; 1; 2])
    "pick the cube" "videos/a.mp4".


(** Like [good_episode], without [meta/video/fps]. *)
Definition no_fps_episode : H5.episode :=
  [ ("action", H5.Group [("delta_eef", H5.Dataset (matrix 3 6 (fin 0)))]);
    ("obs", H5.Group [("proprio", H5.Dataset (matrix 3 7 (fin 1)));
                      ("eef_pose", H5.Dataset (matrix 3 7 (fin 1)))]);
    ("meta", H5.Group
       [("frame_index", H5.Dataset (steps [0; 1; 2]));
        ("timestamps", H5.Dataset (times [0; 1; 2]));
        ("task_text", scalar_of (bytes_of "pick the cube"));
        ("video", H5.Group
           [("path", scalar_of (bytes_of "videos/a.mp4"));
            ("from_timestamp", scalar_of (Np.ENum (fin 0)));
            ("to_timestamp", scalar_of (Np.ENum (fin 2)))])]) ].

Definition file_of (eps : list (string * H5.episode)) : H5.File :=
  {| H5.episodes := Some eps |}.

(** Two episodes, enumerated by h5py in name order. *)
Definition two_demos : H5.File :=
  file_of [("0", good_episode); ("1", nan_pose_episode)].

(** Keys that are not all numerals, and two numerals of equal value. *)
Definition mixed_keys : H5.File :=
  file_of [("007", good_episode); ("10", good_episode); ("7", nan_pose_episode);
           ("9", good_episode); ("demo_a", good_episode)].

(** Keys of digits of another script, and of digits that are not
    decimal. *)
Definition arabic_keys : H5.File :=
  file_of [("10", good_episode); ("demo_a", good_episode);
           (arabic_three, nan_pose_episode)].


Definition video_root : Py.Path := Py.path_of_str "data/videos/incoming".

(** A one-dimensional array of one-byte strings. *)
Definition char_array : pyobj :=
  NdArray [2%nat] [PyBytes (list_byte_of_string "h"); PyBytes (list_byte_of_string "i")].

Definition good_arrays : arrays :=
  {| delta_eef := matrix 3 6 (fin 0);
     proprio := matrix 3 7 (fin 1);
     eef_pose := matrix 3 7 (fin 1);
     frame_index := steps [0; 1; 2];
     timestamps := times [0; 1; 2] |}.

Definition nan_pose_arrays : arrays :=
  {| delta_eef := matrix 3 6 (fin 0);
     proprio := matrix 3 7 (fin 1);
     eef_pose := {| Np.dtype := Np.Floating; Np.shape := [3%nat; 1%nat];
                    Np.items := [Np.ENum (fin 1); Np.ENum Np.NaN; Np.ENum (fin 1)] |};
     frame_index := steps [0; 1; 2];
     timestamps := times [0; 1; 2] |}.


Definition view_0 : EpisodeView :=
  {| episode_key := "0";
     demo_id := 0;
     num_steps := 3;
     task_text := "pick the cube";
     video_path_hdf5 := "videos/chunk-000/observation.images.front/episode_000000.mp4";
     video_path_resolved :=
       {| Py.anchor := EmptyString;
          Py.parts := ["data"; "videos"; "incoming"; "chunk-000";
                       "observation.images.front"; "episode_000000.mp4"] |};
     from_timestamp := fin 0;
     to_timestamp := fin 2;
     fps := fin 30 |}.



(** The views of [arabic_keys], in the order of the iteration. *)
Definition view_arabic_three : EpisodeView :=
  {| episode_key := arabic_three;
     demo_id := 3;
     num_steps := 3;
     task_text := "pick the cube";
     video_path_hdf5 := "videos/chunk-000/observation.images.front/episode_000001.mp4";
     video_path_resolved :=
       {| Py.anchor := EmptyString;
          Py.parts := ["data"; "videos"; "incoming"; "chunk-000";
                       "observation.images.front"; "episode_000001.mp4"] |};
     from_timestamp := fin 0;
     to_timestamp := fin 2;
     fps := fin 30 |}.

Definition view_10 : EpisodeView :=
  {| episode_key := "10";
     demo_id := 10;
     num_steps := 3;
     task_text := "pick the cube";
     video_path_hdf5 := "videos/chunk-000/observation.images.front/episode_000000.mp4";
     video_path_resolved := video_path_resolved view_0;
     from_timestamp := fin 0;
     to_timestamp := fin 2;
     fps := fin 30 |}.

Definition view_demo_a : EpisodeView :=
  {| episode_key := "demo_a";
     demo_id := 169;
     num_steps := 3;
     task_text := "pick the cube";
     video_path_hdf5 := "videos/chunk-000/observation.images.front/episode_000000.mp4";
     video_path_resolved := video_path_resolved view_0;
     from_timestamp := fin 0;
     to_timestamp := fin 2;
     fps := fin 30 |}.

Definition leading_zero_episodes : list (string * H5.episode) :=
  [("007", good_episode); ("7", nan_pose_episode)].

Definition view_007 : EpisodeView :=
  {| episode_key := "007";
     demo_id := 7;
     num_steps := 3;
     task_text := "pick the cube";
     video_path_hdf5 := "videos/chunk-000/observation.images.front/episode_000000.mp4";
     video_path_resolved := video_path_resolved view_0;
     from_timestamp := fin 0;
     to_timestamp := fin 2;
     fps := fin 30 |}.

Definition view_7 : EpisodeView :=
  {| episode_key := "7";
     demo_id := 7;
     num_steps := 3;
     task_text := "pick the cube";
     video_path_hdf5 := "videos/chunk-000/observation.images.front/episode_000001.mp4";
     video_path_resolved :=
       {| Py.anchor := EmptyString;
          Py.parts := ["data"; "videos"; "incoming"; "chunk-000";
                       "observation.images.front"; "episode_000001.mp4"] |};
     from_timestamp := fin 0;
     to_timestamp := fin 2;
     fps := fin 30 |}.

End Sample.

(* ================================================================== *)
(** ** More of Python: text, paths, slices *)

Module PyMore.

Definition newline : ascii := ascii_of_nat 10.

(** [c.lower()] on ASCII letters *)
Definition lower_char (c : ascii) : ascii :=
  let n := nat_of_ascii c in
  if (65 <=? n)%nat && (n <=? 90)%nat then ascii_of_nat (n + 32) else c.

(** [s.lower()] *)
Fixpoint lower (s : string) : string :=
  match s with
  | EmptyString => EmptyString
  | String c t => String (lower_char c) (lower t)
  end.

(** [s.replace(a, b)] for single characters *)
Fixpoint replace_char (a b : ascii) (s : string) : string :=
  match s with
  | EmptyString => EmptyString
  | String c t => String (if Ascii.eqb c a then b else c) (replace_char a b t)
  end.

(** [s.rfind(c)]: the index of the last occurrence, or -1 *)
Fixpoint rfind_char (c : ascii) (s : string) : Z :=
  match s with
  | EmptyString => -1
  | String d t =>
      let r := rfind_char c t in
      if 0 <=? r then r + 1
      else if Ascii.eqb d c then 0 else -1
  end.

Fixpoint take (n : nat) (s : string) : string :=
  match n, s with
  | O, _ => EmptyString
  | S _, EmptyString => EmptyString
  | S m, String c t => String c (take m t)
  end.

(** [p.name]: the last component, or the empty string *)
Definition name (p : Py.Path) : string := last (Py.parts p) EmptyString.

(** [p.stem]: the name without its last suffix; a dot at either end of
    the name starts no suffix *)
Definition stem (p : Py.Path) : string :=
  let n := name p in
  let i := rfind_char "." n in
  if (0 <? i) && (i <? Z.of_nat (String.length n) - 1)
  then take (Z.to_nat i) n else n.

(** [str(p)] *)
Definition str_of_path (p : Py.Path) : string :=
  match Py.parts p with
  | [] => if String.eqb (Py.anchor p) EmptyString then "." else Py.anchor p
  | parts => Py.anchor p ++ Obj.join "/" parts
  end.

(** [s] without [prefix], when it starts with it *)
Definition remove_prefix (p s : string) : option string :=
  if prefix p s then Some (Py.drop (String.length p) s) else None.

(** [s] without [suffix], when it ends with it *)
Fixpoint remove_suffix (suffix s : string) : option string :=
  if String.eqb s suffix then Some EmptyString
  else match s with
       | EmptyString => None
       | String c t =>
           match remove_suffix suffix t with
           | Some r => Some (String c r)
           | None => None
           end
       end.

(** The longest prefix of characters that satisfy [f], and the rest. *)
Fixpoint span (f : ascii -> bool) (s : string) : string * string :=
  match s with
  | EmptyString => (EmptyString, EmptyString)
  | String c t =>
      if f c then let '(a, b) := span f t in (String c a, b)
      else (EmptyString, s)
  end.

(** [s] without a newline that ends it: where the anchor [$] of a
    regular expression matches besides the very end. *)
Fixpoint chomp (s : string) : string :=
  match s with
  | EmptyString => EmptyString
  | String c EmptyString => if Ascii.eqb c newline then EmptyString else s
  | String c t => String c (chomp t)
  end.

Fixpoint has_char (c : ascii) (s : string) : bool :=
  match s with
  | EmptyString => false
  | String d t => Ascii.eqb d c || has_char c t
  end.

(** [f"{n:0{width}d}"] *)
Definition format_d (width : nat) (n : Z) : string :=
  if n <? 0 then String "-" (Py.zfill (width - 1) (Py.decimal (Z.to_N (- n))))
  else Py.zfill width (Py.decimal (Z.to_N n)).

(** [range(n)] *)
Definition range (n : Z) : list Z := map Z.of_nat (seq 0 (Z.to_nat n)).

(** [l[:n]] *)
Definition slice_to {A} (n : Z) (l : list A) : list A :=
  if n <? 0 then firstn (Z.to_nat (Z.of_nat (List.length l) + n)) l
  else firstn (Z.to_nat n) l.

(** [sorted(l)] and [l.sort()] with an order given by a test: stable. *)
Section SortedBy.
Context {A : Type} (leb : A -> A -> bool).

Fixpoint insert_by (x : A) (l : list A) : list A :=
  match l with
  | [] => [x]
  | y :: t => if leb x y then x :: l else y :: insert_by x t
  end.

Definition sorted_by (l : list A) : list A := fold_right insert_by [] l.
End SortedBy.

End PyMore.

(* ================================================================== *)
(** ** File names shared by the export and the transfer scripts *)

Module Names.
Import PyMore.

(** 02_export_mp4_from_hdf5.py: infer stable camera key from source
    path. *)
Definition infer_camera_key (raw_video_path : string) : string :=
  let path_lower := lower raw_video_path in
  if Py.contains "observation.images.front" path_lower then "front"
  else if Py.contains "wrist" path_lower then "wrist"
  else
    let tail := stem (Py.path_of_str raw_video_path) in
    replace_char "." "_" tail.

(** 03_run_transfer.py: [DEMO_NAME_PATTERN.match(name)] for the pattern
    [^demo_(\d+)_(.+)\.mp4$], then [int(group 1), group 2].  The digits
    are the longest run of digits after [demo_], which an underscore must
    follow; the second group is what lies between that underscore and the
    final [.mp4]: it is not empty and holds no newline, which the dot of
    the pattern does not match. *)
Definition parse_demo_filename (name : string) : option (Z * string) :=
  match remove_prefix "demo_" (chomp name) with
  | None => None
  | Some rest =>
      let '(digits, rest') := span Py.is_ascii_digit rest in
      match digits, rest' with
      | String _ _, String "_" tail =>
          match remove_suffix ".mp4" tail with
          | Some camera_key =>
              match camera_key with
              | EmptyString => None
              | String _ _ =>
                  if has_char newline camera_key then None
                  else Some (Py.int_of_digits digits, camera_key)
              end
          | None => None
          end
      | _, _ => None
      end
  end.

(** 03_run_transfer.py:
    [f"demo_{demo_id:04d}_v{variant_idx:02d}_{camera_key}.mp4"] *)
Definition variant_output_name (demo_id variant_idx : Z) (camera_key : string)
  : string :=
  "demo_" ++ format_d 4 demo_id ++ "_v" ++ format_d 2 variant_idx
  ++ "_" ++ camera_key ++ ".mp4".

End Names.

(* ================================================================== *)
(** ** scripts/00a_validate_transfer.py *)

Module ValidateTransfer.
Import Obj Adapter.

(** [list(generator)]: the values yielded, unless an exception stopped
    the generator, which then stops the caller. *)
Definition list_of (tr : trace) : result (list EpisodeView) :=
  match raised tr with
  | None => Ok (yielded tr)
  | Some e => Raise e
  end.

(** One line of the manifest. *)
Record manifest_record : Type := {
  record_view : EpisodeView;
  video_exists : bool;
  expected_export_name : string
}.

(** One entry of the issues of the report. *)
Record issue_record : Type := {
  issue_demo_id : Z;
  issue_episode_key : string;
  issues : list string
}.

Record report : Type := {
  episodes_total : nat;
  issue_records : list issue_record;
  manifest : list manifest_record;
  all_video_paths : list string;        (* a set *)
  missing_video_files : nat
}.

(** [s.add(x)] on a set of strings kept as a list without repetition *)
Definition set_add (x : string) (s : list string) : list string :=
  if existsb (String.eqb x) s then s else s ++ [x].

(** The state of the loop over the views. *)
Record progress : Type := {
  seen_paths : list string;
  found_issues : list issue_record;
  lines : list manifest_record
}.

(** The body of the loop of [main]; [path_exists] is the file system as
    [Path.exists] sees it. *)
Definition check_view (path_exists : Py.Path -> bool)
    (episodes : list (string * H5.episode)) (st : progress)
    (episode_view : EpisodeView) : result progress :=
  episode <- H5.member episodes (episode_key episode_view) ;;
  episode_issues <- validate_episode_arrays episode ;;
  let exists_ := path_exists (video_path_resolved episode_view) in
  let seen := set_add (PyMore.str_of_path (video_path_resolved episode_view))
                (seen_paths st) in
  let episode_issues :=
    append_if (negb exists_) "video_file_missing" episode_issues in
  let found :=
    match episode_issues with
    | [] => found_issues st
    | _ :: _ =>
        found_issues st
        ++ [{| issue_demo_id := demo_id episode_view;
               issue_episode_key := episode_key episode_view;
               issues := episode_issues |}]
    end in
  let record :=
    {| record_view := episode_view;
       video_exists := exists_;
       expected_export_name := Scripts.expected_export_name (demo_id episode_view) |} in
  Ok {| seen_paths := seen; found_issues := found; lines := lines st ++ [record] |}.

Fixpoint check_views (path_exists : Py.Path -> bool)
    (episodes : list (string * H5.episode)) (st : progress)
    (views : list EpisodeView) : result progress :=
  match views with
  | [] => Ok st
  | v :: rest =>
      st' <- check_view path_exists episodes st v ;;
      check_views path_exists episodes st' rest
  end.

(** [main], from the opening of the HDF5 file on.  The number of missing
    video files is counted on the manifest lines that say that the video
    does not exist. *)
Definition validate_transfer (rt : runtime) (path_exists : Py.Path -> bool)
    (h5_file : H5.File) (video_root : Py.Path) : result report :=
  _ <- assert_required_structure rt h5_file ;;
  episodes <- get_episode_group h5_file ;;
  episode_views <- list_of (iter_episode_views rt h5_file video_root) ;;
  st <- check_views path_exists episodes
          {| seen_paths := []; found_issues := []; lines := [] |} episode_views ;;
  Ok {| episodes_total := List.length episode_views;
        issue_records := found_issues st;
        manifest := lines st;
        all_video_paths := seen_paths st;
        missing_video_files :=
          List.length (filter (fun r => negb (video_exists r)) (lines st)) |}.

(** The script ends with [SystemExit(1)] when there is an issue record. *)
Definition validation_passed (r : report) : bool :=
  match issue_records r with
  | [] => true
  | _ :: _ => false
  end.

End ValidateTransfer.

(* ================================================================== *)
(** ** scripts/02_export_mp4_from_hdf5.py *)

Module ExportMp4.
Import Obj Adapter.

(** One call of ffmpeg, by what varies in its command line. *)
Record clip : Type := {
  clip_input : Py.Path;
  clip_output : Py.Path;
  clip_start : Np.scalar;
  clip_duration : Np.scalar;
  clip_fps : Np.scalar
}.

(** What the script sees of the machine, for a state of the machine of
    type [W]: whether a path exists, the checksum of a file, and what
    running ffmpeg does, which is to end normally or with
    [CalledProcessError] and to leave the machine in a new state.  The
    ffmpeg binary is taken to be there: a missing binary is another
    exception, which the script does not catch. *)
Record system (W : Type) : Type := {
  path_exists : W -> Py.Path -> bool;
  run_ffmpeg : W -> clip -> bool * W;
  sha256_file : W -> Py.Path -> string
}.
Arguments path_exists {W}.
Arguments run_ffmpeg {W}.
Arguments sha256_file {W}.

Record export_args : Type := {
  output_dir : Py.Path;
  max_episodes : option Z;
  overwrite : bool;
  dry_run : bool
}.

Inductive status : Type := Exported | MissingSource | SkippedExisting | Failed.

Record row : Type := {
  row_view : EpisodeView;
  output_video_name : string;
  output_video_path : Py.Path;
  camera_key : string;
  row_status : status
}.

Record tally : Type := {
  source_videos : list string;          (* a set *)
  exported_count : nat;
  skipped_existing : nat;
  missing_sources : nat;
  failed_exports : nat;
  manifest_rows : list row;
  checksums : list (string * string)
}.

(** [x <= 0] *)
Definition le0 (x : Np.scalar) : bool :=
  match x with
  | Np.Finite q => Qle_bool q 0
  | Np.NegInf => true
  | Np.PosInf | Np.NaN => false
  end.

(** [max(0.0, x)]: the second argument only when it is the greater *)
Definition max0 (x : Np.scalar) : Np.scalar :=
  if Np.lt (Np.Finite 0) x then x else Np.Finite 0.

Section Machine.
Context {W : Type} (sys : system W).

(** Clip one episode video segment with deterministic re-encode: [true]
    when ffmpeg ran and ended normally, [false] when
    [CalledProcessError] is raised, by ffmpeg or before it is run. *)
Definition clip_video_ffmpeg (w : W) (input_video output_video : Py.Path)
    (start_sec end_sec fps : Np.scalar) : bool * W :=
  let duration := max0 (Np.sub end_sec start_sec) in
  if le0 duration then (false, w)
  else run_ffmpeg sys w
         {| clip_input := input_video; clip_output := output_video;
            clip_start := start_sec; clip_duration := duration; clip_fps := fps |}.

(** The body of the loop of [main]. *)
Definition export_view (args : export_args) (st : W * tally) (view : EpisodeView)
  : W * tally :=
  let '(w, t) := st in
  let sources :=
    ValidateTransfer.set_add (PyMore.str_of_path (video_path_resolved view))
      (source_videos t) in
  let camera := Names.infer_camera_key (video_path_hdf5 view) in
  let output_name := Scripts.output_name (demo_id view) camera in
  let output_path := Py.joinpath (output_dir args) output_name in
  let '(w', st') :=
    if negb (path_exists sys w (video_path_resolved view)) then (w, MissingSource)
    else if path_exists sys w output_path && negb (overwrite args)
    then (w, SkippedExisting)
    else if negb (dry_run args) then
      let '(ok, w1) :=
        clip_video_ffmpeg w (video_path_resolved view) output_path
          (from_timestamp view) (to_timestamp view) (fps view) in
      (w1, if ok then Exported else Failed)
    else (w, Exported) in
  let r := {| row_view := view; output_video_name := output_name;
              output_video_path := output_path; camera_key := camera;
              row_status := st' |} in
  let sums :=
    if match st' with Exported | SkippedExisting => true | _ => false end
       && path_exists sys w' output_path && negb (dry_run args)
    then checksums t ++ [(sha256_file sys w' output_path, PyMore.name output_path)]
    else checksums t in
  (w',
   {| source_videos := sources;
      exported_count :=
        match st' with Exported => S (exported_count t) | _ => exported_count t end;
      skipped_existing :=
        match st' with SkippedExisting => S (skipped_existing t) | _ => skipped_existing t end;
      missing_sources :=
        match st' with MissingSource => S (missing_sources t) | _ => missing_sources t end;
      failed_exports :=
        match st' with Failed => S (failed_exports t) | _ => failed_exports t end;
      manifest_rows := manifest_rows t ++ [r];
      checksums := sums |}).

Definition empty_tally : tally :=
  {| source_videos := []; exported_count := 0; skipped_existing := 0;
     missing_sources := 0; failed_exports := 0; manifest_rows := [];
     checksums := [] |}.

(** The episodes that [main] goes through. *)
Definition considered (args : export_args) (episodes : list EpisodeView)
  : list EpisodeView :=
  match max_episodes args with
  | Some n => PyMore.slice_to n episodes
  | None => episodes
  end.

(** [main], from the opening of the HDF5 file to the end of the loop. *)
Definition export_episodes (rt : runtime) (args : export_args) (w : W)
    (h5_file : H5.File) (video_root : Py.Path) : result (W * tally) :=
  _ <- assert_required_structure rt h5_file ;;
  episodes <- ValidateTransfer.list_of (iter_episode_views rt h5_file video_root) ;;
  Ok (fold_left (export_view args) (considered args episodes) (w, empty_tally)).

End Machine.

(** The script ends with [SystemExit(1)] when a source was missing or an
    export failed. *)
Definition export_failed (t : tally) : bool :=
  (0 <? missing_sources t)%nat || (0 <? failed_exports t)%nat.

End ExportMp4.

(* ================================================================== *)
(** ** scripts/03_run_transfer.py *)

Module RunTransfer.
Import PyMore Names.

(** [c.isspace()] on ASCII: what [strip()] removes *)
Definition is_space (c : ascii) : bool :=
  let n := nat_of_ascii c in
  ((9 <=? n)%nat && (n <=? 13)%nat) || ((28 <=? n)%nat && (n <=? 32)%nat).

Fixpoint lstrip (s : string) : string :=
  match s with
  | String c t => if is_space c then lstrip t else s
  | EmptyString => s
  end.

Fixpoint rstrip (s : string) : string :=
  match s with
  | EmptyString => EmptyString
  | String c t =>
      match rstrip t with
      | EmptyString => if is_space c then EmptyString else String c EmptyString
      | r => String c r
      end
  end.

(** [s.strip()] *)
Definition strip (s : string) : string := rstrip (lstrip s).

(** [s.split(sep)] for a separator of one character; [cur] is the piece
    being read. *)
Fixpoint split_on (sep : ascii) (cur : string) (s : string) : list string :=
  match s with
  | EmptyString => [cur]
  | String c t =>
      if Ascii.eqb c sep then cur :: split_on sep EmptyString t
      else split_on sep (cur ++ String c EmptyString) t
  end.

(** [[value.strip() for value in text.split(",") if value.strip()]] *)
Definition stripped_values (text : string) : list string :=
  filter (fun v => negb (String.eqb v EmptyString))
    (map strip (split_on "," EmptyString text)).

Record transfer_args : Type := {
  input_videos_dir : Py.Path;
  variants_per_demo : Z;
  base_seed : Z;
  prompt_profiles : string
}.

(** A line of transfer_jobs.jsonl, without the fields that name the run
    directory. *)
Record job_record : Type := {
  job_id : string;
  demo_id : Z;
  variant_idx : Z;
  camera_key : string;
  seed : Z;
  prompt_profile : string;
  input_video : string;
  expected_output_video : string
}.

(** A line of transfer_expected_outputs.jsonl. *)
Record expected_record : Type := {
  expected_job_id : string;
  expected_demo_id : Z;
  expected_variant_idx : Z;
  expected_output_filename : string;
  expected_video : string
}.

Record bundle : Type := {
  job_lines : list job_record;
  expected_lines : list expected_record;
  checksum_lines : list string;
  unique_demo_ids : list Z;             (* a set *)
  next_job_id : Z
}.

(** [s.add(x)] on a set of integers kept as a list without repetition *)
Definition set_add (x : Z) (s : list Z) : list Z :=
  if existsb (Z.eqb x) s then s else s ++ [x].

(** [args.base_seed + demo_id * 1000 + variant_idx] *)
Definition seed_of (base demo variant : Z) : Z := base + demo * 1000 + variant.

(** [f"job_{job_id:06d}"] *)
Definition job_name (n : Z) : string := "job_" ++ format_d 6 n.

(** The body of the loop over the variants of one video. *)
Definition add_variant (a : transfer_args) (profiles : list string)
    (video_path : Py.Path) (demo : Z) (camera : string)
    (b : bundle) (variant : Z) : bundle :=
  let profile :=
    nth (Z.to_nat (variant mod Z.of_nat (List.length profiles))) profiles EmptyString in
  let output_name := variant_output_name demo variant camera in
  let output_video :=
    str_of_path (Py.joinpath (Py.path_of_str "data/videos/augmented") output_name) in
  let job :=
    {| job_id := job_name (next_job_id b);
       demo_id := demo;
       variant_idx := variant;
       camera_key := camera;
       seed := seed_of (base_seed a) demo variant;
       prompt_profile := profile;
       input_video := str_of_path video_path;
       expected_output_video := output_video |} in
  let expected :=
    {| expected_job_id := job_name (next_job_id b);
       expected_demo_id := demo;
       expected_variant_idx := variant;
       expected_output_filename := output_name;
       expected_video := output_video |} in
  {| job_lines := job_lines b ++ [job];
     expected_lines := expected_lines b ++ [expected];
     checksum_lines := checksum_lines b;
     unique_demo_ids := unique_demo_ids b;
     next_job_id := next_job_id b + 1 |}.

(** The body of the loop over the videos; [video_name] is the name of a
    file of the input directory. *)
Definition add_video (sha256_file : Py.Path -> string) (a : transfer_args)
    (profiles : list string) (b : bundle) (video_name : string) : bundle :=
  match parse_demo_filename video_name with
  | None => b
  | Some (demo, camera) =>
      let video_path := Py.joinpath (input_videos_dir a) video_name in
      let b1 :=
        {| job_lines := job_lines b;
           expected_lines := expected_lines b;
           checksum_lines :=
             checksum_lines b ++ [(sha256_file video_path ++ "  " ++ video_name)%string];
           unique_demo_ids := set_add demo (unique_demo_ids b);
           next_job_id := next_job_id b |} in
      fold_left (add_variant a profiles video_path demo camera)
        (range (variants_per_demo a)) b1
  end.

(** The ways in which [main] ends with [SystemExit]. *)
Inductive stop : Type :=
| VariantsBelowOne
| NoVideosFound
| NoPromptProfiles
| NoNameMatched.

(** [main], up to the writing of the bundle; [input_videos] are the names
    of the files that the glob finds, sorted. *)
Definition build_bundle (sha256_file : Py.Path -> string) (a : transfer_args)
    (input_videos : list string) : stop + bundle :=
  if variants_per_demo a <? 1 then inl VariantsBelowOne
  else
    match input_videos with
    | [] => inl NoVideosFound
    | _ :: _ =>
        let profiles := stripped_values (prompt_profiles a) in
        match profiles with
        | [] => inl NoPromptProfiles
        | _ :: _ =>
            let b :=
              fold_left (add_video sha256_file a profiles) input_videos
                {| job_lines := []; expected_lines := []; checksum_lines := [];
                   unique_demo_ids := []; next_job_id := 0 |} in
            match job_lines b with
            | [] => inl NoNameMatched
            | _ :: _ => inr b
            end
        end
    end.

End RunTransfer.

(* ================================================================== *)
(** ** scripts/01_lerobot_to_hdf5.py *)

Module Promote.

Section Hashing.
(** SHA-256 of a sequence of bytes, in hexadecimal. *)
Variable sha256 : list byte -> string.

(** The loop of [sha256_file]: [handle] is what is left to read and
    [digest] what the digest has been updated with; [fuel] bounds the
    number of reads. *)
Fixpoint read_chunks (fuel chunk_size : nat) (handle digest : list byte)
  : option (list byte) :=
  match fuel with
  | O => None
  | S fuel' =>
      match firstn chunk_size handle with
      | [] => Some digest
      | chunk =>
          read_chunks fuel' chunk_size (skipn chunk_size handle) (digest ++ chunk)
      end
  end.

(** [sha256_file] of a file of the given content, read by chunks of
    1024 * 1024 bytes. *)
Definition sha256_file (content : list byte) : option string :=
  option_map sha256
    (read_chunks (S (List.length content)) (N.to_nat (1024 * 1024)) content []).

(** The files, by path. *)
Definition files : Type := Py.Path -> option (list byte).

Definition path_eqb (p q : Py.Path) : bool :=
  String.eqb (Py.anchor p) (Py.anchor q)
  && if list_eq_dec string_dec (Py.parts p) (Py.parts q) then true else false.

(** Writing a file, or replacing it. *)
Definition write (fs : files) (p : Py.Path) (content : list byte) : files :=
  fun q => if path_eqb q p then Some content else fs q.

Record promote_args : Type := {
  incoming_hdf5 : Py.Path;
  canonical_hdf5 : Py.Path;
  meta_out : Py.Path;
  force : bool
}.

Record meta : Type := {
  source_size_bytes : nat;
  source_sha256 : string;
  canonical_sha256 : string;
  content_match : bool
}.

(** The ways in which [main] ends with [SystemExit]. *)
Inductive stop : Type :=
| MissingIncoming
| TargetDiffers.

(** [main]: [None] when a hashing loop runs out of fuel, else the files
    and the metadata at the end, or the [SystemExit].  [render] is the
    text of the metadata file. *)
Definition promote (render : meta -> list byte) (args : promote_args)
    (fs : files) : option (stop + files * meta) :=
  match fs (incoming_hdf5 args) with
  | None => Some (inl MissingIncoming)
  | Some source =>
      match sha256_file source with
      | None => None
      | Some source_hash =>
          let copied := write fs (canonical_hdf5 args) source in
          let after : option (option files) :=
            match fs (canonical_hdf5 args) with
            | Some target =>
                match sha256_file target with
                | None => None
                | Some target_hash =>
                    if String.eqb target_hash source_hash then Some (Some fs)
                    else if negb (force args) then Some None
                    else Some (Some copied)
                end
            | None => Some (Some copied)
            end in
          match after with
          | None => None
          | Some None => Some (inl TargetDiffers)
          | Some (Some fs1) =>
              match fs1 (canonical_hdf5 args) with
              | None => None
              | Some canonical =>
                  match sha256_file canonical with
                  | None => None
                  | Some canonical_hash =>
                      let m :=
                        {| source_size_bytes := List.length source;
                           source_sha256 := source_hash;
                           canonical_sha256 := canonical_hash;
                           content_match := String.eqb source_hash canonical_hash |} in
                      Some (inr (write fs1 (meta_out args) (render m), m))
                  end
              end
          end
      end
  end.

End Hashing.
End Promote.

(* ================================================================== *)
(** ** scripts/06_run_reason_labels.py *)

Module ReasonLabels.
Import PyMore.

(** A row of the manifest of the validation stage, by the fields that
    this script reads; a field is [None] when the row has no such key. *)
Record manifest_row : Type := {
  row_demo_id : Z;
  row_task_text : option string;
  row_expected_export_name : option string;
  row_video_path_resolved : option string
}.

(** Prefer exported per-demo path, fallback to resolved source path. *)
Definition _resolve_original_video_path (row : manifest_row) : string :=
  match row_expected_export_name row with
  | Some (String c t) =>
      str_of_path (Py.joinpath (Py.path_of_str "data/videos/original") (String c t))
  | _ =>
      match row_video_path_resolved row with
      | Some s => s
      | None => EmptyString
      end
  end.

(** The manifest line that the validation stage writes, read back. *)
Definition row_of_record (r : ValidateTransfer.manifest_record) : manifest_row :=
  let view := ValidateTransfer.record_view r in
  {| row_demo_id := Adapter.demo_id view;
     row_task_text := Some (Adapter.task_text view);
     row_expected_export_name := Some (ValidateTransfer.expected_export_name r);
     row_video_path_resolved :=
       Some (str_of_path (Adapter.video_path_resolved view)) |}.

(** A dict of task texts by demo id, as a list of bindings. *)
Definition dict_get (k : Z) (d : list (Z * string)) : option string :=
  option_map snd (find (fun p => Z.eqb (fst p) k) d).

Definition dict_set (k : Z) (v : string) (d : list (Z * string)) : list (Z * string) :=
  if existsb (fun p => Z.eqb (fst p) k) d
  then map (fun p => if Z.eqb (fst p) k then (k, v) else p) d
  else d ++ [(k, v)].

(** The lookup that [main] builds for carrying over task text. *)
Definition task_table (original_records : list manifest_row) : list (Z * string) :=
  fold_left
    (fun d row =>
       dict_set (row_demo_id row)
         (match row_task_text row with Some s => s | None => EmptyString end) d)
    original_records [].

(** The distinct values of a list, in the order of their first
    occurrence: the keys of a dict filled in that order. *)
Fixpoint distinct (l : list string) : list string :=
  match l with
  | [] => []
  | x :: t => x :: filter (fun y => negb (String.eqb x y)) (distinct t)
  end.

(** The items at the given positions. *)
Definition pick {A} (population : list A) (positions : list nat) : list A :=
  flat_map (fun i => match nth_error population i with
                     | Some x => [x]
                     | None => []
                     end) positions.

(** The exceptions that can end the sampling. *)
Inductive failure : Type :=
| CeilOfNonFinite          (* math.ceil of a NaN or an infinity *)
| SampleOutOfRange.        (* Sample larger than population or is negative *)

Inductive outcome (A : Type) : Type :=
| Returned (a : A)
| Failed (why : failure).
Arguments Returned {A}.
Arguments Failed {A}.

(** [(int(row["demo_id"]), int(row["variant_idx"]))] compared as tuples *)
Definition key_leb (a b : RunTransfer.job_record) : bool :=
  (RunTransfer.demo_id a <? RunTransfer.demo_id b)
  || ((RunTransfer.demo_id a =? RunTransfer.demo_id b)
      && (RunTransfer.variant_idx a <=? RunTransfer.variant_idx b)).

Section Sampler.
(** Ratios are values of a type [R] of floats, random generators have
    their states in [G]. *)
Context {R G : Type}.

(** What the sampler uses of floats and of the generator: the test
    [ratio <= 0]; [math.ceil(n * ratio)], [None] when it raises; and the
    positions that [rng.sample] picks in a population of [n] items when
    asked for [k] of them, with the next state of the generator. *)
Record chance : Type := {
  not_positive : R -> bool;
  ceil_times : nat -> R -> option Z;
  choose : G -> nat -> nat -> list nat * G
}.

Variable c : chance.

(** [rng.sample(population, k)] *)
Definition sample {A} (g : G) (population : list A) (k : Z)
  : outcome (list A * G) :=
  if (k <? 0) || (Z.of_nat (List.length population) <? k) then Failed SampleOutOfRange
  else
    let '(positions, g') := choose c g (List.length population) (Z.to_nat k) in
    Returned (pick population positions, g').

(** The loop over the groups. *)
Fixpoint sample_groups (ratio : R) (g : G)
    (groups : list (list RunTransfer.job_record))
  : outcome (list RunTransfer.job_record * G) :=
  match groups with
  | [] => Returned ([], g)
  | group :: rest =>
      match ceil_times c (List.length group) ratio with
      | None => Failed CeilOfNonFinite
      | Some x =>
          let k := Z.max 1 x in
          let k := Z.min k (Z.of_nat (List.length group)) in
          match sample g group k with
          | Failed e => Failed e
          | Returned (picked, g1) =>
              match sample_groups ratio g1 rest with
              | Failed e => Failed e
              | Returned (sampled, g2) => Returned (picked ++ sampled, g2)
              end
          end
      end
  end.

(** [task_by_demo_id.get(demo_id, "<unknown>")] *)
Definition task_of (task_by_demo_id : list (Z * string))
    (job : RunTransfer.job_record) : string :=
  match dict_get (RunTransfer.demo_id job) task_by_demo_id with
  | Some t => t
  | None => "<unknown>"
  end.

(** The groups, in the sorted order of their task texts. *)
Definition grouped (task_by_demo_id : list (Z * string))
    (jobs : list RunTransfer.job_record) : list (list RunTransfer.job_record) :=
  map (fun task_text =>
         filter (fun job => String.eqb (task_of task_by_demo_id job) task_text) jobs)
    (sorted_by String.leb (distinct (map (task_of task_by_demo_id) jobs))).

(** Stratified sampling by task text; deterministic via seeded RNG. *)
Definition _sample_augmented_jobs (jobs : list RunTransfer.job_record)
    (task_by_demo_id : list (Z * string)) (ratio : R) (max_items : option Z)
    (g : G) : outcome (list RunTransfer.job_record * G) :=
  if not_positive c ratio || match jobs with [] => true | _ :: _ => false end
  then Returned ([], g)
  else
    match sample_groups ratio g (grouped task_by_demo_id jobs) with
    | Failed e => Failed e
    | Returned (sampled, g1) =>
        let capped :=
          match max_items with
          | Some m =>
              if m <? Z.of_nat (List.length sampled) then sample g1 sampled m
              else Returned (sampled, g1)
          | None => Returned (sampled, g1)
          end in
        match capped with
        | Failed e => Failed e
        | Returned (sampled', g2) => Returned (sorted_by key_leb sampled', g2)
        end
    end.

End Sampler.
End ReasonLabels.

(* ================================================================== *)
(** ** What the stages are checked against *)

Module StageRules.
Import Obj Adapter ExportMp4.

(** An episode without issue whose video is there. *)
Definition clean (path_exists : Py.Path -> bool)
    (episodes : list (string * H5.episode)) (v : EpisodeView) : Prop :=
  path_exists (video_path_resolved v) = true
  /\ exists episode,
       H5.member episodes (episode_key v) = Ok episode
       /\ validate_episode_arrays episode = Ok [].

(** The number of rows of a status. *)
Definition count_status (s : status) (rows : list row) : nat :=
  List.length (filter (fun r => match row_status r, s with
                                | Exported, Exported | MissingSource, MissingSource
                                | SkippedExisting, SkippedExisting | Failed, Failed => true
                                | _, _ => false
                                end) rows).

(** What the loop keeps true of its counters. *)
Definition counted (t : tally) : Prop :=
  exported_count t = count_status Exported (manifest_rows t)
  /\ skipped_existing t = count_status SkippedExisting (manifest_rows t)
  /\ missing_sources t = count_status MissingSource (manifest_rows t)
  /\ failed_exports t = count_status Failed (manifest_rows t)
  /\ (List.length (checksums t) <= exported_count t + skipped_existing t)%nat.

(** How the export names a row. *)
Definition row_named (args : export_args) (r : row) : Prop :=
  camera_key r = Names.infer_camera_key (video_path_hdf5 (row_view r))
  /\ output_video_name r = Scripts.output_name (demo_id (row_view r)) (camera_key r)
  /\ output_video_path r = Py.joinpath (output_dir args) (output_video_name r).

(** What identifies a transfer job. *)
Definition job_key (j : RunTransfer.job_record) : Z * Z * string :=
  (RunTransfer.demo_id j, RunTransfer.variant_idx j, RunTransfer.camera_key j).

(** The demo ids and camera keys of the names that match the pattern, in
    the order of the names. *)
Definition matched (input_videos : list string) : list (Z * string) :=
  flat_map (fun name => match Names.parse_demo_filename name with
                        | Some p => [p]
                        | None => []
                        end) input_videos.

(** The jobs that a list of matched names calls for: every variant of the
    first, then every variant of the second, and so on. *)
Definition wanted_jobs (variants : Z) (l : list (Z * string)) : list (Z * Z * string) :=
  flat_map (fun p => map (fun v => (fst p, v, snd p)) (PyMore.range variants)) l.

(** What holds of every job of a bundle. *)
Definition job_ok (a : RunTransfer.transfer_args) (profiles : list string)
    (j : RunTransfer.job_record) : Prop :=
  RunTransfer.seed j
  = RunTransfer.base_seed a + 1000 * RunTransfer.demo_id j + RunTransfer.variant_idx j
  /\ 0 <= RunTransfer.demo_id j
  /\ 0 <= RunTransfer.variant_idx j < RunTransfer.variants_per_demo a
  /\ nth_error profiles
       (Z.to_nat (RunTransfer.variant_idx j mod Z.of_nat (List.length profiles)))
     = Some (RunTransfer.prompt_profile j).

(** What the loops of the transfer script keep true of the bundle. *)
Definition bundle_ok (a : RunTransfer.transfer_args) (profiles : list string)
    (b : RunTransfer.bundle) (seen : list (Z * string)) : Prop :=
  map job_key (RunTransfer.job_lines b)
  = wanted_jobs (RunTransfer.variants_per_demo a) seen
  /\ RunTransfer.next_job_id b = Z.of_nat (List.length (RunTransfer.job_lines b))
  /\ map RunTransfer.job_id (RunTransfer.job_lines b)
     = map RunTransfer.job_name (PyMore.range (RunTransfer.next_job_id b))
  /\ map (fun e => (RunTransfer.expected_job_id e, RunTransfer.expected_output_filename e))
       (RunTransfer.expected_lines b)
     = map (fun j => (RunTransfer.job_id j,
                      Names.variant_output_name (RunTransfer.demo_id j)
                        (RunTransfer.variant_idx j) (RunTransfer.camera_key j)))
         (RunTransfer.job_lines b)
  /\ List.length (RunTransfer.checksum_lines b) = List.length seen
  /\ NoDup (RunTransfer.unique_demo_ids b)
  /\ (forall d, In d (RunTransfer.unique_demo_ids b) <-> In d (map fst seen))
  /\ Forall (job_ok a profiles) (RunTransfer.job_lines b).

(** What the sampler relies on in [rng.sample]: asked for [k] items of a
    population of [n], with [k <= n], it picks [k] positions of the
    population, no position twice. *)
Definition picks_positions {R G : Type} (c : @ReasonLabels.chance R G) : Prop :=
  forall (g : G) (n k : nat),
    (k <= n)%nat ->
    NoDup (fst (ReasonLabels.choose c g n k))
    /\ Forall (fun i => (i < n)%nat) (fst (ReasonLabels.choose c g n k))
    /\ List.length (fst (ReasonLabels.choose c g n k)) = k.

(** The order of the sort keys of two jobs. *)
Definition key_le (a b : RunTransfer.job_record) : Prop :=
  RunTransfer.demo_id a < RunTransfer.demo_id b
  \/ (RunTransfer.demo_id a = RunTransfer.demo_id b
      /\ RunTransfer.variant_idx a <= RunTransfer.variant_idx b).

(** The last row of a demo id, if there is one. *)
Definition last_row (d : Z) (rows : list ReasonLabels.manifest_row)
  : option ReasonLabels.manifest_row :=
  find (fun r => Z.eqb (ReasonLabels.row_demo_id r) d) (rev rows).

End StageRules.

(* ================================================================== *)
(** ** More sample data *)

Module MoreSamples.
Import Obj Adapter Sample.

(** Three steps of a five-column action array. *)
Definition five_column_episode : H5.episode :=
  episode_of (matrix 3 5 (fin 0)) (matrix 3 7 (fin 1)) (matrix 3 7 (fin 1))
    (steps [0; 1; 2]) (steps [0; 1; 2])
    "pick the cube" "videos/a.mp4".

Definition five_column_arrays : arrays :=
  {| delta_eef := matrix 3 5 (fin 0);
     proprio := matrix 3 7 (fin 1);
     eef_pose := matrix 3 7 (fin 1);
     frame_index := steps [0; 1; 2];
     timestamps := steps [0; 1; 2] |}.

(** A file system where every path exists. *)
Definition always_there : Py.Path -> bool := fun _ => true.

(** A machine whose state is the number of runs of ffmpeg so far; every
    path exists on it and ffmpeg always ends normally. *)
Definition counting_system : ExportMp4.system nat :=
  {| ExportMp4.path_exists := fun _ _ => true;
     ExportMp4.run_ffmpeg := fun w _ => (true, S w);
     ExportMp4.sha256_file := fun _ _ => "e3b0c442" |}.

Definition overwrite_args : ExportMp4.export_args :=
  {| ExportMp4.output_dir := Py.path_of_str "data/videos/original";
     ExportMp4.max_episodes := Some (-1);
     ExportMp4.overwrite := true;
     ExportMp4.dry_run := false |}.

Definition dry_run_args : ExportMp4.export_args :=
  {| ExportMp4.output_dir := Py.path_of_str "data/videos/original";
     ExportMp4.max_episodes := None;
     ExportMp4.overwrite := true;
     ExportMp4.dry_run := true |}.

(** Two variants for each video, two profiles. *)
Definition transfer_sample : RunTransfer.transfer_args :=
  {| RunTransfer.input_videos_dir := Py.path_of_str "data/videos/original";
     RunTransfer.variants_per_demo := 2;
     RunTransfer.base_seed := 1000;
     RunTransfer.prompt_profiles := "lighting, texture ,," |}.

Definition fixed_sha : Py.Path -> string := fun _ => "e3b0c442".

(** The files of the input directory: two exports and another file. *)
Definition video_names : list string :=
  ["demo_0000_front.mp4"; "demo_0001_wrist.mp4"; "notes.txt"].

(** The first job of the bundle for these. *)
Definition first_job : RunTransfer.job_record :=
  {| RunTransfer.job_id := "job_000000";
     RunTransfer.demo_id := 0;
     RunTransfer.variant_idx := 0;
     RunTransfer.camera_key := "front";
     RunTransfer.seed := 1000;
     RunTransfer.prompt_profile := "lighting";
     RunTransfer.input_video := "data/videos/original/demo_0000_front.mp4";
     RunTransfer.expected_output_video :=
       "data/videos/augmented/demo_0000_v00_front.mp4" |}.

(** A job of another demo, by its demo id and variant index. *)
Definition job_of (d v : Z) : RunTransfer.job_record :=
  {| RunTransfer.job_id := RunTransfer.job_name (2 * d + v);
     RunTransfer.demo_id := d;
     RunTransfer.variant_idx := v;
     RunTransfer.camera_key := "front";
     RunTransfer.seed := RunTransfer.seed_of 1000 d v;
     RunTransfer.prompt_profile := "lighting";
     RunTransfer.input_video := "data/videos/original/demo_0000_front.mp4";
     RunTransfer.expected_output_video :=
       "data/videos/augmented/" ++ Names.variant_output_name d v "front" |}.

Definition four_jobs : list RunTransfer.job_record :=
  [job_of 1 1; job_of 0 0; job_of 1 0; job_of 0 1].

Definition two_tasks : list (Z * string) := [(0, "pick"); (1, "place")].

(** A stand-in for the generator and the floats: ratios are integers,
    the generator counts its calls and picks the first positions. *)
Definition first_positions : @ReasonLabels.chance Z nat :=
  {| ReasonLabels.not_positive := fun r => r <=? 0;
     ReasonLabels.ceil_times := fun n r => Some (Z.of_nat n * r);
     ReasonLabels.choose := fun g n k => (seq 0 k, S g) |}.

(** A stand-in for SHA-256: the bytes themselves. *)
Definition plain_sha : list byte -> string := string_of_list_byte.

Definition incoming_file : Py.Path := Py.path_of_str "data/incoming/so101.hdf5".
Definition canonical_file : Py.Path := Py.path_of_str "data/canonical/so101.hdf5".

Definition promote_sample : Promote.promote_args :=
  {| Promote.incoming_hdf5 := incoming_file;
     Promote.canonical_hdf5 := canonical_file;
     Promote.meta_out := Py.path_of_str "data/canonical/so101.meta.json";
     Promote.force := false |}.

(** Only the incoming file is there. *)
Definition incoming_only : Promote.files :=
  fun p => if Promote.path_eqb p incoming_file then Some [x01; x02] else None.

Definition no_text : Promote.meta -> list byte := fun _ => [].

Definition front_row : ReasonLabels.manifest_row :=
  {| ReasonLabels.row_demo_id := 0;
     ReasonLabels.row_task_text := Some "pick";
     ReasonLabels.row_expected_export_name := Some "demo_0000_front.mp4";
     ReasonLabels.row_video_path_resolved :=
       Some "data/videos/incoming/chunk-000/observation.images.wrist/episode_000000.mp4" |}.

(** The report of the validation stage on the two demos, all videos
    being there. *)
Definition two_demos_report : ValidateTransfer.report :=
  Eval vm_compute in
    match ValidateTransfer.validate_transfer Sample.rt always_there Sample.two_demos
            Sample.video_root with
    | Ok r => r
    | Raise _ =>
        {| ValidateTransfer.episodes_total := 0;
           ValidateTransfer.issue_records := [];
           ValidateTransfer.manifest := [];
           ValidateTransfer.all_video_paths := [];
           ValidateTransfer.missing_video_files := 0 |}
    end.

(** The bundle for the three file names. *)
Definition two_video_bundle : RunTransfer.bundle :=
  Eval vm_compute in
    match RunTransfer.build_bundle fixed_sha transfer_sample video_names with
    | inr b => b
    | inl _ =>
        {| RunTransfer.job_lines := []; RunTransfer.expected_lines := [];
           RunTransfer.checksum_lines := []; RunTransfer.unique_demo_ids := [];
           RunTransfer.next_job_id := 0 |}
    end.

(** Two exports of one demo, from two cameras, and the bundle for them. *)
Definition camera_names : list string :=
  ["demo_0000_front.mp4"; "demo_0000_wrist.mp4"].

Definition two_camera_bundle : RunTransfer.bundle :=
  Eval vm_compute in
    match RunTransfer.build_bundle fixed_sha transfer_sample camera_names with
    | inr b => b
    | inl _ =>
        {| RunTransfer.job_lines := []; RunTransfer.expected_lines := [];
           RunTransfer.checksum_lines := []; RunTransfer.unique_demo_ids := [];
           RunTransfer.next_job_id := 0 |}
    end.

(** The first job of the wrist camera in that bundle: the third job. *)
Definition wrist_job : RunTransfer.job_record :=
  {| RunTransfer.job_id := "job_000002";
     RunTransfer.demo_id := 0;
     RunTransfer.variant_idx := 0;
     RunTransfer.camera_key := "wrist";
     RunTransfer.seed := 1000;
     RunTransfer.prompt_profile := "lighting";
     RunTransfer.input_video := "data/videos/original/demo_0000_wrist.mp4";
     RunTransfer.expected_output_video :=
       "data/videos/augmented/demo_0000_v00_wrist.mp4" |}.

End MoreSamples.

(* ================================================================== *)
(** ** Facts about the Python layer *)

Module PyFacts.
Import Obj Rules.

(** *** Digits *)

Lemma numeral_iff (c : ascii) :
  In c numerals <-> existsb (Ascii.eqb c) numerals = true.
Proof.
  rewrite existsb_exists. split.
  - intros H. exists c. split; [exact H | apply Ascii.eqb_refl].
  - intros [d [Hd He]]. apply Ascii.eqb_eq in He. now subst d.
Qed.

Lemma is_ascii_digit_numeral (c : ascii) :
  Py.is_ascii_digit c = true <-> In c numerals.
Proof.
  rewrite numeral_iff.
  destruct c as [[] [] [] [] [] [] [] []]; vm_compute; split; congruence.
Qed.

Lemma digit_value_numeral (c : ascii) :
  Py.is_ascii_digit c = true -> Py.digit_value c = numeral_value c.
Proof.
  destruct c as [[] [] [] [] [] [] [] []]; vm_compute; congruence.
Qed.

Lemma numeral_value_bounds (c : ascii) : 0 <= numeral_value c <= 9.
Proof.
  destruct c as [[] [] [] [] [] [] [] []]; vm_compute; split; congruence.
Qed.

Lemma all_digits_Forall (s : string) :
  Py.all_digits s = true <->
  Forall (fun c => In c numerals) (list_ascii_of_string s).
Proof.
  induction s as [|c t IH]; simpl.
  - split; [constructor | reflexivity].
  - rewrite andb_true_iff, IH, is_ascii_digit_numeral. split.
    + intros [H1 H2]. now constructor.
    + intros H. inversion H; subst. now split.
Qed.

Lemma int_digits_value (s : string) : forall acc,
  Py.all_digits s = true ->
  Py.int_digits acc s = acc * 10 ^ Z.of_nat (String.length s) + decimal_value s.
Proof.
  induction s as [|c t IH]; intros acc H;
    cbn [Py.int_digits decimal_value String.length Py.all_digits] in H |- *.
  - change (10 ^ Z.of_nat 0) with 1. lia.
  - apply andb_true_iff in H as [Hc Ht].
    rewrite (IH _ Ht), (digit_value_numeral _ Hc).
    rewrite Nat2Z.inj_succ, Z.pow_succ_r by lia. ring.
Qed.

Lemma int_of_digits_value (s : string) :
  Py.all_digits s = true -> Py.int_of_digits s = decimal_value s.
Proof.
  intros H. unfold Py.int_of_digits. rewrite int_digits_value by exact H. lia.
Qed.

Lemma decimal_value_nonneg (s : string) : 0 <= decimal_value s.
Proof.
  induction s as [|c t IH]; cbn [decimal_value]; [lia|].
  pose proof (numeral_value_bounds c).
  assert (0 <= 10 ^ Z.of_nat (String.length t)) by (apply Z.pow_nonneg; lia).
  nia.
Qed.

(** A leading zero does not change the value. *)
Lemma decimal_value_zero (s : string) :
  decimal_value (String "0" s) = decimal_value s.
Proof. cbn [decimal_value numeral_value]. lia. Qed.

(** *** Characters, and digits of any script *)

Lemma chars_from_cur (c : ascii) (t : string) :
  Py.chars_from 0 (String c EmptyString) t = String c EmptyString :: Py.chars t.
Proof. destruct t; reflexivity. Qed.

Lemma chars_single_byte (c : ascii) (t : string) :
  Py.utf8_width c = 1%nat ->
  Py.chars (String c t) = String c EmptyString :: Py.chars t.
Proof.
  intros H. unfold Py.chars at 1. cbn [Py.chars_from]. rewrite H.
  apply chars_from_cur.
Qed.

(** The numerals 0 to 9 are decimal digits whatever the database says of
    the other characters. *)
Lemma numeral_char (db : string -> Py.digit_kind) (c : ascii) :
  In c numerals ->
  Py.utf8_width c = 1%nat
  /\ exists d, Py.char_kind db (String c EmptyString) = Py.DecimalDigit d
               /\ Py.digit_val d = numeral_value c.
Proof.
  intros H. apply numeral_iff in H.
  destruct c as [[] [] [] [] [] [] [] []]; vm_compute in H; try discriminate H;
    (split; [reflexivity | eexists; split; reflexivity]).
Qed.

Lemma chars_decimal (s : string) :
  Forall (fun c => In c numerals) (list_ascii_of_string s) ->
  Py.chars s = map (fun c => String c EmptyString) (list_ascii_of_string s).
Proof.
  induction s as [|c t IH]; intros H; [reflexivity|].
  cbn [list_ascii_of_string] in H. inversion H as [|? ? Hc Ht]; subst.
  destruct (numeral_char (fun _ => Py.NotDigit) c Hc) as [Hw _].
  rewrite (chars_single_byte _ _ Hw), (IH Ht). reflexivity.
Qed.

Lemma length_list_ascii (s : string) :
  List.length (list_ascii_of_string s) = String.length s.
Proof. induction s as [|c t IH]; simpl; [reflexivity | now rewrite IH]. Qed.

Lemma decimal_chars_value (rt : runtime) (s : string) :
  Forall (fun c => In c numerals) (list_ascii_of_string s) ->
  Forall (fun ch => char_value rt ch <> None)
    (map (fun c => String c EmptyString) (list_ascii_of_string s))
  /\ positional (map (value_or_zero rt)
                   (map (fun c => String c EmptyString) (list_ascii_of_string s)))
     = decimal_value s.
Proof.
  induction s as [|c t IH]; intros H; [split; [constructor | reflexivity]|].
  cbn [list_ascii_of_string] in H. inversion H as [|? ? Hc Ht]; subst.
  destruct (IH Ht) as [Hf Hv].
  destruct (numeral_char (unicode_digit rt) c Hc) as [_ [d [Hk Hd]]].
  cbn [list_ascii_of_string map positional decimal_value]. split.
  - constructor; [|exact Hf]. unfold char_value. rewrite Hk. discriminate.
  - rewrite Hv. unfold value_or_zero at 1, char_value. rewrite Hk, Hd.
    now rewrite !length_map, length_list_ascii.
Qed.

(** A string of the numerals 0 to 9 is a key of decimal digits, with the
    value the numerals denote. *)
Lemma is_decimal_key (rt : runtime) (s : string) :
  is_decimal s -> decimal_key rt s /\ key_value rt s = decimal_value s.
Proof.
  intros [Hne Hf]. unfold decimal_key, key_value.
  rewrite (chars_decimal _ Hf).
  destruct (decimal_chars_value rt s Hf) as [H1 H2].
  repeat split; [|exact H1 | exact H2].
  destruct s; [now elim Hne | discriminate].
Qed.

Lemma decimal_is_digit (rt : runtime) (key : string) :
  decimal_key rt key -> digit_key rt key.
Proof.
  intros [Hne Hf]. split; [exact Hne|].
  eapply Forall_impl; [|exact Hf]. intros ch H E. apply H.
  unfold char_value. now rewrite E.
Qed.

Lemma isdigit_digit_key (rt : runtime) (key : string) :
  Py.isdigit (unicode_digit rt) key = true <-> digit_key rt key.
Proof.
  unfold Py.isdigit, digit_key. destruct (Py.chars key) as [|ch l].
  - split; [discriminate | intros [H _]; now elim H].
  - rewrite forallb_forall, Forall_forall. split.
    + intros H. split; [discriminate|]. intros x Hx E.
      specialize (H x Hx). unfold Py.is_digit_char in H. rewrite E in H.
      discriminate H.
    + intros [_ H] x Hx. specialize (H x Hx). unfold Py.is_digit_char.
      destruct (Py.char_kind (unicode_digit rt) x); [now elim H | reflexivity..].
Qed.

Lemma int_chars_cases (rt : runtime) (l : list string) : forall acc,
  (Forall (fun ch => char_value rt ch <> None) l
   /\ Py.int_chars (unicode_digit rt) acc l
      = Ok (acc * 10 ^ Z.of_nat (List.length l)
            + positional (map (value_or_zero rt) l)))
  \/ (~ Forall (fun ch => char_value rt ch <> None) l
      /\ Py.int_chars (unicode_digit rt) acc l = Raise (ValueError IntLiteral)).
Proof.
  induction l as [|ch t IH]; intros acc.
  - left. split; [constructor|]. cbn. f_equal. lia.
  - cbn [Py.int_chars].
    destruct (Py.char_kind (unicode_digit rt) ch) as [| |d] eqn:K.
    + right. split; [|reflexivity]. intros H. inversion H as [|? ? Hc _]; subst.
      apply Hc. unfold char_value. now rewrite K.
    + right. split; [|reflexivity]. intros H. inversion H as [|? ? Hc _]; subst.
      apply Hc. unfold char_value. now rewrite K.
    + assert (Hv : value_or_zero rt ch = Py.digit_val d)
        by (unfold value_or_zero, char_value; now rewrite K).
      destruct (IH (10 * acc + Py.digit_val d)) as [[Hf He]|[Hn He]].
      * left. split.
        -- constructor; [|exact Hf]. unfold char_value. rewrite K. discriminate.
        -- rewrite He. cbn [map positional List.length]. rewrite Hv, length_map.
           f_equal. rewrite Nat2Z.inj_succ, Z.pow_succ_r by lia. ring.
      * right. split; [|exact He]. intros H. inversion H; subst. now apply Hn.
Qed.

Lemma decimal_key_dec (rt : runtime) (key : string) :
  decimal_key rt key \/ ~ decimal_key rt key.
Proof.
  unfold decimal_key. destruct (Py.chars key) as [|ch l] eqn:E.
  - right. intros [H _]. now elim H.
  - destruct (int_chars_cases rt (ch :: l) 0) as [[H _]|[H _]].
    + left. split; [discriminate | exact H].
    + right. intros [_ H']. now apply H.
Qed.

Lemma int_decimal_key (rt : runtime) (key : string) :
  decimal_key rt key -> Py.int (unicode_digit rt) key = Ok (key_value rt key).
Proof.
  unfold decimal_key, key_value, Py.int. intros [Hne Hf].
  destruct (Py.chars key) as [|ch l] eqn:E; [now elim Hne|].
  destruct (int_chars_cases rt (ch :: l) 0) as [[_ He]|[Hn _]]; [|now elim Hn].
  rewrite He. f_equal; lia.
Qed.

Lemma int_not_decimal (rt : runtime) (key : string) :
  ~ decimal_key rt key ->
  Py.int (unicode_digit rt) key = Raise (ValueError IntLiteral).
Proof.
  unfold decimal_key, Py.int. intros Hn.
  destruct (Py.chars key) as [|ch l] eqn:E; [reflexivity|].
  destruct (int_chars_cases rt (ch :: l) 0) as [[Hf _]|[_ He]]; [|exact He].
  elim Hn. split; [discriminate | exact Hf].
Qed.

Lemma decimal_key_int (rt : runtime) (key : string) :
  decimal_key rt key <-> exists z, Py.int (unicode_digit rt) key = Ok z.
Proof.
  split.
  - intros H. exists (key_value rt key). now apply int_decimal_key.
  - intros [z Hz]. destruct (decimal_key_dec rt key) as [H|H]; [exact H|].
    rewrite (int_not_decimal rt key H) in Hz. discriminate Hz.
Qed.

Lemma value_or_zero_bounds (rt : runtime) (ch : string) :
  0 <= value_or_zero rt ch <= 9.
Proof.
  unfold value_or_zero, char_value.
  destruct (Py.char_kind (unicode_digit rt) ch) as [| |[]]; cbn; lia.
Qed.

Lemma key_value_nonneg (rt : runtime) (key : string) : 0 <= key_value rt key.
Proof.
  unfold key_value. induction (Py.chars key) as [|ch l IH]; cbn [map positional]; [lia|].
  pose proof (value_or_zero_bounds rt ch).
  assert (0 <= 10 ^ Z.of_nat (List.length (map (value_or_zero rt) l)))
    by (apply Z.pow_nonneg; lia).
  nia.
Qed.

(** *** Stable sorting *)

Section SortedFacts.
Context {A : Type} (key : A -> Z).

Lemma insert_perm (x : A) (l : list A) :
  Permutation (Py.insert key x l) (x :: l).
Proof.
  induction l as [|y t IH]; simpl; [reflexivity|].
  destruct (key x <=? key y); [reflexivity|].
  rewrite IH. apply perm_swap.
Qed.

Lemma sorted_perm (l : list A) : Permutation (Py.sorted key l) l.
Proof.
  induction l as [|x t IH]; simpl; [reflexivity|].
  rewrite insert_perm. now constructor.
Qed.

Lemma insert_sorted (x : A) (l : list A) :
  StronglySorted (Py.key_le key) l -> StronglySorted (Py.key_le key) (Py.insert key x l).
Proof.
  induction l as [|y t IH]; intros H; simpl.
  - repeat constructor.
  - inversion H as [|? ? Ht Hy]; subst.
    destruct (key x <=? key y) eqn:E.
    + apply Z.leb_le in E. constructor; [exact H|].
      constructor; [exact E|].
      eapply Forall_impl; [|exact Hy]. unfold Py.key_le. intros; lia.
    + apply Z.leb_gt in E. constructor; [now apply IH|].
      eapply Permutation_Forall; [symmetry; apply insert_perm|].
      constructor; [unfold Py.key_le; lia | exact Hy].
Qed.

Lemma sorted_sorted (l : list A) : StronglySorted (Py.key_le key) (Py.sorted key l).
Proof.
  induction l as [|x t IH]; simpl; [constructor | now apply insert_sorted].
Qed.





End SortedFacts.

(** *** Sorting by a key that can raise *)

Section KeyedSort.
Context {A : Type} (key : A -> result Z).

Lemma insert_map (f : A -> Z) (x : A) (l : list A) :
  Py.insert fst (f x, x) (map (fun y => (f y, y)) l)
  = map (fun y => (f y, y)) (Py.insert f x l).
Proof.
  induction l as [|y t IH]; [reflexivity|].
  cbn [map Py.insert fst]. destruct (f x <=? f y); [reflexivity|].
  cbn [map]. now rewrite IH.
Qed.

Lemma sorted_map (f : A -> Z) (l : list A) :
  Py.sorted fst (map (fun y => (f y, y)) l) = map (fun y => (f y, y)) (Py.sorted f l).
Proof.
  induction l as [|x t IH]; [reflexivity|].
  cbn [map Py.sorted fold_right].
  change (fold_right (Py.insert fst) [] (map (fun y => (f y, y)) t))
    with (Py.sorted fst (map (fun y => (f y, y)) t)).
  rewrite IH. apply insert_map.
Qed.

Lemma keyed_total (f : A -> Z) (l : list A) :
  (forall x, In x l -> key x = Ok (f x)) ->
  Py.keyed key l = Ok (map (fun y => (f y, y)) l).
Proof.
  induction l as [|x t IH]; intros H; [reflexivity|].
  cbn [Py.keyed map]. rewrite (H x (or_introl eq_refl)). cbn [bind].
  rewrite IH by (intros y Hy; apply H; now right). reflexivity.
Qed.

(** When every key is computed, the result is the stable sort by the
    values of the keys. *)
Lemma sort_by_key_total (f : A -> Z) (l : list A) :
  (forall x, In x l -> key x = Ok (f x)) ->
  Py.sort_by_key key l = Ok (Py.sorted f l).
Proof.
  intros H. unfold Py.sort_by_key. rewrite (keyed_total f l H). cbn [bind].
  rewrite sorted_map, map_map. cbn [snd]. now rewrite map_id.
Qed.



Lemma keyed_ok (l : list A) (ks : list (Z * A)) :
  Py.keyed key l = Ok ks -> forall x, In x l -> exists k, key x = Ok k.
Proof.
  revert ks. induction l as [|y t IH]; intros ks H x Hx; [contradiction|].
  cbn [Py.keyed] in H. destruct (key y) as [k|] eqn:Ey; cbn [bind] in H; [|discriminate].
  destruct (Py.keyed key t) as [ks'|] eqn:Et; cbn [bind] in H; [|discriminate].
  destruct Hx as [<-|Hx]; [now exists k | exact (IH _ eq_refl x Hx)].
Qed.

Lemma sort_by_key_ok (l ordered : list A) :
  Py.sort_by_key key l = Ok ordered -> forall x, In x l -> exists k, key x = Ok k.
Proof.
  unfold Py.sort_by_key. destruct (Py.keyed key l) as [ks|] eqn:E; cbn [bind];
    [|discriminate].
  intros _. exact (keyed_ok _ _ E).
Qed.

Lemma keyed_snd (l : list A) (ks : list (Z * A)) :
  Py.keyed key l = Ok ks -> map snd ks = l.
Proof.
  revert ks. induction l as [|y t IH]; intros ks H.
  - now injection H as <-.
  - cbn [Py.keyed] in H. destruct (key y) as [k|]; cbn [bind] in H; [|discriminate].
    destruct (Py.keyed key t) as [ks'|]; cbn [bind] in H; [|discriminate].
    injection H as <-. cbn. now rewrite (IH ks').
Qed.

Lemma sort_by_key_perm (l ordered : list A) :
  Py.sort_by_key key l = Ok ordered -> Permutation ordered l.
Proof.
  unfold Py.sort_by_key. destruct (Py.keyed key l) as [ks|] eqn:E; cbn [bind];
    [|discriminate].
  intros [= <-]. rewrite <- (keyed_snd _ _ E).
  apply Permutation_map, sorted_perm.
Qed.

Lemma keyed_some_raise (l : list A) :
  (exists x e, In x l /\ key x = Raise e) -> exists e, Py.keyed key l = Raise e.
Proof.
  intros [x [e [Hx Ex]]]. destruct (Py.keyed key l) as [ks|e'] eqn:E; [|now exists e'].
  destruct (keyed_ok _ _ E x Hx) as [k Hk]. congruence.
Qed.
End KeyedSort.

(** *** Substrings *)

Lemma prefix_spec (p s : string) :
  prefix p s = true <-> exists rest, s = (p ++ rest)%string.
Proof.
  revert s. induction p as [|c p IH]; intros s.
  - split; [intros _; now exists s | now destruct s].
  - destruct s as [|d s]; simpl;
      [split; [discriminate | intros [r Hr]; discriminate]|].
    destruct (ascii_dec c d) as [->|Hn].
    + rewrite IH. split; intros [r Hr]; exists r; [now rewrite Hr | now inversion Hr].
    + split; [discriminate | intros [r Hr]; inversion Hr; congruence].
Qed.

Lemma drop_app (p rest : string) : Py.drop (String.length p) (p ++ rest) = rest.
Proof. induction p as [|c p IH]; simpl; [now destruct rest | exact IH]. Qed.

Lemma drop_prefix (p s rest : string) :
  s = (p ++ rest)%string -> Py.drop (String.length p) s = rest.
Proof. intros ->. apply drop_app. Qed.

Lemma contains_occurs (sep s : string) :
  Py.contains sep s = true <-> occurs sep s.
Proof.
  unfold occurs. induction s as [|c t IH]; cbn [Py.contains].
  - destruct (prefix sep EmptyString) eqn:E.
    + split; [intros _ | reflexivity].
      apply prefix_spec in E as [r Hr]. now exists EmptyString, r.
    + split; [discriminate|]. intros [a [b H]].
      destruct a; [|discriminate]. cbn [append] in H.
      assert (prefix sep EmptyString = true) by (apply prefix_spec; now exists b).
      congruence.
  - destruct (prefix sep (String c t)) eqn:E.
    + split; [intros _ | reflexivity].
      apply prefix_spec in E as [r Hr]. now exists EmptyString, r.
    + rewrite IH. split.
      * intros [a [b H]]. exists (String c a), b. cbn [append]. now rewrite H.
      * intros [a [b H]]. destruct a as [|d a]; cbn [append] in H.
        -- assert (prefix sep (String c t) = true) by (apply prefix_spec; now exists b).
           congruence.
        -- inversion H. now exists a, b.
Qed.

(** [split1] cuts at the first occurrence. *)
Lemma split1_first (sep s : string) :
  Py.contains sep s = true ->
  exists before after,
    Py.split1 sep s = [before; after] /\ first_split sep s before after.
Proof.
  unfold first_split. induction s as [|c t IH]; cbn [Py.contains Py.split1].
  - destruct (prefix sep EmptyString) eqn:E; [|discriminate]. intros _.
    apply prefix_spec in E as [r Hr]. exists EmptyString, r.
    rewrite (drop_prefix _ _ _ Hr). repeat split; [exact Hr|].
    intros; cbn; lia.
  - destruct (prefix sep (String c t)) eqn:E.
    + intros _. apply prefix_spec in E as [r Hr]. exists EmptyString, r.
      rewrite (drop_prefix _ _ _ Hr). repeat split; [exact Hr|].
      intros; cbn; lia.
    + intros H. destruct (IH H) as [a [b [Hs [Heq Hmin]]]].
      exists (String c a), b. rewrite Hs. repeat split.
      * cbn [append]. now rewrite <- Heq.
      * intros a' b' H'. destruct a' as [|d a']; cbn [append] in H'.
        -- assert (prefix sep (String c t) = true) by (apply prefix_spec; now exists b').
           congruence.
        -- inversion H'; subst d. cbn [String.length].
           apply le_n_S. eapply Hmin. eassumption.
Qed.

Lemma split1_whole (sep s : string) :
  Py.contains sep s = false -> Py.split1 sep s = [s].
Proof.
  induction s as [|c t IH]; cbn [Py.contains Py.split1].
  - now destruct (prefix sep EmptyString).
  - destruct (prefix sep (String c t)); [discriminate|].
    intros H. now rewrite (IH H).
Qed.

(** The cut at the first occurrence is unique. *)
Lemma first_split_unique (sep s a b a' b' : string) :
  first_split sep s a b -> first_split sep s a' b' -> a = a' /\ b = b'.
Proof.
  intros [H1 M1] [H2 M2].
  pose proof (M1 _ _ H2) as L1. pose proof (M2 _ _ H1) as L2.
  assert (Hlen : String.length a = String.length a') by lia.
  clear M1 M2 L1 L2. subst s. revert a' Hlen H2.
  induction a as [|c a IH]; intros [|c' a'] Hlen H2; simpl in *; try discriminate.
  - split; [reflexivity|].
    revert H2. clear. induction sep as [|d sep IH]; simpl; intros H.
    + exact H.
    + inversion H. auto.
  - inversion H2; subst c'. destruct (IH a') as [-> ->]; auto.
Qed.

End PyFacts.

(* ================================================================== *)
(** ** Facts about the adapter *)

Module AdapterFacts.
Import Obj Adapter Rules PyFacts.

(** Inversion of a successful sequence of binds. *)
Ltac bind_inv H :=
  repeat match type of H with
    | bind ?c _ = Ok _ =>
        let E := fresh "E" in
        destruct c eqn:E; cbn [bind] in H; [|discriminate H]
    end.

Lemma sort_key_cases (rt : runtime) (key : string) :
  (decimal_key rt key /\ _sort_key rt key = Ok (key_value rt key))
  \/ (~ digit_key rt key /\ _sort_key rt key = Ok (Z.abs (hash rt key)))
  \/ (digit_key rt key /\ ~ decimal_key rt key
      /\ _sort_key rt key = Raise (ValueError IntLiteral)).
Proof.
  unfold _sort_key. destruct (Py.isdigit (unicode_digit rt) key) eqn:E.
  - apply isdigit_digit_key in E.
    destruct (decimal_key_dec rt key) as [Hd|Hn].
    + left. split; [exact Hd | now apply int_decimal_key].
    + right. right. split; [exact E|]. split; [exact Hn | now apply int_not_decimal].
  - right. left. split; [|reflexivity].
    intros H. apply isdigit_digit_key in H. congruence.
Qed.


Lemma sorts_as_sort_key (rt : runtime) (key : string) (a z : Z) :
  _sort_key rt key = Ok z -> sorts_as rt key a -> a = z.
Proof.
  intros H Hs.
  destruct (sort_key_cases rt key) as [[Hd E]|[[Hn E]|[_ [_ E]]]];
    rewrite E in H; try discriminate H; injection H as <-.
  - destruct Hs as [_|Hs]; [reflexivity | now elim Hs].
  - destruct Hs as [Hs|_]; [|reflexivity]. elim Hn. now apply decimal_is_digit.
Qed.

Lemma sort_key_nonneg (rt : runtime) (key : string) (z : Z) :
  _sort_key rt key = Ok z -> 0 <= z.
Proof.
  intros H.
  destruct (sort_key_cases rt key) as [[Hd E]|[[Hn E]|[_ [_ E]]]];
    rewrite E in H; try discriminate H; injection H as <-.
  - apply key_value_nonneg.
  - apply Z.abs_nonneg.
Qed.

(** The keys the sort can place are those with a sort key; for the
    others [int] raises. *)
Lemma sortable_sort_key (rt : runtime) (key : string) :
  sortable rt key <-> exists z, _sort_key rt key = Ok z.
Proof.
  unfold sortable.
  destruct (sort_key_cases rt key) as [[Hd E]|[[Hn E]|[Hg [Hn E]]]]; rewrite E.
  - split; [eauto | intros _ _; exact Hd].
  - split; [eauto | intros _ Hg; now elim Hn].
  - split; [intros H; elim Hn; now apply H | intros [z Hz]; discriminate Hz].
Qed.

Lemma sort_key_raise (rt : runtime) (key : string) (e : exn) :
  _sort_key rt key = Raise e -> e = ValueError IntLiteral /\ ~ sortable rt key.
Proof.
  intros H. split.
  - destruct (sort_key_cases rt key) as [[_ E]|[[_ E]|[_ [_ E]]]];
      rewrite E in H; try discriminate H. now injection H as <-.
  - intros Hs. apply sortable_sort_key in Hs as [z Hz]. congruence.
Qed.

Lemma unsortable_sort_key (rt : runtime) (key : string) :
  ~ sortable rt key -> _sort_key rt key = Raise (ValueError IntLiteral).
Proof.
  intros Hn. destruct (_sort_key rt key) as [z|e] eqn:E.
  - elim Hn. apply sortable_sort_key. now exists z.
  - now destruct (sort_key_raise _ _ _ E) as [-> _].
Qed.

Lemma sort_key_decimal (rt : runtime) (key : string) :
  is_decimal key -> _sort_key rt key = Ok (decimal_value key).
Proof.
  intros H. destruct (is_decimal_key rt key H) as [Hd Hv].
  destruct (sort_key_cases rt key) as [[_ E]|[[Hn E]|[_ [Hn E]]]].
  - now rewrite E, Hv.
  - elim Hn. now apply decimal_is_digit.
  - now elim Hn.
Qed.

(** A value for every key, which is its sort key when it has one. *)
Lemma sort_value_exists (rt : runtime) :
  exists f : string -> Z, forall key z, _sort_key rt key = Ok z -> f key = z.
Proof.
  exists (fun key => match _sort_key rt key with Ok z => z | Raise _ => 0 end).
  intros key z H. now rewrite H.
Qed.

Lemma demo_id_of_sort_key (rt : runtime) (key : string) :
  demo_id_of rt key = _sort_key rt key.
Proof.
  unfold demo_id_of, _sort_key. now destruct (Py.isdigit (unicode_digit rt) key).
Qed.

Lemma episode_view_fields rt episodes video_root key view :
  episode_view rt episodes video_root key = Ok view ->
  episode_key view = key /\ _sort_key rt key = Ok (demo_id view).
Proof.
  unfold episode_view. intros H. bind_inv H.
  injection H as <-. split; [reflexivity|].
  cbn [demo_id]. now rewrite <- demo_id_of_sort_key.
Qed.

Lemma yield_views_in rt episodes video_root keys view :
  In view (yielded (yield_views rt episodes video_root keys)) ->
  exists key, In key keys /\ episode_view rt episodes video_root key = Ok view.
Proof.
  induction keys as [|k rest IH]; simpl; [contradiction|].
  destruct (episode_view rt episodes video_root k) eqn:E; simpl; [|contradiction].
  intros [<-|H].
  - exists k. auto.
  - destruct (IH H) as [k' [Hin Hk']]. exists k'. auto.
Qed.

(** The keys of the yielded views are the keys handed over, up to the
    point where an exception stopped the generator. *)
Lemma yield_views_keys rt episodes video_root keys :
  let tr := yield_views rt episodes video_root keys in
  exists rest,
    keys = map episode_key (yielded tr) ++ rest
    /\ (raised tr = None -> rest = []).
Proof.
  induction keys as [|k ks IH]; simpl.
  - exists []. auto.
  - destruct (episode_view rt episodes video_root k) eqn:E; simpl.
    + destruct IH as [rest [Hk Hr]]. exists rest.
      apply episode_view_fields in E as [-> _].
      split; [now rewrite Hk at 1 | exact Hr].
    + exists (k :: ks). split; [reflexivity | discriminate].
Qed.


Lemma StronglySorted_app_l {A} (R : A -> A -> Prop) (l1 l2 : list A) :
  StronglySorted R (l1 ++ l2) -> StronglySorted R l1.
Proof.
  induction l1 as [|x l1 IH]; simpl; intros H; [constructor|].
  inversion H as [|? ? Hs Hf]; subst. constructor; [now apply IH|].
  apply Forall_app in Hf. tauto.
Qed.



(** *** The iteration, by what the sort does *)



(** A yielded view is the view of a key of the container. *)
Lemma iter_yielded_in rt dataset video_root episodes view :
  H5.episodes dataset = Some episodes ->
  In view (yielded (iter_episode_views rt dataset video_root)) ->
  exists key ordered,
    Py.sort_by_key (_sort_key rt) (H5.keys episodes) = Ok ordered
    /\ iter_episode_views rt dataset video_root
       = yield_views rt episodes video_root ordered
    /\ In key ordered /\ In key (H5.keys episodes)
    /\ episode_view rt episodes video_root key = Ok view.
Proof.
  intros Hds. unfold iter_episode_views, get_episode_group. rewrite Hds.
  destruct (Py.sort_by_key (_sort_key rt) (H5.keys episodes)) as [ordered|e] eqn:Es;
    [|contradiction].
  intros Hin. apply yield_views_in in Hin as [key [Hk Hv]].
  exists key, ordered. repeat split; try assumption.
  eapply Permutation_in; [exact (sort_by_key_perm _ _ _ Es) | exact Hk].
Qed.


(** *** Reading a conformant episode *)

Lemma resolve_total (video_root : Py.Path) (raw : string) :
  exists p, resolve_video_path video_root raw = Ok p.
Proof.
  unfold resolve_video_path.
  destruct (Py.contains VIDEO_PATH_MARKER raw) eqn:Hc; [|eexists; reflexivity].
  destruct (split1_first _ _ Hc) as [b [a [Hs _]]]. rewrite Hs.
  eexists. reflexivity.
Qed.





(** *** What the output depends on in the runtime *)











End AdapterFacts.

(* ================================================================== *)
(** ** Properties of the episode iterator *)

Section EpisodeIterator.
Import Obj Adapter Rules PyFacts AdapterFacts.

Variable rt : runtime.


(** C2. Every yielded view whose key is a string of decimal digits has
    the integer value of the key as its [demo_id]; every other yielded
    view has the absolute value of the hash of its key; in both cases
    [demo_id] is a non-negative integer.  The decimal digits are those of
    any script; a key of the numerals 0 to 9 has the value the numerals
    denote. *)
Theorem demo_id_numeric_or_hash :
  forall (dataset : H5.File) (video_root : Py.Path) (view : EpisodeView),
    In view (yielded (iter_episode_views rt dataset video_root)) ->
    (decimal_key rt (episode_key view) ->
       demo_id view = key_value rt (episode_key view))
    /\ (is_decimal (episode_key view) ->
          demo_id view = decimal_value (episode_key view))
    /\ (~ decimal_key rt (episode_key view) ->
          demo_id view = Z.abs (hash rt (episode_key view)))
    /\ 0 <= demo_id view.
Proof.
  intros dataset video_root view Hin.
  unfold iter_episode_views in Hin.
  destruct (get_episode_group dataset) as [episodes|e]; [|contradiction].
  destruct (Py.sort_by_key (_sort_key rt) (H5.keys episodes)) as [ordered|e];
    [|contradiction].
  apply yield_views_in in Hin as [key [_ Hv]].
  apply episode_view_fields in Hv as [Hk Hd]. subst key.
  split; [|split; [|split]].
  - intros H. symmetry. apply (sorts_as_sort_key rt _ _ _ Hd). now constructor.
  - intros H. destruct (is_decimal_key rt _ H) as [Hdec <-].
    symmetry. apply (sorts_as_sort_key rt _ _ _ Hd). now constructor.
  - intros H. symmetry. apply (sorts_as_sort_key rt _ _ _ Hd). now constructor 2.
  - exact (sort_key_nonneg rt _ _ Hd).
Qed.

(** C9. Neither the sort key nor [demo_id] is injective on episode keys:
    a leading zero changes a key of digits and leaves both unchanged.
    The distinct keys 7 and 007 have the sort key and the [demo_id] 7;
    their views are in order whichever comes first, and the iterator
    yields them in the order in which the container enumerates them; the
    file names derived from their [demo_id] are the same. *)
Theorem sort_key_and_demo_id_not_injective :
  "7" <> "007"
  /\ _sort_key rt "7" = Ok 7 /\ _sort_key rt "007" = Ok 7
  /\ (forall key, is_decimal key ->
        String "0" key <> key
        /\ _sort_key rt (String "0" key) = _sort_key rt key
        /\ demo_id_of rt (String "0" key) = demo_id_of rt key)
  /\ (forall episodes video_root v w,
        episode_view rt episodes video_root "7" = Ok v ->
        episode_view rt episodes video_root "007" = Ok w ->
        v <> w
        /\ demo_id v = demo_id w
        /\ in_order rt v w /\ in_order rt w v
        /\ Scripts.expected_export_name (demo_id v)
           = Scripts.expected_export_name (demo_id w)
        /\ forall camera_key,
             Scripts.output_name (demo_id v) camera_key
             = Scripts.output_name (demo_id w) camera_key)
  /\ Py.sort_by_key (_sort_key rt) ["7"; "007"] = Ok ["7"; "007"]
  /\ Py.sort_by_key (_sort_key rt) ["007"; "7"] = Ok ["007"; "7"].
Proof.
  assert (K7 : _sort_key rt "7" = Ok 7) by reflexivity.
  assert (K007 : _sort_key rt "007" = Ok 7) by reflexivity.
  split; [discriminate|]. split; [exact K7|]. split; [exact K007|].
  split; [|split; [|split; reflexivity]].
  - intros key Hd.
    assert (Hz : is_decimal (String "0" key)).
    { destruct Hd as [_ Hf]. split; [discriminate|].
      simpl. constructor; [|exact Hf]. simpl. auto. }
    assert (Hk : _sort_key rt (String "0" key) = _sort_key rt key).
    { rewrite (sort_key_decimal rt _ Hz), (sort_key_decimal rt _ Hd).
      now rewrite decimal_value_zero. }
    split; [|split; [exact Hk | now rewrite !demo_id_of_sort_key]].
    intros E. apply (f_equal String.length) in E. simpl in E.
    clear -E. induction (String.length key); [discriminate | injection E; auto].
  - intros episodes video_root v w Hv Hw.
    apply episode_view_fields in Hv as [Kv Dv], Hw as [Kw Dw].
    rewrite K7 in Dv. rewrite K007 in Dw. injection Dv as Dv. injection Dw as Dw.
    split; [intros E; rewrite E in Kv; rewrite Kv in Kw; discriminate|].
    rewrite <- Dv, <- Dw.
    repeat split; unfold in_order; intros a b Ha Hb; rewrite Kv, Kw in *;
      first [ apply (sorts_as_sort_key rt _ _ _ K7) in Ha;
              apply (sorts_as_sort_key rt _ _ _ K007) in Hb
            | apply (sorts_as_sort_key rt _ _ _ K007) in Ha;
              apply (sorts_as_sort_key rt _ _ _ K7) in Hb ];
      lia.
Qed.

End EpisodeIterator.

(* ================================================================== *)
(** ** Properties of the video path resolution *)

Section VideoPath.
Import Obj Adapter Rules PyFacts AdapterFacts.

Lemma resolve_with_marker (video_root : Py.Path) (raw before after : string) :
  first_split VIDEO_PATH_MARKER raw before after ->
  resolve_video_path video_root raw = Ok (Py.joinpath video_root after).
Proof.
  intros Hf. assert (Hc : Py.contains VIDEO_PATH_MARKER raw = true).
  { apply contains_occurs. destruct Hf as [E _]. now exists before, after. }
  destruct (split1_first _ _ Hc) as [b [a [Hs Hf']]].
  destruct (first_split_unique _ _ _ _ _ _ Hf Hf') as [-> ->].
  unfold resolve_video_path. now rewrite Hc, Hs.
Qed.

Lemma resolve_without_marker (video_root : Py.Path) (raw : string) :
  ~ occurs VIDEO_PATH_MARKER raw ->
  resolve_video_path video_root raw = Ok (Py.joinpath video_root raw).
Proof.
  intros Hn. unfold resolve_video_path.
  destruct (Py.contains VIDEO_PATH_MARKER raw) eqn:Hc; [|reflexivity].
  elim Hn. now apply contains_occurs.
Qed.

Lemma rooted_anchor (rest : string) :
  String.eqb (Py.anchor (Py.path_of_str (String "/" rest))) EmptyString = false.
Proof.
  unfold Py.path_of_str, Py.splitroot.
  change (Ascii.eqb "/" "/") with true. cbv iota.
  now destruct (_ =? 2)%nat.
Qed.

(** C3. If the raw path contains the marker [videos/], the result is the
    video root joined with exactly what follows the first occurrence of
    the marker, however many occurrences there are; if it does not, the
    result is the video root joined with the whole raw path. *)
Theorem resolve_video_path_keeps_suffix_after_first_marker :
  forall (video_root : Py.Path) (raw : string),
    (occurs VIDEO_PATH_MARKER raw ->
       (exists before after, first_split VIDEO_PATH_MARKER raw before after)
       /\ forall before after,
            first_split VIDEO_PATH_MARKER raw before after ->
            resolve_video_path video_root raw
            = Ok (Py.joinpath video_root after))
    /\ (~ occurs VIDEO_PATH_MARKER raw ->
          resolve_video_path video_root raw
          = Ok (Py.joinpath video_root raw)).
Proof.
  intros video_root raw. split.
  - intros Ho. split.
    + apply contains_occurs in Ho.
      destruct (split1_first _ _ Ho) as [b [a [_ Hf]]]. now exists b, a.
    + intros before after. apply resolve_with_marker.
  - apply resolve_without_marker.
Qed.

(** C10. If the raw path is absolute and has no marker, the result is
    the raw path itself, as a path: joining discards the video root. *)
Theorem resolve_video_path_absolute_discards_root :
  forall (video_root : Py.Path) (raw : string),
    (exists rest, raw = String "/" rest) ->
    ~ occurs VIDEO_PATH_MARKER raw ->
    resolve_video_path video_root raw = Ok (Py.path_of_str raw)
    /\ forall other_root,
         resolve_video_path other_root raw
         = resolve_video_path video_root raw.
Proof.
  intros video_root raw [rest ->] Hn.
  assert (H : forall root, resolve_video_path root (String "/" rest)
                           = Ok (Py.path_of_str (String "/" rest))).
  { intros root. rewrite resolve_without_marker by exact Hn.
    unfold Py.joinpath. now rewrite rooted_anchor. }
  split; [apply H|]. intros other. now rewrite !H.
Qed.

End VideoPath.

(* ================================================================== *)
(** ** Properties of the structural validator *)

Section StructuralValidator.
Import Obj Adapter Rules PyFacts AdapterFacts.

Variable rt : runtime.




End StructuralValidator.

(* ================================================================== *)
(** ** Facts about the array checks *)

Module CheckFacts.
Import Obj Adapter Rules AdapterFacts.

Lemma in_append_if (x : string) (c : bool) (tag : string) (l : list string) :
  In x (append_if c tag l) <-> In x l \/ (c = true /\ x = tag).
Proof.
  unfold append_if. destruct c.
  - rewrite in_app_iff. simpl. intuition.
  - intuition discriminate.
Qed.

Lemma in_tags (x : string) (b1 b2 b3 b4 b5 b6 b7 : bool) :
  In x (tags b1 b2 b3 b4 b5 b6 b7) <->
  (b1 = true /\ x = "length_mismatch")
  \/ (b2 = true /\ x = "delta_eef_non_finite")
  \/ (b3 = true /\ x = "proprio_non_finite")
  \/ (b4 = true /\ x = "eef_pose_non_finite")
  \/ (b5 = true /\ x = "frame_index_not_monotonic")
  \/ (b6 = true /\ x = "timestamps_not_monotonic")
  \/ (b7 = true /\ x = "delta_eef_shape_not_Tx6").
Proof.
  unfold tags. rewrite !in_append_if. simpl. tauto.
Qed.

Lemma tags_nil (b1 b2 b3 b4 b5 b6 b7 : bool) :
  tags b1 b2 b3 b4 b5 b6 b7 = [] <->
  b1 = false /\ b2 = false /\ b3 = false /\ b4 = false
  /\ b5 = false /\ b6 = false /\ b7 = false.
Proof.
  destruct b1, b2, b3, b4, b5, b6, b7; cbv; intuition discriminate.
Qed.

(** *** Numbers *)

Lemma numbers_map (l : list Np.elem) (xs : list Np.scalar) :
  Np.numbers l = Ok xs -> l = map Np.ENum xs.
Proof.
  revert xs. induction l as [|e t IH]; simpl; intros xs H.
  - now injection H as <-.
  - destruct e; try discriminate.
    destruct (Np.numbers t) as [ys|]; [|discriminate].
    injection H as <-. simpl. now rewrite (IH ys).
Qed.

Lemma forallb_false {A} (f : A -> bool) (l : list A) :
  forallb f l = false <-> exists x, In x l /\ f x = false.
Proof.
  induction l as [|a t IH]; simpl.
  - split; [discriminate | intros [x [[] _]]].
  - rewrite andb_false_iff, IH. split.
    + intros [H|[x [Hx Hf]]]; [exists a | exists x]; auto.
    + intros [x [[->|Hx] Hf]]; [now left | right; now exists x].
Qed.

Lemma isfinite_false (x : Np.scalar) : Np.isfinite x = false <-> non_finite x.
Proof.
  unfold non_finite. destruct x; simpl; intuition discriminate.
Qed.

Lemma values_numbers (arr : Np.ndarray) (xs : list Np.scalar) :
  Np.values arr = Ok xs <->
  Np.dtype arr <> Np.Text /\ Np.numbers (Np.items arr) = Ok xs.
Proof.
  unfold Np.values. destruct (Np.dtype arr); split;
    try (intros H; split; [discriminate | exact H]);
    try (now intros [_ H]).
  - discriminate.
  - intros [H _]. now elim H.
Qed.

Lemma numbers_all (l : list Np.elem) :
  (exists xs, Np.numbers l = Ok xs) <->
  Forall (fun e => exists x, e = Np.ENum x) l.
Proof.
  induction l as [|e t IH]; simpl.
  - split; [constructor | now exists []].
  - split.
    + intros [xs H]. destruct e as [x| |]; try discriminate.
      destruct (Np.numbers t) as [ys|]; [|discriminate].
      constructor; [now exists x | apply IH; now exists ys].
    + intros H. inversion H as [|? ? [x ->] Ht]; subst.
      apply IH in Ht as [ys ->]. now exists (x :: ys).
Qed.

(** A per-step array of numbers is one whose values can be taken and
    that has a length. *)
Lemma per_step_values (arr : Np.ndarray) :
  per_step arr <-> Np.shape arr <> [] /\ exists xs, Np.values arr = Ok xs.
Proof.
  unfold per_step. rewrite <- numbers_all. split.
  - intros (Hs & Hd & [xs Hx]). split; [exact Hs|]. exists xs.
    apply values_numbers. now split.
  - intros (Hs & [xs Hx]). apply values_numbers in Hx as [Hd Hx]. eauto.
Qed.

Lemma all_finite_spec (arr : Np.ndarray) (ok : bool) :
  Np.all_finite arr = Ok ok -> (negb ok = true <-> has_non_finite arr).
Proof.
  unfold Np.all_finite, has_non_finite. intros H. bind_inv H. injection H as <-.
  apply values_numbers in E as [_ E].
  rewrite negb_true_iff, forallb_false. rewrite (numbers_map _ _ E).
  split.
  - intros [x [Hx Hf]]. exists x. split; [now apply in_map | now apply isfinite_false].
  - intros [x [Hx Hf]]. exists x. split; [|now apply isfinite_false].
    apply in_map_iff in Hx as [y [[= ->] Hy]]. exact Hy.
Qed.

(** *** Differences *)

Lemma ge0_sub_finite (p q : Q) :
  Np.ge0 (Np.sub (Np.Finite q) (Np.Finite p)) = Qle_bool p q.
Proof.
  simpl. apply eq_true_iff_eq. rewrite !Qle_bool_iff.
  unfold Qminus. symmetry. apply Qle_minus_iff.
Qed.

Lemma ge0_sub_false (x y : Np.scalar) :
  Np.ge0 (Np.sub y x) = false <->
  Np.lt y x = true \/ Np.isnan (Np.sub y x) = true.
Proof.
  destruct x as [p| | |], y as [q| | |];
    try (simpl; intuition discriminate).
  rewrite ge0_sub_finite. simpl. rewrite negb_true_iff. intuition discriminate.
Qed.

Lemma ge0_integer (z : Z) : Np.ge0 (Np.Finite (inject_Z z)) = (0 <=? z).
Proof.
  cbn [Np.ge0]. unfold Qle_bool, inject_Z. cbn [Qnum Qden].
  now rewrite !Z.mul_1_r.
Qed.

Lemma ge0_minus_false (d : Np.DType) (x y : Np.scalar) :
  Np.ge0 (Np.minus d y x) = false <-> failed_step d x y.
Proof.
  destruct d; try apply ge0_sub_false;
    destruct x as [p| | |], y as [q| | |]; try apply ge0_sub_false;
    cbn [Np.minus failed_step]; rewrite ge0_integer; apply Z.leb_gt.
Qed.

Lemma rev_head_last (l : list nat) (n : nat) (t : list nat) :
  rev l = n :: t -> last l 0%nat = n.
Proof.
  intros H. apply (f_equal (@rev nat)) in H. rewrite rev_involutive in H.
  subst l. simpl. apply last_last.
Qed.

Lemma all_diff_ge0_spec (arr : Np.ndarray) (ok : bool) :
  Np.all_diff_ge0 arr = Ok ok -> (negb ok = true <-> has_failed_step arr).
Proof.
  unfold Np.all_diff_ge0, Np.diff, has_failed_step, neighbour_pairs. intros H.
  destruct (rev (Np.shape arr)) as [|n t] eqn:Er; [discriminate|].
  rewrite (rev_head_last _ _ _ Er).
  destruct (Np.values arr) as [xs|] eqn:Ev; [|discriminate].
  apply values_numbers in Ev as [_ Ev]. rewrite Ev.
  cbn [bind] in H. injection H as <-.
  rewrite negb_true_iff, forallb_false. split.
  - intros [d [Hd Hf]]. apply in_map_iff in Hd as [[x y] [<- Hp]].
    exists x, y. split; [exact Hp | now apply ge0_minus_false].
  - intros [x [y [Hp Hf]]]. exists (Np.minus (Np.dtype arr) y x). split.
    + apply in_map_iff. now exists (x, y).
    + now apply ge0_minus_false.
Qed.










(** *** Lengths and shape *)

Lemma same_lengths_spec (a : arrays) (n : nat) (same : bool) :
  Np.len (delta_eef a) = Ok n ->
  same_lengths a n = Ok same ->
  (negb same = false <-> same_length a).
Proof.
  unfold same_lengths, same_length. intros Hd H. rewrite negb_false_iff.
  destruct (Np.len (proprio a)) as [lp|]; [|discriminate].
  destruct (Np.len (eef_pose a)) as [le|]; [|discriminate].
  cbn [bind] in H.
  destruct (Nat.eqb_spec lp le) as [->|Hne]; cbn [negb] in H.
  2:{ injection H as <-. split; [discriminate|]. intros [m [_ [[= ->] [[= ->] _]]]].
      now elim Hne. }
  destruct (Np.len (frame_index a)) as [lf|]; [|discriminate].
  cbn [bind] in H.
  destruct (Nat.eqb_spec le lf) as [->|Hne]; cbn [negb] in H.
  2:{ injection H as <-. split; [discriminate|]. intros [m [_ [_ [[= ->] [[= ->] _]]]]].
      now elim Hne. }
  destruct (Np.len (timestamps a)) as [lt|]; [|discriminate].
  cbn [bind] in H.
  destruct (Nat.eqb_spec lf lt) as [->|Hne]; cbn [negb] in H.
  2:{ injection H as <-. split; [discriminate|]. intros [m [_ [_ [_ [[= ->] [= ->]]]]]].
      now elim Hne. }
  injection H as <-. rewrite Hd.
  destruct (Nat.eqb_spec lt n) as [->|Hne].
  - split; [|reflexivity]. intros _. exists n. repeat split.
  - split; [discriminate|]. intros [m [[= ->] [[= ->] _]]]. now elim Hne.
Qed.

Lemma not_Tx6_spec (arr : Np.ndarray) : not_Tx6 arr = false <-> is_Tx6 arr.
Proof.
  unfold not_Tx6, is_Tx6, Np.ndim.
  destruct (Np.shape arr) as [|T [|c [|x t]]]; cbn.
  - split; [discriminate | intros [? ?]; discriminate].
  - split; [discriminate | intros [? ?]; discriminate].
  - destruct (Nat.eqb_spec c 6) as [->|Hne]; cbn.
    + split; [intros _; now exists T | reflexivity].
    + split; [discriminate|]. intros [T' [= _ ->]]. now elim Hne.
  - split; [discriminate | intros [? ?]; discriminate].
Qed.

(** *** The issues of an episode, test by test *)

Lemma validate_loaded (episode : H5.episode) (a : arrays) :
  load_arrays episode = Ok a ->
  validate_episode_arrays episode = check_arrays a.
Proof. unfold validate_episode_arrays. now intros ->. Qed.

Lemma check_arrays_tags (a : arrays) (issues : list string) :
  check_arrays a = Ok issues ->
  exists b1 b2 b3 b4 b5 b6 b7,
    issues = tags b1 b2 b3 b4 b5 b6 b7
    /\ (b1 = false <-> same_length a)
    /\ (b2 = true <-> has_non_finite (delta_eef a))
    /\ (b3 = true <-> has_non_finite (proprio a))
    /\ (b4 = true <-> has_non_finite (eef_pose a))
    /\ (b5 = true <-> has_failed_step (frame_index a))
    /\ (b6 = true <-> has_failed_step (timestamps a))
    /\ (b7 = false <-> is_Tx6 (delta_eef a)).
Proof.
  unfold check_arrays. intros H. bind_inv H. injection H as <-.
  do 7 eexists. split; [unfold tags; reflexivity|].
  repeat split;
    first [ eapply same_lengths_spec; eassumption
          | apply all_finite_spec; assumption
          | apply all_diff_ge0_spec; assumption
          | apply not_Tx6_spec ].
Qed.

Lemma len_ok (arr : Np.ndarray) :
  (exists n, Np.len arr = Ok n) <-> Np.shape arr <> [].
Proof.
  unfold Np.len. destruct (Np.shape arr) as [|n t].
  - split; [intros [n H]; discriminate | intros H; now elim H].
  - split; [discriminate | now exists n].
Qed.

Lemma rev_nil {A} (l : list A) : rev l = [] -> l = [].
Proof.
  intros H. apply (f_equal (@rev A)) in H. now rewrite rev_involutive in H.
Qed.

(** Per-step arrays of numbers are checked without an exception. *)
Lemma check_arrays_total (a : arrays) :
  per_step (delta_eef a) -> per_step (proprio a) -> per_step (eef_pose a) ->
  per_step (frame_index a) -> per_step (timestamps a) ->
  exists issues, check_arrays a = Ok issues.
Proof.
  intros Pd Pp Pe Pf Pt.
  apply per_step_values in Pd as [Sd [xd Nd]], Pp as [Sp [xp Np']],
    Pe as [Se [xe Ne]], Pf as [Sf [xf Nf]], Pt as [St [xt Nt]].
  unfold check_arrays, same_lengths, Np.all_finite, Np.all_diff_ge0, Np.diff, Np.len.
  rewrite Nd, Np', Ne, Nf, Nt.
  destruct (Np.shape (delta_eef a)) as [|ld ?]; [now elim Sd|].
  destruct (Np.shape (proprio a)) as [|lp ?]; [now elim Sp|].
  destruct (Np.shape (eef_pose a)) as [|le ?]; [now elim Se|].
  assert (Rf : exists n t, rev (Np.shape (frame_index a)) = n :: t).
  { destruct (rev (Np.shape (frame_index a))) eqn:E; [|eauto].
    apply rev_nil in E. now elim Sf. }
  assert (Rt : exists n t, rev (Np.shape (timestamps a)) = n :: t).
  { destruct (rev (Np.shape (timestamps a))) eqn:E; [|eauto].
    apply rev_nil in E. now elim St. }
  destruct Rf as [nf [tf ->]], Rt as [nt [tt' ->]].
  destruct (Np.shape (frame_index a)) as [|lf ?]; [now elim Sf|].
  destruct (Np.shape (timestamps a)) as [|lt ?]; [now elim St|].
  cbn [bind].
  destruct (negb (lp =? le)%nat); cbn [bind]; [eauto|].
  destruct (negb (le =? lf)%nat); cbn [bind]; [eauto|].
  destruct (negb (lf =? lt)%nat); cbn [bind]; eauto.
Qed.

Lemma all_finite_ok (arr : Np.ndarray) (ok : bool) :
  Np.all_finite arr = Ok ok -> exists xs, Np.values arr = Ok xs.
Proof.
  unfold Np.all_finite. destruct (Np.values arr) as [xs|]; [eauto | discriminate].
Qed.

Lemma all_diff_ge0_ok (arr : Np.ndarray) (ok : bool) :
  Np.all_diff_ge0 arr = Ok ok -> per_step arr.
Proof.
  unfold Np.all_diff_ge0, Np.diff. intros H. apply per_step_values.
  destruct (rev (Np.shape arr)) as [|n t] eqn:Er; [discriminate|].
  destruct (Np.values arr) as [xs|]; [|discriminate].
  split; [|eauto]. intros E. rewrite E in Er. discriminate.
Qed.

(** The arrays that are checked without an exception are the per-step
    arrays of numbers. *)
Lemma check_arrays_returns (a : arrays) (issues : list string) :
  check_arrays a = Ok issues ->
  per_step (delta_eef a) /\ per_step (proprio a) /\ per_step (eef_pose a)
  /\ per_step (frame_index a) /\ per_step (timestamps a).
Proof.
  unfold check_arrays. intros H. bind_inv H.
  match goal with
  | Hs : same_lengths a _ = Ok _ |- _ =>
      unfold same_lengths in Hs;
      destruct (Np.len (proprio a)) as [lp|] eqn:Lp; [|discriminate Hs];
      destruct (Np.len (eef_pose a)) as [le|] eqn:Le; [|discriminate Hs]
  end.
  repeat match goal with
  | Hf : Np.all_finite _ = Ok _ |- _ => apply all_finite_ok in Hf
  | Hd : Np.all_diff_ge0 _ = Ok _ |- _ => apply all_diff_ge0_ok in Hd
  end.
  split; [|split; [|split; [|split]]]; try assumption; apply per_step_values;
    (split; [apply len_ok; eauto | assumption]).
Qed.

Lemma len_raise (arr : Np.ndarray) (e : exn) : Np.len arr = Raise e -> e = TypeError.
Proof. unfold Np.len. destruct (Np.shape arr); [now intros [= <-] | discriminate]. Qed.

Lemma values_raise (arr : Np.ndarray) (e : exn) :
  Np.values arr = Raise e -> e = TypeError.
Proof.
  unfold Np.values. assert (H : forall l, Np.numbers l = Raise e -> e = TypeError).
  { induction l as [|x t IH]; simpl; [discriminate|].
    destruct x; try (now intros [= <-]).
    destruct (Np.numbers t); cbn [bind]; [discriminate | exact IH]. }
  destruct (Np.dtype arr); try apply H. now intros [= <-].
Qed.

Lemma all_finite_raise (arr : Np.ndarray) (e : exn) :
  Np.all_finite arr = Raise e -> e = TypeError.
Proof.
  unfold Np.all_finite. destruct (Np.values arr) eqn:E; cbn [bind]; [discriminate|].
  intros [= <-]. exact (values_raise _ _ E).
Qed.

Lemma all_diff_ge0_raise (arr : Np.ndarray) (e : exn) :
  Np.all_diff_ge0 arr = Raise e -> e = TypeError \/ e = ValueError DiffOfScalar.
Proof.
  unfold Np.all_diff_ge0, Np.diff. destruct (rev (Np.shape arr)); cbn [bind].
  - intros [= <-]. now right.
  - destruct (Np.values arr) eqn:E; cbn [bind]; [discriminate|].
    intros [= <-]. left. exact (values_raise _ _ E).
Qed.

Lemma same_lengths_raise (a : arrays) (n : nat) (e : exn) :
  same_lengths a n = Raise e -> e = TypeError.
Proof.
  unfold same_lengths.
  destruct (Np.len (proprio a)) eqn:E1; cbn [bind]; [|intros [= <-]; exact (len_raise _ _ E1)].
  destruct (Np.len (eef_pose a)) eqn:E2; cbn [bind]; [|intros [= <-]; exact (len_raise _ _ E2)].
  destruct (negb _); [discriminate|].
  destruct (Np.len (frame_index a)) eqn:E3; cbn [bind]; [|intros [= <-]; exact (len_raise _ _ E3)].
  destruct (negb _); [discriminate|].
  destruct (Np.len (timestamps a)) eqn:E4; cbn [bind]; [|intros [= <-]; exact (len_raise _ _ E4)].
  destruct (negb _); discriminate.
Qed.

(** The exceptions of the checks. *)
Lemma check_arrays_raise (a : arrays) (e : exn) :
  check_arrays a = Raise e -> e = TypeError \/ e = ValueError DiffOfScalar.
Proof.
  unfold check_arrays. intros H.
  repeat match type of H with
  | bind ?c _ = Raise _ =>
      let E := fresh "E" in
      destruct c eqn:E; cbn [bind] in H;
      [| injection H as <-;
         first [ left; exact (len_raise _ _ E)
               | left; exact (same_lengths_raise _ _ _ E)
               | left; exact (all_finite_raise _ _ E)
               | exact (all_diff_ge0_raise _ _ E) ] ]
  end.
  discriminate H.
Qed.

End CheckFacts.

(* ================================================================== *)
(** ** Properties of the episode array validator *)

Section ArrayValidator.
Import Obj Adapter Rules AdapterFacts CheckFacts.

(** C5, as the code has it.  [validate_episode_arrays] returns a list of
    issue tags, in the order of the checks, exactly when the five arrays
    it reads are per-step arrays of numbers: arrays with at least one
    axis that hold no text.  For these it raises no exception, whatever
    their values, lengths and shapes.  A dataset that is present and is
    zero-dimensional or holds text makes [len], [isfinite] or [diff]
    raise a [TypeError] or a [ValueError].  The list returned has
    [length_mismatch] exactly when the proprio, eef_pose, frame_index and
    timestamps arrays do not all have the length of the delta_eef array,
    and it is empty exactly when the episode passes every check. *)
Theorem validate_episode_arrays_length_mismatch :
  forall (episode : H5.episode) (a : arrays),
    load_arrays episode = Ok a ->
    ((exists issues, validate_episode_arrays episode = Ok issues) <->
     per_step (delta_eef a) /\ per_step (proprio a) /\ per_step (eef_pose a)
     /\ per_step (frame_index a) /\ per_step (timestamps a))
    /\ (forall e, validate_episode_arrays episode = Raise e ->
          e = TypeError \/ e = ValueError DiffOfScalar)
    /\ forall issues,
         validate_episode_arrays episode = Ok issues ->
         (exists b1 b2 b3 b4 b5 b6 b7, issues = tags b1 b2 b3 b4 b5 b6 b7)
         /\ (In "length_mismatch" issues <-> ~ same_length a)
         /\ (issues = [] <->
             same_length a
             /\ ~ has_non_finite (delta_eef a)
             /\ ~ has_non_finite (proprio a)
             /\ ~ has_non_finite (eef_pose a)
             /\ ~ has_failed_step (frame_index a)
             /\ ~ has_failed_step (timestamps a)
             /\ is_Tx6 (delta_eef a)).
Proof.
  intros episode a Hl. rewrite (validate_loaded _ _ Hl). split; [|split].
  - split.
    + intros [issues H]. exact (check_arrays_returns _ _ H).
    + intros (Pd & Pp & Pe & Pf & Pt). now apply check_arrays_total.
  - apply check_arrays_raise.
  - intros issues H.
    destruct (check_arrays_tags _ _ H)
      as (b1 & b2 & b3 & b4 & b5 & b6 & b7 & -> & H1 & H2 & H3 & H4 & H5 & H6 & H7).
    split; [now exists b1, b2, b3, b4, b5, b6, b7|].
    split.
    + rewrite in_tags. split.
      * intros [[E _]|[[_ E]|[[_ E]|[[_ E]|[[_ E]|[[_ E]|[_ E]]]]]]];
          try discriminate E.
        intros Hs. apply H1 in Hs. congruence.
      * intros Hn. left. split; [|reflexivity].
        destruct b1; [reflexivity|]. elim Hn. now apply H1.
    + rewrite tags_nil. split.
      * intros (E1 & E2 & E3 & E4 & E5 & E6 & E7).
        repeat split;
          first [ now apply H1 | now apply H7
                | intros Hx;
                  first [apply H2 in Hx | apply H3 in Hx | apply H4 in Hx
                        | apply H5 in Hx | apply H6 in Hx]; congruence ].
      * intros (P1 & P2 & P3 & P4 & P5 & P6 & P7).
        repeat split;
          first [ now apply H1 | now apply H7
                | match goal with
                  | |- ?b = false => destruct b; [exfalso | reflexivity]
                  end; tauto ].
Qed.

(** C6. The result of [validate_episode_arrays] has
    [delta_eef_non_finite], [proprio_non_finite], [eef_pose_non_finite]
    exactly when the delta_eef, proprio, eef_pose array, respectively,
    has an element that is NaN or infinite.  An episode whose only
    defect is a NaN in its eef_pose array reports exactly
    [eef_pose_non_finite]. *)
Theorem validate_episode_arrays_non_finite :
  forall (episode : H5.episode) (a : arrays) (issues : list string),
    load_arrays episode = Ok a ->
    validate_episode_arrays episode = Ok issues ->
    (In "delta_eef_non_finite" issues <-> has_non_finite (delta_eef a))
    /\ (In "proprio_non_finite" issues <-> has_non_finite (proprio a))
    /\ (In "eef_pose_non_finite" issues <-> has_non_finite (eef_pose a))
    /\ (In (Np.ENum Np.NaN) (Np.items (eef_pose a)) ->
        same_length a ->
        ~ has_non_finite (delta_eef a) ->
        ~ has_non_finite (proprio a) ->
        ~ has_failed_step (frame_index a) ->
        ~ has_failed_step (timestamps a) ->
        is_Tx6 (delta_eef a) ->
        issues = ["eef_pose_non_finite"]).
Proof.
  intros episode a issues Hl H. rewrite (validate_loaded _ _ Hl) in H.
  destruct (check_arrays_tags _ _ H)
    as (b1 & b2 & b3 & b4 & b5 & b6 & b7 & -> & H1 & H2 & H3 & H4 & H5 & H6 & H7).
  repeat split.
  1,3,5:
    rewrite in_tags;
    intros [[_ E]|[[E' E]|[[E' E]|[[E' E]|[[_ E]|[[_ E]|[_ E]]]]]]];
    try discriminate E; tauto.
  1,2,3: intros Hn; rewrite in_tags; intuition.
  intros Hnan P1 P2 P3 P5 P6 P7.
  assert (P4 : has_non_finite (eef_pose a)).
  { exists Np.NaN. split; [exact Hnan | now left]. }
  apply H1 in P1. apply H4 in P4. apply H7 in P7. subst.
  destruct b2; [tauto|]. destruct b3; [tauto|].
  destruct b5; [tauto|]. destruct b6; [tauto|]. reflexivity.
Qed.


End ArrayValidator.

(* ================================================================== *)
(** ** Properties of the string decoding *)

Section ScalarStrings.
Import Obj Adapter Rules.

Variable rt : runtime.

Lemma all_bytes_map (bs : list (list byte)) : all_bytes (map PyBytes bs) = Some bs.
Proof. induction bs as [|b t IH]; cbn; [reflexivity | now rewrite IH]. Qed.

(** C8, as the code has it.  [decode_scalar_string] returns the text of
    every scalar string payload: it decodes raw bytes as UTF-8, returns a
    [str] as it is, and unwraps a zero-dimensional array and treats what
    it wraps in the same way.  An array with at least one axis, such as
    an array of characters, is not unwrapped: the result is [str] of the
    array, its printed form as numpy lays it out, which for a short
    one-dimensional array of bytes is the bracketed list of the [repr]s
    of its items. *)
Theorem decode_scalar_string_by_payload :
  (forall raw r, payload_text raw r -> decode_scalar_string rt raw = r)
  /\ (forall b, decode_scalar_string rt (PyBytes b) = decode_utf8 b)
  /\ decode_scalar_string rt (PyBytes (list_byte_of_string "pick the cube"))
     = Ok "pick the cube"
  /\ (forall s, decode_scalar_string rt (PyStr s) = Ok s)
  /\ (forall x, decode_scalar_string rt (NdArray [] [x]) = decode_scalar_string rt x)
  /\ (forall b, decode_scalar_string rt (NdArray [] [PyBytes b]) = decode_utf8 b)
  /\ (forall s, decode_scalar_string rt (NdArray [] [PyStr s]) = Ok s)
  /\ (forall n shape items,
        decode_scalar_string rt (NdArray (n :: shape) items)
        = Ok (str rt (NdArray (n :: shape) items)))
  /\ (forall n m shape items,
        decode_scalar_string rt (NdArray (n :: m :: shape) items)
        = Ok (array_str rt (n :: m :: shape) items))
  /\ (forall bs,
        (String.length (row_of_bytes bs) <= 70)%nat ->
        decode_scalar_string rt (NdArray [List.length bs] (map PyBytes bs))
        = Ok ("[" ++ join " " (map bytes_repr bs) ++ "]")%string).
Proof.
  split; [|do 7 (split; [reflexivity|]); split].
  - induction 1 as [b|s|x r _ IH]; [reflexivity | reflexivity | exact IH].
  - intros n m shape items. cbn [decode_scalar_string str]. unfold array_text.
    now destruct (all_bytes items).
  - intros bs Hlen. cbn [decode_scalar_string str]. unfold array_text.
    rewrite all_bytes_map, length_map, Nat.eqb_refl.
    apply Nat.leb_le in Hlen. now rewrite Hlen.
Qed.

End ScalarStrings.

(* ================================================================== *)
(** ** Evaluations on the sample data *)

Module Evaluations.
Import Obj Adapter Rules PyFacts AdapterFacts CheckFacts Sample.

(** The two demos come out in the order 0, 1, with no exception. *)
Lemma two_demos_order :
  map demo_id (yielded (iter_episode_views rt two_demos video_root)) = [0; 1]
  /\ raised (iter_episode_views rt two_demos video_root) = None.
Proof. split; reflexivity. Qed.

(** Demo 0 has no issue. *)
Lemma good_episode_no_issue : validate_episode_arrays good_episode = Ok [].
Proof. reflexivity. Qed.





(** Keys of three kinds as run through the iterator: the numeral 10, a
    name, and a decimal digit of another script. *)
Lemma views_of_arabic_keys :
  map episode_key (yielded (iter_episode_views rt arabic_keys video_root))
  = [arabic_three; "10"; "demo_a"]
  /\ In view_10 (yielded (iter_episode_views rt arabic_keys video_root))
  /\ is_decimal "10"
  /\ demo_id view_10 = decimal_value "10"
  /\ decimal_value "10" = 10
  /\ In view_arabic_three (yielded (iter_episode_views rt arabic_keys video_root))
  /\ decimal_key rt arabic_three
  /\ demo_id view_arabic_three = key_value rt arabic_three
  /\ key_value rt arabic_three = 3
  /\ In view_demo_a (yielded (iter_episode_views rt arabic_keys video_root))
  /\ ~ decimal_key rt "demo_a"
  /\ demo_id view_demo_a = Z.abs (hash rt "demo_a")
  /\ Z.abs (hash rt "demo_a") = 169.
Proof.
  assert (H10 : In view_10 (yielded (iter_episode_views rt arabic_keys video_root))).
  { vm_compute. right. left. reflexivity. }
  assert (H3 : In view_arabic_three
                 (yielded (iter_episode_views rt arabic_keys video_root))).
  { vm_compute. left. reflexivity. }
  assert (Ha : In view_demo_a (yielded (iter_episode_views rt arabic_keys video_root))).
  { vm_compute. right. right. left. reflexivity. }
  assert (D10 : is_decimal "10").
  { split; [discriminate|]. repeat constructor; simpl; tauto. }
  assert (D3 : decimal_key rt arabic_three).
  { apply decimal_key_int. exists 3. reflexivity. }
  assert (Da : ~ decimal_key rt "demo_a").
  { intros H. apply decimal_key_int in H as [z Hz]. vm_compute in Hz. discriminate Hz. }
  split; [reflexivity|].
  split; [exact H10|]. split; [exact D10|].
  split; [exact (proj1 (proj2 (demo_id_numeric_or_hash rt arabic_keys video_root
                                 view_10 H10)) D10)|].
  split; [reflexivity|].
  split; [exact H3|]. split; [exact D3|].
  split; [exact (proj1 (demo_id_numeric_or_hash rt arabic_keys video_root
                          view_arabic_three H3) D3)|].
  split; [reflexivity|].
  split; [exact Ha|]. split; [exact Da|].
  split; [exact (proj1 (proj2 (proj2 (demo_id_numeric_or_hash rt arabic_keys video_root
                                        view_demo_a Ha))) Da)|].
  reflexivity.
Defined.

Lemma first_split_twice :
  first_split VIDEO_PATH_MARKER "a/videos/b/videos/c.mp4" "a/" "b/videos/c.mp4".
Proof.
  split; [reflexivity|].
  intros [|c1 [|c2 before']] after' H; cbn in H |- *; try discriminate H; lia.
Defined.

Lemma marker_twice_resolved :
  occurs VIDEO_PATH_MARKER "a/videos/b/videos/c.mp4"
  /\ resolve_video_path video_root "a/videos/b/videos/c.mp4"
     = Ok (Py.joinpath video_root "b/videos/c.mp4").
Proof.
  assert (H : occurs VIDEO_PATH_MARKER "a/videos/b/videos/c.mp4").
  { exists "a/", "b/videos/c.mp4". reflexivity. }
  split; [exact H|].
  apply (proj2 (proj1 (resolve_video_path_keeps_suffix_after_first_marker
                         video_root "a/videos/b/videos/c.mp4") H) "a/").
  exact first_split_twice.
Defined.

Lemma absolute_path_kept :
  (exists rest, "/mnt/raw/episode_3.mp4" = String "/" rest)
  /\ ~ occurs VIDEO_PATH_MARKER "/mnt/raw/episode_3.mp4"
  /\ resolve_video_path video_root "/mnt/raw/episode_3.mp4"
     = Ok (Py.path_of_str "/mnt/raw/episode_3.mp4").
Proof.
  assert (H1 : exists rest, "/mnt/raw/episode_3.mp4" = String "/" rest).
  { exists "mnt/raw/episode_3.mp4". reflexivity. }
  assert (H2 : ~ occurs VIDEO_PATH_MARKER "/mnt/raw/episode_3.mp4").
  { intros H. apply contains_occurs in H. vm_compute in H. discriminate H. }
  split; [exact H1|]. split; [exact H2|].
  apply (resolve_video_path_absolute_discards_root
           video_root "/mnt/raw/episode_3.mp4" H1 H2).
Defined.


(** The missing path, and it alone, is listed. *)
Lemma missing_fps_message :
  assert_required_structure rt (file_of [("0", no_fps_episode)])
  = Raise (ValueError (MissingPaths "0" ["meta/video/fps"])).
Proof. reflexivity. Qed.



Lemma good_episode_validated :
  load_arrays good_episode = Ok good_arrays
  /\ validate_episode_arrays good_episode = Ok []
  /\ (In "length_mismatch" [] <-> ~ same_length good_arrays)
  /\ same_length good_arrays
  /\ per_step (frame_index good_arrays).
Proof.
  destruct (validate_episode_arrays_length_mismatch good_episode good_arrays eq_refl)
    as (Hret & _ & Htags).
  destruct (Htags [] eq_refl) as (_ & Hlen & Hnil).
  split; [reflexivity|]. split; [reflexivity|]. split; [exact Hlen|].
  split; [exact (proj1 (proj1 Hnil eq_refl))|].
  exact (proj1 (proj2 (proj2 (proj2 (proj1 Hret (ex_intro _ [] eq_refl)))))).
Defined.

(** An episode with its ten required paths whose frame index is stored
    as a scalar: the structure check passes and the array validator
    raises. *)
Lemma scalar_frame_index_raises :
  missing_paths scalar_frame_episode = []
  /\ assert_required_structure rt (file_of [("0", scalar_frame_episode)]) = Ok tt
  /\ (exists a, load_arrays scalar_frame_episode = Ok a)
  /\ validate_episode_arrays scalar_frame_episode = Raise TypeError
  /\ ~ (exists issues, validate_episode_arrays scalar_frame_episode = Ok issues).
Proof.
  split; [reflexivity|]. split; [reflexivity|].
  split; [eexists; reflexivity|]. split; [reflexivity|].
  intros [issues H]. discriminate H.
Qed.

Lemma nan_pose_reported :
  load_arrays nan_pose_episode = Ok nan_pose_arrays
  /\ validate_episode_arrays nan_pose_episode = Ok ["eef_pose_non_finite"]
  /\ (In "eef_pose_non_finite" ["eef_pose_non_finite"]
      <-> has_non_finite (eef_pose nan_pose_arrays)).
Proof.
  split; [reflexivity|]. split; [reflexivity|].
  apply (validate_episode_arrays_non_finite
           nan_pose_episode nan_pose_arrays ["eef_pose_non_finite"] eq_refl eq_refl).
Defined.


Lemma views_7_and_007_collide :
  episode_view rt leading_zero_episodes video_root "7" = Ok view_7
  /\ episode_view rt leading_zero_episodes video_root "007" = Ok view_007
  /\ view_7 <> view_007
  /\ demo_id view_7 = demo_id view_007
  /\ in_order rt view_7 view_007 /\ in_order rt view_007 view_7
  /\ Scripts.expected_export_name (demo_id view_7)
     = Scripts.expected_export_name (demo_id view_007)
  /\ forall camera_key,
       Scripts.output_name (demo_id view_7) camera_key
       = Scripts.output_name (demo_id view_007) camera_key.
Proof.
  split; [reflexivity|]. split; [reflexivity|].
  apply (proj1 (proj2 (proj2 (proj2 (proj2
           (sort_key_and_demo_id_not_injective rt)))))
           leading_zero_episodes video_root view_7 view_007 eq_refl eq_refl).
Defined.

Lemma wrapped_bytes_decoded :
  payload_text (NdArray [] [PyBytes (list_byte_of_string "pick the cube")])
    (Ok "pick the cube")
  /\ decode_scalar_string rt
       (NdArray [] [PyBytes (list_byte_of_string "pick the cube")])
     = Ok "pick the cube".
Proof.
  assert (H : payload_text
                (NdArray [] [PyBytes (list_byte_of_string "pick the cube")])
                (Ok "pick the cube")).
  { apply text_of_wrapped.
    exact (text_of_bytes (list_byte_of_string "pick the cube")). }
  split; [exact H|].
  apply (proj1 (decode_scalar_string_by_payload rt) _ _ H).
Defined.


(** An array of two one-byte strings h and i comes back as the printed
    form of the array, not as the text hi. *)
Lemma char_array_printed :
  decode_scalar_string rt char_array = Ok "[b'h' b'i']"
  /\ decode_scalar_string rt char_array <> Ok "hi".
Proof. split; [reflexivity | discriminate]. Qed.

End Evaluations.

(* ================================================================== *)
(** ** More facts about the store and the readers *)

Module ReaderFacts.
Import Obj Adapter Rules PyFacts AdapterFacts CheckFacts.

Lemma walk_two (ep : H5.episode) (a b : string) :
  H5.walk [a; b] (H5.Group ep) = true <->
  exists ms o, H5.lookup a ep = Some (H5.Group ms) /\ H5.lookup b ms = Some o.
Proof.
  cbn [H5.walk].
  destruct (H5.lookup a ep) as [[ms|d]|] eqn:Ea;
    [destruct (H5.lookup b ms) as [o|] eqn:Eb|..];
    (split; [intros H; try discriminate H; eauto
            | intros (ms1 & o1 & E1 & E2); congruence]).
Qed.

Lemma walk_three (ep : H5.episode) (a b c : string) :
  H5.walk [a; b; c] (H5.Group ep) = true <->
  exists ms ms' o,
    H5.lookup a ep = Some (H5.Group ms) /\ H5.lookup b ms = Some (H5.Group ms')
    /\ H5.lookup c ms' = Some o.
Proof.
  cbn [H5.walk].
  destruct (H5.lookup a ep) as [[ms|d]|] eqn:Ea;
    [destruct (H5.lookup b ms) as [[ms'|d']|] eqn:Eb;
       [destruct (H5.lookup c ms') as [o|] eqn:Ec|..]|..];
    (split; [intros H; try discriminate H; eauto 6
            | intros (ms1 & ms2 & o1 & E1 & E2 & E3); congruence]).
Qed.

(** Reading along a path succeeds exactly when the path is in the group. *)
Lemma getitem_two (ep : H5.episode) (a b : string) :
  (exists o, (g <- H5.member ep a ;; H5.getitem g b) = Ok o)
  <-> H5.walk [a; b] (H5.Group ep) = true.
Proof.
  cbn [H5.walk]. unfold H5.member, H5.getitem.
  destruct (H5.lookup a ep) as [[ms|d]|] eqn:Ea; cbn [bind];
    [unfold H5.member; destruct (H5.lookup b ms) as [o|] eqn:Eb|..];
    (split; [intros [o1 H]; try discriminate H; reflexivity
            | intros H; try discriminate H; eauto]).
Qed.

Lemma video_field_three (ep : H5.episode) (name : string) :
  (exists o, video_field ep name = Ok o)
  <-> H5.walk ["meta"; "video"; name] (H5.Group ep) = true.
Proof.
  cbn [H5.walk]. unfold video_field, meta_field, H5.member, H5.getitem.
  destruct (H5.lookup "meta" ep) as [[ms|d]|] eqn:Ea; cbn [bind];
    [unfold H5.member;
     destruct (H5.lookup "video" ms) as [[ms'|d']|] eqn:Eb; cbn [bind];
       [destruct (H5.lookup name ms') as [o|] eqn:Ec|..]|..];
    (split; [intros [o1 H]; try discriminate H; reflexivity
            | intros H; try discriminate H; eauto]).
Qed.

(** The ten required paths, component by component. *)
Lemma missing_paths_walks (ep : H5.episode) :
  missing_paths ep = [] <->
  Forall (fun c => H5.walk c (H5.Group ep) = true)
    [ ["action"; "delta_eef"]; ["obs"; "proprio"]; ["obs"; "eef_pose"];
      ["meta"; "frame_index"]; ["meta"; "timestamps"]; ["meta"; "task_text"];
      ["meta"; "video"; "path"]; ["meta"; "video"; "from_timestamp"];
      ["meta"; "video"; "to_timestamp"]; ["meta"; "video"; "fps"] ].
Proof.
  assert (C : forall path c,
             H5.contains ep path = H5.walk c (H5.Group ep) ->
             forall rest,
               filter (fun p => negb (H5.contains ep p)) (path :: rest) = [] <->
               H5.walk c (H5.Group ep) = true
               /\ filter (fun p => negb (H5.contains ep p)) rest = []).
  { intros path c E rest. cbn [filter]. rewrite E.
    destruct (H5.walk c (H5.Group ep)); cbn [negb].
    - tauto.
    - split; [discriminate | intros [? _]; discriminate]. }
  unfold missing_paths, required_episode_paths.
  rewrite !Forall_cons_iff, Forall_nil_iff.
  rewrite (C _ ["action"; "delta_eef"]) by reflexivity.
  rewrite (C _ ["obs"; "proprio"]) by reflexivity.
  rewrite (C _ ["obs"; "eef_pose"]) by reflexivity.
  rewrite (C _ ["meta"; "frame_index"]) by reflexivity.
  rewrite (C _ ["meta"; "timestamps"]) by reflexivity.
  rewrite (C _ ["meta"; "task_text"]) by reflexivity.
  rewrite (C _ ["meta"; "video"; "path"]) by reflexivity.
  rewrite (C _ ["meta"; "video"; "from_timestamp"]) by reflexivity.
  rewrite (C _ ["meta"; "video"; "to_timestamp"]) by reflexivity.
  rewrite (C _ ["meta"; "video"; "fps"]) by reflexivity.
  cbn [filter]. tauto.
Qed.

(** *** Which exceptions the readers can raise *)

Lemma read_no_key (o : H5.h5obj) (e : exn) (name : string) :
  H5.read o = Raise e -> e <> KeyError name.
Proof.
  unfold H5.read. destruct o as [ms|a]; [now intros [= <-]|].
  destruct (Np.shape a); [|discriminate].
  destruct (Np.items a); [now intros [= <-] | discriminate].
Qed.

Lemma decode_no_key (rt : runtime) (name : string) :
  forall raw e, decode_scalar_string rt raw = Raise e -> e <> KeyError name.
Proof.
  fix IH 1. intros [b|s|x|shape items] e; cbn [decode_scalar_string].
  - unfold decode_utf8. destruct (utf8_valid b); [discriminate | now intros [= <-]].
  - discriminate.
  - discriminate.
  - destruct shape; [|discriminate].
    destruct items as [|x rest]; [now intros [= <-] | apply IH].
Qed.

Lemma float_no_key (rt : runtime) (name : string) :
  (forall s, float_of_text rt s <> Raise (KeyError name)) ->
  forall v e, float rt v = Raise e -> e <> KeyError name.
Proof.
  intros Hrt. fix IH 1. intros [b|s|x|shape items] e; cbn [float].
  - intros H ->. exact (Hrt _ H).
  - intros H ->. exact (Hrt _ H).
  - discriminate.
  - destruct items as [|x [|y rest]]; [now intros [= <-] | | now intros [= <-]].
    destruct shape; [apply IH|].
    destruct (size1_array_as_scalar rt); [apply IH | now intros [= <-]].
Qed.

End ReaderFacts.

Module CheckErrors.
Import Obj Adapter Rules PyFacts AdapterFacts CheckFacts ReaderFacts.

Lemma read_at_found (ep : H5.episode) (g n : string) (ms : list (string * H5.h5obj))
    (o : H5.h5obj) :
  H5.lookup g ep = Some (H5.Group ms) -> H5.lookup n ms = Some o ->
  read_at ep g n = H5.read_array o.
Proof.
  intros Hg Hn. unfold read_at, H5.member. rewrite Hg. cbn [bind H5.getitem].
  unfold H5.member. now rewrite Hn.
Qed.

Lemma read_array_raises (o : H5.h5obj) (e : exn) :
  H5.read_array o = Raise e -> e = TypeError.
Proof. destruct o; [now intros [= <-] | discriminate]. Qed.

Lemma read_at_walk (ep : H5.episode) (g n : string) (a : Np.ndarray) :
  read_at ep g n = Ok a -> H5.walk [g; n] (H5.Group ep) = true.
Proof.
  unfold read_at. intros H. apply getitem_two.
  destruct (H5.member ep g) as [o|] eqn:E1; cbn [bind] in H |- *; [|discriminate].
  destruct (H5.getitem o n) as [d|] eqn:E2; [eauto | discriminate].
Qed.

End CheckErrors.

(* ================================================================== *)
(** ** More properties of the adapter *)

Section AdapterMore.
Import Obj Adapter Rules PyFacts AdapterFacts CheckFacts ReaderFacts CheckErrors.

Variable rt : runtime.

(** X1. The result of [validate_episode_arrays] has [delta_eef_shape_not_Tx6]
    exactly when the delta_eef array is not two-dimensional with six
    columns; for a two-dimensional array, exactly when the number of
    columns is not six. *)
Theorem validate_episode_arrays_shape_tag :
  forall (episode : H5.episode) (a : arrays) (issues : list string),
    load_arrays episode = Ok a ->
    validate_episode_arrays episode = Ok issues ->
    (In "delta_eef_shape_not_Tx6" issues <-> ~ is_Tx6 (delta_eef a))
    /\ (forall T c, Np.shape (delta_eef a) = [T; c] ->
          (In "delta_eef_shape_not_Tx6" issues <-> c <> 6%nat)).
Proof.
  intros episode a issues Hl H. rewrite (validate_loaded _ _ Hl) in H.
  destruct (check_arrays_tags _ _ H)
    as (b1 & b2 & b3 & b4 & b5 & b6 & b7 & -> & H1 & H2 & H3 & H4 & H5 & H6 & H7).
  assert (Hin : In "delta_eef_shape_not_Tx6" (tags b1 b2 b3 b4 b5 b6 b7)
                <-> ~ is_Tx6 (delta_eef a)).
  { rewrite in_tags. split.
    - intros [[_ E]|[[_ E]|[[_ E]|[[_ E]|[[_ E]|[[_ E]|[E' _]]]]]]];
        try discriminate E.
      intros Hs. apply H7 in Hs. congruence.
    - intros Hn. do 6 right. split; [|reflexivity].
      destruct b7; [reflexivity|]. elim Hn. now apply H7. }
  split; [exact Hin|].
  intros T c Hs. rewrite Hin. unfold is_Tx6. rewrite Hs. split.
  - intros Hn ->. apply Hn. now exists T.
  - intros Hc [T' [= _ ->]]. now apply Hc.
Qed.

(** X2. When none of the ten required paths is missing from an episode,
    neither the view builder nor the array validator raises a [KeyError]
    on it ([float] itself raising none). *)
Theorem required_paths_rule_out_key_errors :
  forall (episodes : list (string * H5.episode)) (video_root : Py.Path)
         (key : string) (episode : H5.episode),
    (forall s name, float_of_text rt s <> Raise (KeyError name)) ->
    H5.lookup key episodes = Some episode ->
    missing_paths episode = [] ->
    (forall name, episode_view rt episodes video_root key <> Raise (KeyError name))
    /\ (forall name, validate_episode_arrays episode <> Raise (KeyError name)).
Proof.
  intros episodes video_root key ep Hrt Hk Hm.
  apply missing_paths_walks in Hm.
  repeat (apply Forall_cons_iff in Hm; destruct Hm as [?W Hm]). clear Hm.
  apply walk_two in W as (ma & oa & La & Ld), W0 as (mo & op & Lo & Lp),
    W1 as (mo' & oe & Lo' & Le), W2 as (mm & of' & Lm & Lf),
    W3 as (mm1 & ot & Lm1 & Lt), W4 as (mm2 & ox & Lm2 & Lx).
  apply walk_three in W5 as (mm3 & mv & o1 & Lm3 & Lv & L1),
    W6 as (mm4 & mv2 & o2 & Lm4 & Lv2 & L2),
    W7 as (mm5 & mv3 & o3 & Lm5 & Lv3 & L3),
    W8 as (mm6 & mv4 & o4 & Lm6 & Lv4 & L4).
  rewrite Lo in Lo'; injection Lo' as <-.
  rewrite Lm in Lm1, Lm2, Lm3, Lm4, Lm5, Lm6.
  injection Lm1 as <-; injection Lm2 as <-; injection Lm3 as <-;
    injection Lm4 as <-; injection Lm5 as <-; injection Lm6 as <-.
  rewrite Lv in Lv2, Lv3, Lv4.
  injection Lv2 as <-; injection Lv3 as <-; injection Lv4 as <-.
  split; intros name.
  - unfold episode_view, video_field, meta_field, H5.member.
    rewrite Hk. cbn [bind]. rewrite La. cbn [bind H5.getitem].
    unfold H5.member. rewrite Ld, Lm. cbn [bind H5.getitem].
    unfold H5.member. rewrite Lx, Lv. cbn [bind H5.getitem].
    unfold H5.member. rewrite L1, L2, L3, L4. cbn [bind].
    destruct (H5.read ox) eqn:R0; cbn [bind];
      [|intros [= ->]; exact (read_no_key _ _ _ R0 eq_refl)].
    destruct (decode_scalar_string rt a) eqn:D0; cbn [bind];
      [|intros [= ->]; exact (decode_no_key _ _ _ _ D0 eq_refl)].
    destruct (H5.read o1) eqn:R1; cbn [bind];
      [|intros [= ->]; exact (read_no_key _ _ _ R1 eq_refl)].
    destruct (decode_scalar_string rt a1) eqn:D1; cbn [bind];
      [|intros [= ->]; exact (decode_no_key _ _ _ _ D1 eq_refl)].
    destruct (H5.read o2) eqn:R2; cbn [bind];
      [|intros [= ->]; exact (read_no_key _ _ _ R2 eq_refl)].
    destruct (float rt a3) eqn:F2; cbn [bind];
      [|intros [= ->]; exact (float_no_key _ _ (fun s => Hrt s name) _ _ F2 eq_refl)].
    destruct (H5.read o3) eqn:R3; cbn [bind];
      [|intros [= ->]; exact (read_no_key _ _ _ R3 eq_refl)].
    destruct (float rt a5) eqn:F3; cbn [bind];
      [|intros [= ->]; exact (float_no_key _ _ (fun s => Hrt s name) _ _ F3 eq_refl)].
    destruct (H5.read o4) eqn:R4; cbn [bind];
      [|intros [= ->]; exact (read_no_key _ _ _ R4 eq_refl)].
    destruct (float rt a7) eqn:F4; cbn [bind];
      [|intros [= ->]; exact (float_no_key _ _ (fun s => Hrt s name) _ _ F4 eq_refl)].
    destruct (demo_id_of rt key) eqn:Dk; cbn [bind].
    2:{ intros [= ->]. rewrite demo_id_of_sort_key in Dk.
        destruct (sort_key_raise _ _ _ Dk) as [E _]. discriminate E. }
    destruct oa as [ms|arr]; cbn [H5.shape bind]; [discriminate|].
    unfold Py.getitem. destruct (nth_error (Np.shape arr) 0); cbn [bind]; [|discriminate].
    destruct (resolve_total video_root a2) as [p ->]. discriminate.
  - unfold validate_episode_arrays, load_arrays.
    rewrite (read_at_found _ _ _ _ _ La Ld), (read_at_found _ _ _ _ _ Lo Lp),
      (read_at_found _ _ _ _ _ Lo Le), (read_at_found _ _ _ _ _ Lm Lf),
      (read_at_found _ _ _ _ _ Lm Lt).
    destruct (H5.read_array oa) eqn:Ra; cbn [bind];
      [|intros [= E]; apply read_array_raises in Ra; congruence].
    destruct (H5.read_array op) eqn:Rp; cbn [bind];
      [|intros [= E]; apply read_array_raises in Rp; congruence].
    destruct (H5.read_array oe) eqn:Re; cbn [bind];
      [|intros [= E]; apply read_array_raises in Re; congruence].
    destruct (H5.read_array of') eqn:Rf; cbn [bind];
      [|intros [= E]; apply read_array_raises in Rf; congruence].
    destruct (H5.read_array ot) eqn:Rt; cbn [bind];
      [|intros [= E]; apply read_array_raises in Rt; congruence].
    intros H. apply check_arrays_raise in H as [H|H]; discriminate H.
Qed.

(** X3. Conversely, an episode on which the view builder and the loading of
    the arrays both succeed misses none of the ten required paths: the
    required paths are the paths that are read. *)
Theorem required_paths_are_the_paths_read :
  forall (episodes : list (string * H5.episode)) (video_root : Py.Path)
         (key : string) (episode : H5.episode) (view : EpisodeView) (a : arrays),
    H5.lookup key episodes = Some episode ->
    episode_view rt episodes video_root key = Ok view ->
    load_arrays episode = Ok a ->
    missing_paths episode = [].
Proof.
  intros episodes video_root key ep view a Hk Hv Hl.
  apply missing_paths_walks.
  unfold load_arrays in Hl. bind_inv Hl.
  unfold episode_view, H5.member in Hv. rewrite Hk in Hv. cbn [bind] in Hv.
  bind_inv Hv.
  repeat match goal with
    | H : bind (meta_field _ _) _ = Ok _ |- _ => bind_inv H
    | H : bind (video_field _ _) _ = Ok _ |- _ => bind_inv H
    end.
  repeat constructor;
    first [ eapply read_at_walk; eassumption
          | apply getitem_two; unfold meta_field in *; eauto
          | apply video_field_three; eauto ].
Qed.

End AdapterMore.

Module PathFacts.
Import Obj Adapter Rules PyFacts AdapterFacts.

Lemma chars_app (s t : string) :
  list_ascii_of_string (s ++ t) = list_ascii_of_string s ++ list_ascii_of_string t.
Proof. induction s as [|c s IH]; cbn; [reflexivity | now rewrite IH]. Qed.

Lemma split_slash_no_slash (s : string) : forall cur,
  ~ In "/"%char (list_ascii_of_string cur) ->
  Forall (fun x => ~ In "/"%char (list_ascii_of_string x)) (Py.split_slash cur s).
Proof.
  induction s as [|c t IH]; intros cur Hc; cbn [Py.split_slash].
  - now constructor.
  - destruct (Ascii.eqb_spec c "/") as [->|Hne].
    + constructor; [exact Hc|]. apply IH. cbn. tauto.
    + apply IH. rewrite chars_app, in_app_iff. cbn. intuition congruence.
Qed.

(** The components of a path are not empty, are not the dot, and hold no
    slash. *)
Lemma path_of_str_parts (s : string) :
  Forall (fun x => x <> EmptyString /\ x <> "."
                   /\ ~ In "/"%char (list_ascii_of_string x))
    (Py.parts (Py.path_of_str s)).
Proof.
  unfold Py.path_of_str. destruct (Py.splitroot s) as [root rel]. cbn [Py.parts].
  rewrite Forall_forall. intros x Hx. apply filter_In in Hx as [Hin Hk].
  unfold Py.keep_part in Hk. apply andb_true_iff in Hk as [H1 H2].
  apply negb_true_iff in H1, H2.
  repeat split.
  - intros ->. now rewrite String.eqb_refl in H1.
  - intros ->. now rewrite String.eqb_refl in H2.
  - pose proof (split_slash_no_slash rel EmptyString) as F.
    rewrite Forall_forall in F. apply F; [cbn; tauto | exact Hin].
Qed.

End PathFacts.

Section AdapterMore2.
Import Obj Adapter Rules PyFacts AdapterFacts CheckFacts ReaderFacts CheckErrors PathFacts.

Variable rt : runtime.

(** X4. Every view that [iter_episode_views] yields belongs to an episode of
    the container: its key is a key of the container, so that looking the
    episode up again by that key succeeds; its [num_steps] is the length
    of the delta_eef array that the array validator compares the other
    arrays with; and its resolved path is the resolution of its raw path
    against the video root. *)
Theorem yielded_views_match_their_episodes :
  forall (dataset : H5.File) (video_root : Py.Path)
         (episodes : list (string * H5.episode)) (view : EpisodeView),
    H5.episodes dataset = Some episodes ->
    In view (yielded (iter_episode_views rt dataset video_root)) ->
    In (episode_key view) (H5.keys episodes)
    /\ (exists episode,
          H5.member episodes (episode_key view) = Ok episode
          /\ 0 <= num_steps view
          /\ forall a, load_arrays episode = Ok a ->
                       Np.len (delta_eef a) = Ok (Z.to_nat (num_steps view)))
    /\ resolve_video_path video_root (video_path_hdf5 view)
       = Ok (video_path_resolved view).
Proof.
  intros dataset video_root episodes view Hds Hin.
  destruct (iter_yielded_in _ _ _ _ _ Hds Hin) as (key & ordered & _ & _ & _ & Hkey & Hv).
  unfold episode_view in Hv. bind_inv Hv. injection Hv as <-.
  cbn [episode_key num_steps video_path_hdf5 video_path_resolved].
  split; [exact Hkey|]. split; [|assumption].
  exists a. split; [assumption|]. split; [lia|].
  intros arr Hl. rewrite Nat2Z.id.
  unfold load_arrays in Hl. bind_inv Hl. injection Hl as <-. cbn [delta_eef].
  unfold read_at in *.
  destruct (H5.member a "action") as [g|]; cbn [bind] in *; [|discriminate].
  destruct (H5.getitem g "delta_eef") as [d|]; cbn [bind] in *; [|discriminate].
  match goal with H : Ok d = Ok ?x |- _ => injection H as <- end.
  destruct d as [ms|arr0]; cbn [H5.read_array H5.shape bind] in *; [discriminate|].
  match goal with H : Ok arr0 = Ok ?x |- _ => injection H as <- end.
  unfold Np.len, Py.getitem in *.
  destruct (Np.shape arr0) as [|n0 sh]; cbn in *; congruence.
Qed.

(** X5. The keys of the yielded views are pairwise distinct when the names in
    the container are. *)
Theorem yielded_keys_are_distinct :
  forall (dataset : H5.File) (video_root : Py.Path)
         (episodes : list (string * H5.episode)),
    H5.episodes dataset = Some episodes ->
    NoDup (H5.keys episodes) ->
    NoDup (map episode_key (yielded (iter_episode_views rt dataset video_root))).
Proof.
  intros dataset video_root episodes Hds Hn.
  unfold iter_episode_views, get_episode_group. rewrite Hds.
  destruct (Py.sort_by_key (_sort_key rt) (H5.keys episodes)) as [ordered|e] eqn:Es;
    [|constructor].
  destruct (yield_views_keys rt episodes video_root ordered) as [rest [Hk _]].
  assert (Hs : NoDup ordered).
  { eapply Permutation_NoDup; [symmetry; exact (sort_by_key_perm _ _ _ Es) | exact Hn]. }
  rewrite Hk in Hs. eapply NoDup_app_remove_r. exact Hs.
Qed.


End AdapterMore2.

(* ================================================================== *)
(** ** Facts about numerals and file names *)

Module NameFacts.
Import PyMore Names PyFacts PathFacts.

(** *** Decimal numerals *)

Lemma string_of_uint_digits (d : Decimal.uint) :
  Py.all_digits (NilEmpty.string_of_uint d) = true.
Proof. induction d; cbn [NilEmpty.string_of_uint Py.all_digits]; auto. Qed.

Lemma decimal_digits (n : N) : Py.all_digits (Py.decimal n) = true.
Proof.
  unfold Py.decimal, NilZero.string_of_uint.
  destruct (N.to_uint n); try apply string_of_uint_digits. reflexivity.
Qed.

Lemma decimal_not_empty (n : N) : Py.decimal n <> EmptyString.
Proof.
  unfold Py.decimal, NilZero.string_of_uint.
  destruct (N.to_uint n); discriminate.
Qed.

Lemma int_digits_of_uint_acc (d : Decimal.uint) : forall acc : positive,
  Py.int_digits (Z.pos acc) (NilEmpty.string_of_uint d)
  = Z.pos (Pos.of_uint_acc d acc).
Proof.
  induction d; intros acc;
    cbn [NilEmpty.string_of_uint Py.int_digits Pos.of_uint_acc];
    [reflexivity|..];
    rewrite <- IHd; f_equal; unfold Py.digit_value;
    match goal with
    | |- context [Z.of_nat (nat_of_ascii ?c)] =>
        let v := eval vm_compute in (Z.of_nat (nat_of_ascii c)) in
        change (Z.of_nat (nat_of_ascii c)) with v
    end; lia.
Qed.

Lemma int_digits_of_uint (d : Decimal.uint) :
  Py.int_digits 0 (NilEmpty.string_of_uint d) = Z.of_N (Pos.of_uint d).
Proof.
  induction d; cbn [NilEmpty.string_of_uint Py.int_digits Pos.of_uint];
    [reflexivity | exact IHd |..];
    cbn [Z.of_N]; rewrite <- int_digits_of_uint_acc; reflexivity.
Qed.

Lemma int_decimal (n : N) : Py.int_of_digits (Py.decimal n) = Z.of_N n.
Proof.
  unfold Py.int_of_digits, Py.decimal, NilZero.string_of_uint.
  rewrite <- (DecimalN.Unsigned.of_to n) at 2. unfold N.of_uint.
  destruct (N.to_uint n) eqn:E; try (rewrite <- int_digits_of_uint; reflexivity).
Qed.

Lemma zeros_digits (k : nat) (s : string) :
  Py.all_digits (Py.zeros k ++ s) = Py.all_digits s.
Proof. induction k; cbn; auto. Qed.

Lemma int_digits_zeros (k : nat) (s : string) :
  Py.int_digits 0 (Py.zeros k ++ s) = Py.int_digits 0 s.
Proof. induction k; cbn [Py.zeros append Py.int_digits]; auto. Qed.

Lemma zfill_not_empty (w : nat) (s : string) :
  s <> EmptyString -> Py.zfill w s <> EmptyString.
Proof.
  unfold Py.zfill. intros H E. destruct (Py.zeros _); cbn in E; [auto | discriminate].
Qed.

(** The padded numeral of a natural number: digits only, at least one,
    and [int] reads it back. *)
Lemma format_d_spec (w : nat) (d : Z) :
  0 <= d ->
  Py.all_digits (format_d w d) = true
  /\ format_d w d <> EmptyString
  /\ Py.int_of_digits (format_d w d) = d.
Proof.
  intros Hd. unfold format_d. destruct (Z.ltb_spec d 0) as [|_]; [lia|].
  unfold Py.zfill. repeat split.
  - rewrite zeros_digits. apply decimal_digits.
  - apply zfill_not_empty, decimal_not_empty.
  - unfold Py.int_of_digits. rewrite int_digits_zeros.
    change (Py.int_digits 0 (Py.decimal (Z.to_N d))) with (Py.int_of_digits (Py.decimal (Z.to_N d))).
    rewrite int_decimal. lia.
Qed.

Lemma format_04d_is_format_d (d : Z) : Py.format_04d d = format_d 4 d.
Proof. reflexivity. Qed.

(** *** Cutting strings *)

Lemma append_assoc (a b c : string) : ((a ++ b) ++ c = a ++ (b ++ c))%string.
Proof. induction a as [|x a IH]; cbn; [reflexivity | now rewrite IH]. Qed.

Lemma append_length (a b : string) :
  String.length (a ++ b) = (String.length a + String.length b)%nat.
Proof. induction a as [|x a IH]; cbn; [reflexivity | now rewrite IH]. Qed.

Lemma append_inv_head (a b c : string) : (a ++ b = a ++ c)%string -> b = c.
Proof. induction a as [|x a IH]; cbn; [auto | intros [= H]; auto]. Qed.

Lemma remove_prefix_app (p x : string) : remove_prefix p (p ++ x) = Some x.
Proof.
  unfold remove_prefix.
  assert (H : prefix p (p ++ x) = true) by (apply prefix_spec; now exists x).
  now rewrite H, drop_app.
Qed.

Lemma span_digits (ds : string) (c : ascii) (rest : string) :
  Py.all_digits ds = true -> Py.is_ascii_digit c = false ->
  span Py.is_ascii_digit (ds ++ String c rest) = (ds, String c rest).
Proof.
  intros Hd Hc. induction ds as [|x ds IH]; cbn [append span].
  - now rewrite Hc.
  - cbn [Py.all_digits] in Hd. apply andb_true_iff in Hd as [Hx Hds].
    rewrite Hx, (IH Hds). reflexivity.
Qed.

Lemma remove_suffix_eq (suffix s : string) :
  remove_suffix suffix s
  = if String.eqb s suffix then Some EmptyString
    else match s with
         | EmptyString => None
         | String c t =>
             match remove_suffix suffix t with
             | Some r => Some (String c r)
             | None => None
             end
         end.
Proof. destruct s; reflexivity. Qed.

Lemma remove_suffix_app (suffix pre : string) :
  remove_suffix suffix (pre ++ suffix) = Some pre.
Proof.
  induction pre as [|c pre IH]; rewrite remove_suffix_eq.
  - cbn [append]. now rewrite String.eqb_refl.
  - destruct (String.eqb_spec (String c pre ++ suffix) suffix) as [E|_].
    + apply (f_equal String.length) in E. rewrite append_length in E.
      cbn [String.length] in E. lia.
    + cbn [append]. now rewrite IH.
Qed.

Lemma append_inv_tail (a b suffix : string) :
  (a ++ suffix = b ++ suffix)%string -> a = b.
Proof.
  intros H. apply (f_equal (remove_suffix suffix)) in H.
  rewrite !remove_suffix_app in H. now injection H.
Qed.

Lemma chomp_cons (c : ascii) (t : string) :
  t <> EmptyString -> chomp (String c t) = String c (chomp t).
Proof. destruct t; [congruence | reflexivity]. Qed.

Lemma chomp_mp4 (x : string) : chomp (x ++ ".mp4") = (x ++ ".mp4")%string.
Proof.
  induction x as [|c x IH]; [reflexivity|].
  cbn [append]. rewrite chomp_cons, IH; [reflexivity|].
  destruct x; discriminate.
Qed.

Lemma has_char_in (c : ascii) (s : string) :
  has_char c s = true <-> In c (list_ascii_of_string s).
Proof.
  induction s as [|d t IH]; cbn; [split; [discriminate | contradiction]|].
  rewrite orb_true_iff, IH, Ascii.eqb_eq. tauto.
Qed.

Lemma replace_char_chars (a b c : ascii) (s : string) :
  In c (list_ascii_of_string (replace_char a b s)) ->
  c <> a \/ b = a.
Proof.
  induction s as [|d t IH]; cbn; [contradiction|].
  intros [H|H]; [|auto].
  destruct (Ascii.eqb_spec d a) as [->|Hne]; subst.
  - destruct (ascii_dec c a); auto.
  - now left.
Qed.

Lemma replace_char_keeps_out (a b c : ascii) (s : string) :
  c <> b -> ~ In c (list_ascii_of_string s) ->
  ~ In c (list_ascii_of_string (replace_char a b s)).
Proof.
  intros Hb. induction s as [|d t IH]; cbn; [auto|].
  intros Hn [H|H]; [|apply IH; tauto].
  destruct (Ascii.eqb d a); [congruence | tauto].
Qed.

Lemma take_chars (c : ascii) (n : nat) (s : string) :
  ~ In c (list_ascii_of_string s) -> ~ In c (list_ascii_of_string (take n s)).
Proof.
  revert s. induction n as [|n IH]; intros [|d t]; cbn; auto.
  intros Hn [H|H]; [tauto | eapply IH; [|exact H]; tauto].
Qed.

Lemma name_no_slash (p : string) :
  ~ In "/"%char (list_ascii_of_string (name (Py.path_of_str p))).
Proof.
  unfold name. pose proof (path_of_str_parts p) as F.
  destruct (Py.parts (Py.path_of_str p)) as [|x l] eqn:E; [cbn; tauto|].
  rewrite Forall_forall in F.
  assert (Hin : In (last (x :: l) EmptyString) (x :: l)).
  { clear. revert x. induction l as [|y l IH]; intros x; [now left|].
    right. apply (IH y). }
  apply (F _ Hin).
Qed.

End NameFacts.

(* ================================================================== *)
(** ** Properties of the file names *)

Section FileNames.
Import PyMore Names PyFacts PathFacts NameFacts.

(** X8. The camera key that [infer_camera_key] returns holds neither a dot
    nor a slash, whatever the raw path; it is [front] as soon as the
    lower-cased path mentions the front camera, also when it mentions a
    wrist too. *)
Theorem infer_camera_key_is_a_name_part :
  forall raw : string,
    ~ In "."%char (list_ascii_of_string (infer_camera_key raw))
    /\ ~ In "/"%char (list_ascii_of_string (infer_camera_key raw))
    /\ (Py.contains "observation.images.front" (lower raw) = true ->
        infer_camera_key raw = "front").
Proof.
  intros raw. unfold infer_camera_key.
  destruct (Py.contains "observation.images.front" (lower raw)).
  - repeat split; cbn; intuition discriminate.
  - destruct (Py.contains "wrist" (lower raw)).
    + repeat split; try discriminate; cbn; intuition discriminate.
    + repeat split; try discriminate.
      * intros H. apply replace_char_chars in H as [H|H]; [now apply H | discriminate].
      * apply replace_char_keeps_out; [discriminate|].
        unfold stem. destruct (_ && _); [apply take_chars|]; apply name_no_slash.
Qed.

(** X9. The transfer script reads back what the export script writes: for a
    demo id that is not negative and a camera key that is not empty and
    holds no newline, [parse_demo_filename] of the export name is that
    demo id and that camera key; for the name the validation manifest
    expects, the demo id and [front].  An export name with an empty camera
    key, or with a negative demo id, does not match the pattern. *)
Theorem parse_demo_filename_inverts_output_name :
  (forall d c,
     0 <= d -> c <> EmptyString -> has_char newline c = false ->
     parse_demo_filename (Scripts.output_name d c) = Some (d, c))
  /\ (forall d, 0 <= d ->
        parse_demo_filename (Scripts.expected_export_name d) = Some (d, "front"))
  /\ (forall d, parse_demo_filename (Scripts.output_name d EmptyString) = None)
  /\ (forall d c, d < 0 -> parse_demo_filename (Scripts.output_name d c) = None).
Proof.
  assert (P : forall d tail,
             0 <= d ->
             parse_demo_filename ("demo_" ++ Py.format_04d d ++ "_" ++ tail ++ ".mp4")
             = match tail with
               | EmptyString => None
               | String _ _ =>
                   if has_char newline tail then None else Some (d, tail)
               end).
  { intros d tail Hd. unfold parse_demo_filename.
    replace ("demo_" ++ Py.format_04d d ++ "_" ++ tail ++ ".mp4")%string
      with (("demo_" ++ Py.format_04d d ++ "_" ++ tail) ++ ".mp4")%string
      by (now rewrite !append_assoc).
    rewrite chomp_mp4. rewrite !append_assoc. rewrite remove_prefix_app.
    change ("_" ++ tail ++ ".mp4")%string with (String "_" (tail ++ ".mp4")).
    rewrite format_04d_is_format_d.
    destruct (format_d_spec 4 d Hd) as (Ha & Hn & Hi).
    rewrite span_digits by (exact Ha || reflexivity).
    remember (format_d 4 d) as f eqn:Ef. destruct f; [congruence|].
    rewrite remove_suffix_app, Hi. reflexivity. }
  split; [|split; [|split]].
  - intros d c Hd Hc Hn. unfold Scripts.output_name. rewrite (P d c Hd).
    destruct c; [congruence|]. now rewrite Hn.
  - intros d Hd. unfold Scripts.expected_export_name.
    change ("demo_" ++ Py.format_04d d ++ "_front.mp4")%string
      with ("demo_" ++ Py.format_04d d ++ "_" ++ "front" ++ ".mp4")%string.
    now rewrite (P d "front" Hd).
  - intros d. destruct (Z.ltb_spec d 0) as [Hneg|Hd].
    + unfold Scripts.output_name, parse_demo_filename, Py.format_04d.
      rewrite (proj2 (Z.ltb_lt d 0) Hneg).
      replace ("demo_" ++ String "-" (Py.zfill 3 (Py.decimal (Z.to_N (- d)))) ++ "_" ++ "" ++ ".mp4")%string
        with (("demo_" ++ String "-" (Py.zfill 3 (Py.decimal (Z.to_N (- d)))) ++ "_") ++ ".mp4")%string
        by (now rewrite !append_assoc).
      rewrite chomp_mp4. reflexivity.
    + unfold Scripts.output_name. now rewrite (P d EmptyString Hd).
  - intros d c Hneg.
    unfold Scripts.output_name, parse_demo_filename, Py.format_04d.
    rewrite (proj2 (Z.ltb_lt d 0) Hneg).
    replace ("demo_" ++ String "-" (Py.zfill 3 (Py.decimal (Z.to_N (- d)))) ++ "_" ++ c ++ ".mp4")%string
      with (("demo_" ++ String "-" (Py.zfill 3 (Py.decimal (Z.to_N (- d)))) ++ "_" ++ c) ++ ".mp4")%string
      by (now rewrite !append_assoc).
    rewrite chomp_mp4. reflexivity.
Qed.

(** X10. The name that the validation manifest expects for a demo is the name
    under which the export script writes it exactly when the camera key
    is [front]. *)
Theorem expected_export_name_is_the_front_export :
  forall (d : Z) (camera_key : string),
    Scripts.expected_export_name d = Scripts.output_name d camera_key
    <-> camera_key = "front".
Proof.
  intros d c. unfold Scripts.expected_export_name, Scripts.output_name. split.
  - intros H. apply append_inv_head in H. apply append_inv_head in H.
    change "_front.mp4" with ("_" ++ "front" ++ ".mp4")%string in H.
    apply append_inv_head in H. symmetry. eapply append_inv_tail. exact H.
  - intros ->. reflexivity.
Qed.

End FileNames.

(* ================================================================== *)
(** ** The validation and export stages *)

Module StageFacts.
Import Obj Adapter PyFacts AdapterFacts ValidateTransfer StageRules.

Lemma list_of_ok (tr : trace) (views : list EpisodeView) :
  list_of tr = Ok views -> views = yielded tr /\ raised tr = None.
Proof.
  unfold list_of. destruct (raised tr); [discriminate|].
  intros [= <-]. split; reflexivity.
Qed.

Lemma check_view_step pe eps st v st' :
  check_view pe eps st v = Ok st' ->
  lines st' = lines st
              ++ [{| record_view := v;
                     video_exists := pe (video_path_resolved v);
                     expected_export_name :=
                       Scripts.expected_export_name (demo_id v) |}]
  /\ exists extra,
       found_issues st' = found_issues st ++ extra
       /\ (extra = [] <-> clean pe eps v)
       /\ forall r, In r extra ->
            issue_episode_key r = episode_key v /\ issues r <> [].
Proof.
  unfold check_view, clean. intros H.
  destruct (H5.member eps (episode_key v)) as [ep|] eqn:Em; cbn [bind] in H;
    [|discriminate].
  destruct (validate_episode_arrays ep) as [iss|] eqn:Ev; cbn [bind] in H;
    [|discriminate].
  injection H as <-. cbn [lines found_issues]. split; [reflexivity|].
  destruct (append_if (negb (pe (video_path_resolved v))) "video_file_missing" iss)
    as [|i rest] eqn:Ea.
  - exists []. rewrite app_nil_r. split; [reflexivity|].
    split; [|intros r []].
    split; [intros _|reflexivity].
    unfold append_if in Ea.
    destruct (pe (video_path_resolved v)); cbn [negb] in Ea.
    + subst iss. split; [reflexivity|]. now exists ep.
    + now destruct iss.
  - eexists. split; [reflexivity|]. split.
    + split; [discriminate|]. intros [Hp [ep' [Hm Hv]]].
      rewrite Hp in Ea. cbn [negb append_if] in Ea.
      assert (ep' = ep) by congruence. subst ep'.
      rewrite Ev in Hv. injection Hv as ->. discriminate.
    + intros r [<-|[]]. cbn. split; [reflexivity|discriminate].
Qed.

Lemma check_views_steps pe eps views : forall st st',
  check_views pe eps st views = Ok st' ->
  map record_view (lines st') = map record_view (lines st) ++ views
  /\ (Forall (fun r => video_exists r = pe (video_path_resolved (record_view r))
                       /\ expected_export_name r
                          = Scripts.expected_export_name (demo_id (record_view r)))
        (lines st) ->
      Forall (fun r => video_exists r = pe (video_path_resolved (record_view r))
                       /\ expected_export_name r
                          = Scripts.expected_export_name (demo_id (record_view r)))
        (lines st'))
  /\ exists extra,
       found_issues st' = found_issues st ++ extra
       /\ (extra = [] <-> Forall (clean pe eps) views)
       /\ forall r, In r extra ->
            (exists v, In v views /\ issue_episode_key r = episode_key v)
            /\ issues r <> [].
Proof.
  induction views as [|v vs IH]; intros st st' H; cbn [check_views] in H.
  - injection H as <-. rewrite app_nil_r. split; [reflexivity|].
    split; [auto|]. exists []. rewrite app_nil_r. split; [reflexivity|].
    split; [|intros r []]. split; [constructor|reflexivity].
  - destruct (check_view pe eps st v) as [st1|] eqn:E1; cbn [bind] in H;
      [|discriminate].
    apply check_view_step in E1 as [Hl [ex1 [Hf [Hc Hr]]]].
    apply IH in H as [Hl' [Hall [ex2 [Hf' [Hc' Hr']]]]].
    split; [|split].
    + rewrite Hl', Hl, map_app, <- app_assoc. reflexivity.
    + intros Hst. apply Hall. rewrite Hl. apply Forall_app. split; [exact Hst|].
      constructor; [|constructor]. cbn. split; reflexivity.
    + exists (ex1 ++ ex2). split; [now rewrite Hf', Hf, app_assoc|]. split.
      * split.
        -- intros He. apply app_eq_nil in He as [H1 H2].
           constructor; [now apply Hc | now apply Hc'].
        -- intros Hv. inversion Hv; subst.
           replace ex1 with (@nil issue_record) by (symmetry; now apply Hc).
           now apply Hc'.
      * intros r Hin. apply in_app_or in Hin as [Hin|Hin].
        -- destruct (Hr r Hin) as [Hk Hi]. split; [|exact Hi].
           exists v. split; [now left | exact Hk].
        -- destruct (Hr' r Hin) as [[v' [Hv' Hk]] Hi]. split; [|exact Hi].
           exists v'. split; [now right | exact Hk].
Qed.

Lemma assert_ok_nonempty rt h5 :
  assert_required_structure rt h5 = Ok tt ->
  exists episodes, H5.episodes h5 = Some episodes /\ H5.keys episodes <> [].
Proof.
  unfold assert_required_structure, get_episode_group.
  destruct (H5.episodes h5) as [eps|]; cbn [bind]; [|discriminate].
  intros H. exists eps. split; [reflexivity|].
  destruct (H5.keys eps); [discriminate H | discriminate].
Qed.

Lemma listed_views rt h5 root eps views :
  H5.episodes h5 = Some eps ->
  list_of (iter_episode_views rt h5 root) = Ok views ->
  views = yielded (iter_episode_views rt h5 root)
  /\ Permutation (map episode_key views) (H5.keys eps).
Proof.
  intros He Hl. apply list_of_ok in Hl as [-> Hr]. split; [reflexivity|].
  unfold iter_episode_views, get_episode_group in *. rewrite He in *.
  destruct (Py.sort_by_key (_sort_key rt) (H5.keys eps)) as [ordered|e] eqn:Es;
    [|discriminate Hr].
  destruct (yield_views_keys rt eps root ordered) as [rest [Hk Hn]].
  cbv zeta in Hn. rewrite (Hn Hr), app_nil_r in Hk. rewrite <- Hk.
  exact (sort_by_key_perm _ _ _ Es).
Qed.

End StageFacts.

Module ExportFacts.
Import Obj Adapter ExportMp4 StageRules.

Lemma Qle_bool_sub (a b : Q) : Qle_bool (a - b) 0 = Qle_bool a b.
Proof.
  apply eq_true_iff_eq. rewrite !Qle_bool_iff. split; intros H.
  - apply (Qplus_le_l _ _ (- b)). setoid_replace (b + - b)%Q with 0%Q by ring.
    exact H.
  - apply (Qplus_le_l _ _ (- b)) in H.
    setoid_replace (b + - b)%Q with 0%Q in H by ring. exact H.
Qed.

(** The test of [clip_video_ffmpeg]: the duration is rejected unless the
    segment starts before it ends. *)
Lemma invalid_duration (start_sec end_sec : Np.scalar) :
  le0 (max0 (Np.sub end_sec start_sec)) = negb (Np.lt start_sec end_sec).
Proof.
  destruct start_sec as [s| | |], end_sec as [e| | |]; try reflexivity.
  unfold max0. cbn [Np.sub Np.lt].
  destruct (Qle_bool (e - s) 0) eqn:E; cbn [negb le0].
  - change (Qle_bool 0 0) with true. now rewrite <- Qle_bool_sub, E.
  - now rewrite E, <- Qle_bool_sub, E.
Qed.

Lemma max0_positive (x : Np.scalar) : le0 (max0 x) = false -> max0 x = x.
Proof.
  unfold max0. destruct (Np.lt (Np.Finite 0) x); [reflexivity|].
  discriminate.
Qed.

Section Machine.
Context {W : Type} (sys : system W).

Lemma count_status_app s l r :
  count_status s (l ++ [r])
  = (count_status s l + count_status s [r])%nat.
Proof. unfold count_status. now rewrite filter_app, length_app. Qed.

Lemma export_view_step args w t view :
  counted t ->
  let '(w', t') := export_view sys args (w, t) view in
  counted t'
  /\ map row_view (manifest_rows t') = map row_view (manifest_rows t) ++ [view]
  /\ (dry_run args = true -> w' = w /\ checksums t' = checksums t
                              /\ failed_exports t' = failed_exports t).
Proof.
  intros (H1 & H2 & H3 & H4 & H5).
  unfold export_view, counted.
  destruct (dry_run args) eqn:Ed; cbn [negb];
    rewrite ?andb_false_r, ?andb_true_r;
    destruct (negb (path_exists sys w (video_path_resolved view)));
    [ | destruct (path_exists sys w _ && negb (overwrite args)) | |
      destruct (path_exists sys w _ && negb (overwrite args));
      [ | destruct (clip_video_ffmpeg sys w _ _ _ _ _) as [[|] w1] ] ];
    cbn [andb exported_count skipped_existing missing_sources
         failed_exports manifest_rows checksums];
    rewrite !count_status_app, map_app;
    try (destruct (path_exists sys _ _));
    cbn; rewrite ?length_app; cbn;
    repeat split; try lia; try reflexivity; try discriminate.
Qed.

Lemma export_views_fold args views : forall w t w' t',
  counted t ->
  fold_left (export_view sys args) views (w, t) = (w', t') ->
  counted t'
  /\ map row_view (manifest_rows t') = map row_view (manifest_rows t) ++ views
  /\ (dry_run args = true -> w' = w /\ checksums t' = checksums t
                              /\ failed_exports t' = failed_exports t).
Proof.
  induction views as [|v vs IH]; intros w t w' t' Hc H; cbn [fold_left] in H.
  - injection H as <- <-. rewrite app_nil_r. auto.
  - pose proof (export_view_step args w t v Hc) as Hs.
    destruct (export_view sys args (w, t) v) as [w1 t1].
    destruct Hs as (Hc1 & Hr1 & Hd1).
    apply IH in H as (Hc' & Hr' & Hd'); [|exact Hc1].
    split; [exact Hc'|]. split.
    + rewrite Hr', Hr1, <- app_assoc. reflexivity.
    + intros Hd. destruct (Hd1 Hd) as (-> & <- & <-). now apply Hd'.
Qed.

Lemma counted_empty : counted empty_tally.
Proof. repeat split; cbn; lia. Qed.

Lemma count_status_total (rows : list row) :
  (count_status Exported rows + count_status SkippedExisting rows
   + count_status MissingSource rows + count_status Failed rows
   = List.length rows)%nat.
Proof.
  unfold count_status. induction rows as [|r rows IH]; [reflexivity|].
  cbn [filter]. destruct (row_status r); cbn [List.length]; lia.
Qed.

Lemma count_status_zero s (rows : list row) :
  count_status s rows = 0%nat <-> forall r, In r rows -> row_status r <> s.
Proof.
  unfold count_status. induction rows as [|r rows IH].
  - split; [intros _ r [] | reflexivity].
  - cbn [filter]. split.
    + intros H x [<-|Hx].
      * destruct (row_status r), s; cbn in H; try discriminate; congruence.
      * apply IH; [|exact Hx].
        destruct (row_status r), s; cbn in H; try discriminate; exact H.
    + intros H. pose proof (H r (or_introl eq_refl)) as Hr.
      assert (Ht : forall x, In x rows -> row_status x <> s)
        by (intros x Hx; apply H; now right).
      apply IH in Ht.
      destruct (row_status r), s; cbn; try exact Ht; congruence.
Qed.

End Machine.
End ExportFacts.

Section Stages.
Import Obj Adapter PyFacts AdapterFacts StageRules StageFacts ExportFacts.

Variable rt : runtime.

(** X11. 00a_validate_transfer.py: when the stage gets as far as its report,
    the manifest has one line for each episode of the container, in the
    order of the iterator, at least one; no lookup of an episode by the
    key of its view failed; every line says whether the resolved video
    exists and names the front export of its demo; and the stage passes,
    that is it reports no issue, exactly when every episode validates
    without issue and has its video.  The number of missing videos is the
    number of episodes whose video does not exist. *)
Theorem validate_transfer_passes_iff_every_episode_is_clean :
  forall (path_exists : Py.Path -> bool) (h5_file : H5.File)
         (video_root : Py.Path) (rep : ValidateTransfer.report),
    ValidateTransfer.validate_transfer rt path_exists h5_file video_root = Ok rep ->
    exists episodes,
      H5.episodes h5_file = Some episodes
      /\ map ValidateTransfer.record_view (ValidateTransfer.manifest rep)
         = yielded (iter_episode_views rt h5_file video_root)
      /\ Permutation
           (map (fun r => episode_key (ValidateTransfer.record_view r))
              (ValidateTransfer.manifest rep))
           (H5.keys episodes)
      /\ ValidateTransfer.episodes_total rep
         = List.length (ValidateTransfer.manifest rep)
      /\ (0 < ValidateTransfer.episodes_total rep)%nat
      /\ Forall (fun r =>
                   ValidateTransfer.video_exists r
                   = path_exists (video_path_resolved (ValidateTransfer.record_view r))
                   /\ ValidateTransfer.expected_export_name r
                      = Scripts.output_name
                          (demo_id (ValidateTransfer.record_view r)) "front")
           (ValidateTransfer.manifest rep)
      /\ (ValidateTransfer.validation_passed rep = true
          <-> forall view,
                In view (yielded (iter_episode_views rt h5_file video_root)) ->
                path_exists (video_path_resolved view) = true
                /\ exists episode,
                     H5.member episodes (episode_key view) = Ok episode
                     /\ validate_episode_arrays episode = Ok [])
      /\ ValidateTransfer.missing_video_files rep
         = List.length
             (filter (fun view => negb (path_exists (video_path_resolved view)))
                (yielded (iter_episode_views rt h5_file video_root))).
Proof.
  intros pe h5 root rep H.
  unfold ValidateTransfer.validate_transfer in H.
  destruct (assert_required_structure rt h5) as [[]|] eqn:Ea; cbn [bind] in H;
    [|discriminate].
  destruct (assert_ok_nonempty _ _ Ea) as [eps [He Hne]].
  unfold get_episode_group in H. rewrite He in H. cbn [bind] in H.
  destruct (ValidateTransfer.list_of _) as [views|] eqn:El; cbn [bind] in H;
    [|discriminate].
  destruct (listed_views _ _ _ _ _ He El) as [Hv Hp].
  destruct (ValidateTransfer.check_views _ _ _ _) as [st|] eqn:Ec; cbn [bind] in H;
    [|discriminate].
  injection H as <-.
  apply check_views_steps in Ec as (Hl & Hall & extra & Hf & Hc & _).
  cbn [ValidateTransfer.lines ValidateTransfer.found_issues map app] in Hl, Hf, Hall.
  specialize (Hall (Forall_nil _)).
  exists eps.
  cbn [ValidateTransfer.manifest ValidateTransfer.episodes_total
       ValidateTransfer.missing_video_files].
  assert (Hlen : List.length views = List.length (ValidateTransfer.lines st)).
  { rewrite <- Hl. now rewrite length_map. }
  split; [exact He|]. split; [now rewrite Hl|]. split.
  { rewrite <- (map_map ValidateTransfer.record_view episode_key), Hl. exact Hp. }
  split; [exact Hlen|]. split.
  { apply Permutation_length in Hp. rewrite length_map in Hp.
    destruct (H5.keys eps); [congruence|]. cbn in Hp. lia. }
  split.
  { eapply Forall_impl; [|exact Hall]. intros r [H1 H2]. split; [exact H1|].
    rewrite H2. reflexivity. }
  split.
  { unfold ValidateTransfer.validation_passed. cbn [ValidateTransfer.issue_records].
    rewrite Hf, <- Hv. rewrite <- Forall_forall.
    split.
    - intros Hx. apply Hc. destruct extra; [reflexivity | discriminate Hx].
    - intros Hx. apply Hc in Hx. rewrite Hx. reflexivity. }
  rewrite <- Hv, <- Hl.
  clear - Hall. induction (ValidateTransfer.lines st) as [|r rs IH]; [reflexivity|].
  inversion Hall as [|? ? [Hr _] Hrs]; subst. cbn [map filter].
  rewrite Hr. destruct (negb _); cbn [List.length]; now rewrite IH.
Qed.

Lemma export_counts_rows (W : Type) (sys : ExportMp4.system W)
    (args : ExportMp4.export_args) (w w' : W) (h5_file : H5.File)
    (video_root : Py.Path) (t : ExportMp4.tally) :
  ExportMp4.export_episodes sys rt args w h5_file video_root = Ok (w', t) ->
  map ExportMp4.row_view (ExportMp4.manifest_rows t)
  = ExportMp4.considered args (yielded (iter_episode_views rt h5_file video_root))
  /\ counted t.
Proof.
  intros H. unfold ExportMp4.export_episodes in H.
  destruct (assert_required_structure rt h5_file) as [[]|]; cbn [bind] in H;
    [|discriminate].
  destruct (ValidateTransfer.list_of _) as [views|] eqn:El; cbn [bind] in H;
    [|discriminate].
  apply list_of_ok in El as [-> _]. injection H as H.
  apply export_views_fold in H as (Hc & Hr & _); [|apply counted_empty].
  split; [exact Hr | exact Hc].
Qed.

(** X12. 02_export_mp4_from_hdf5.py: the manifest has one row for each episode
    the export goes through, and each episode is counted once, as
    exported, skipped, missing or failed, as its row says; there are no
    more checksum lines than exported and skipped episodes; and the
    export ends as failed exactly when some row is a missing source or a
    failed export. *)
Theorem export_counts_partition_the_episodes :
  forall (W : Type) (sys : ExportMp4.system W) (args : ExportMp4.export_args)
         (w w' : W) (h5_file : H5.File) (video_root : Py.Path)
         (t : ExportMp4.tally),
    ExportMp4.export_episodes sys rt args w h5_file video_root = Ok (w', t) ->
    map ExportMp4.row_view (ExportMp4.manifest_rows t)
    = ExportMp4.considered args (yielded (iter_episode_views rt h5_file video_root))
    /\ (ExportMp4.exported_count t + ExportMp4.skipped_existing t
        + ExportMp4.missing_sources t + ExportMp4.failed_exports t
        = List.length (ExportMp4.manifest_rows t))%nat
    /\ counted t
    /\ (List.length (ExportMp4.checksums t)
        <= ExportMp4.exported_count t + ExportMp4.skipped_existing t)%nat
    /\ (ExportMp4.export_failed t = false
        <-> forall r, In r (ExportMp4.manifest_rows t) ->
                      ExportMp4.row_status r = ExportMp4.Exported
                      \/ ExportMp4.row_status r = ExportMp4.SkippedExisting).
Proof.
  intros W sys args w w' h5 root t H.
  apply export_counts_rows in H as (Hr & Hc).
  split; [exact Hr|]. split; [|split; [exact Hc|]].
  { destruct Hc as (-> & -> & -> & -> & _). apply count_status_total. }
  split; [apply Hc|].
  destruct Hc as (_ & _ & H3 & H4 & _).
  unfold ExportMp4.export_failed. rewrite orb_false_iff, !Nat.ltb_ge.
  rewrite H3, H4. split.
  - intros [Hm Hf] r Hin.
    assert (Hm0 : count_status ExportMp4.MissingSource (ExportMp4.manifest_rows t) = 0%nat) by lia.
    assert (Hf0 : count_status ExportMp4.Failed (ExportMp4.manifest_rows t) = 0%nat) by lia.
    pose proof (proj1 (count_status_zero _ _) Hm0 r Hin).
    pose proof (proj1 (count_status_zero _ _) Hf0 r Hin).
    destruct (ExportMp4.row_status r); auto; congruence.
  - intros Hall. split.
    + apply Nat.eq_le_incl, count_status_zero. intros r Hin.
      destruct (Hall r Hin) as [-> | ->]; discriminate.
    + apply Nat.eq_le_incl, count_status_zero. intros r Hin.
      destruct (Hall r Hin) as [-> | ->]; discriminate.
Qed.

(** X13. 02_export_mp4_from_hdf5.py: for one episode, ffmpeg is run exactly
    when the source video exists, the output does not exist or is to be
    overwritten, the run is not a dry run and the segment starts before
    it ends.  It is then run once, for the duration [to - from].  When
    only the last condition fails, which is so for a segment that is
    empty or reversed or has a NaN bound, the episode is counted as failed
    and ffmpeg is not run. *)
Theorem export_view_runs_ffmpeg_only_for_a_positive_duration :
  forall (W : Type) (sys : ExportMp4.system W) (args : ExportMp4.export_args)
         (w : W) (t : ExportMp4.tally) (view : EpisodeView),
    let output_path :=
      Py.joinpath (ExportMp4.output_dir args)
        (Scripts.output_name (demo_id view)
           (Names.infer_camera_key (video_path_hdf5 view))) in
    let wanted :=
      ExportMp4.path_exists sys w (video_path_resolved view)
      && (negb (ExportMp4.path_exists sys w output_path) || ExportMp4.overwrite args)
      && negb (ExportMp4.dry_run args) in
    let request :=
      {| ExportMp4.clip_input := video_path_resolved view;
         ExportMp4.clip_output := output_path;
         ExportMp4.clip_start := from_timestamp view;
         ExportMp4.clip_duration := Np.sub (to_timestamp view) (from_timestamp view);
         ExportMp4.clip_fps := fps view |} in
    exists r,
      ExportMp4.manifest_rows (snd (ExportMp4.export_view sys args (w, t) view))
      = ExportMp4.manifest_rows t ++ [r]
      /\ ExportMp4.row_view r = view
      /\ ExportMp4.output_video_path r = output_path
      /\ if wanted && Np.lt (from_timestamp view) (to_timestamp view)
         then fst (ExportMp4.export_view sys args (w, t) view)
              = snd (ExportMp4.run_ffmpeg sys w request)
              /\ ExportMp4.row_status r
                 = (if fst (ExportMp4.run_ffmpeg sys w request)
                    then ExportMp4.Exported else ExportMp4.Failed)
         else fst (ExportMp4.export_view sys args (w, t) view) = w
              /\ (wanted = true -> ExportMp4.row_status r = ExportMp4.Failed).
Proof.
  intros W sys args w t view output_path wanted request. subst wanted.
  unfold ExportMp4.export_view. fold output_path.
  destruct (ExportMp4.path_exists sys w (video_path_resolved view)); cbn [negb andb].
  2:{ eexists. cbn. repeat split; discriminate. }
  destruct (ExportMp4.path_exists sys w output_path) eqn:Eo; cbn [negb andb orb].
  - destruct (ExportMp4.overwrite args); cbn [negb andb].
    2:{ eexists. cbn. repeat split; discriminate. }
    destruct (ExportMp4.dry_run args); cbn [negb andb].
    { eexists. cbn. repeat split; discriminate. }
    unfold ExportMp4.clip_video_ffmpeg. rewrite invalid_duration.
    destruct (Np.lt (from_timestamp view) (to_timestamp view)) eqn:El; cbn [negb].
    + rewrite max0_positive by (now rewrite invalid_duration, El).
      fold request. destruct (ExportMp4.run_ffmpeg sys w request) as [[|] w1];
        eexists; cbn; repeat split; reflexivity.
    + eexists. cbn. repeat split; reflexivity.
  - destruct (ExportMp4.dry_run args); cbn [negb andb].
    { eexists. cbn. repeat split; discriminate. }
    unfold ExportMp4.clip_video_ffmpeg. rewrite invalid_duration.
    destruct (Np.lt (from_timestamp view) (to_timestamp view)) eqn:El; cbn [negb].
    + rewrite max0_positive by (now rewrite invalid_duration, El).
      fold request. destruct (ExportMp4.run_ffmpeg sys w request) as [[|] w1];
        eexists; cbn; repeat split; reflexivity.
    + eexists. cbn. repeat split; reflexivity.
Qed.

(** X14. 02_export_mp4_from_hdf5.py: a dry run goes through the episodes
    without running ffmpeg, whatever the episodes are; it computes no
    checksum and reports no failed export, and every episode whose source
    exists and whose output does not is counted as exported. *)
Theorem dry_run_runs_nothing :
  forall (W : Type) (sys : ExportMp4.system W) (args : ExportMp4.export_args)
         (w w' : W) (h5_file : H5.File) (video_root : Py.Path)
         (t : ExportMp4.tally),
    ExportMp4.dry_run args = true ->
    ExportMp4.export_episodes sys rt args w h5_file video_root = Ok (w', t) ->
    w' = w
    /\ ExportMp4.checksums t = []
    /\ ExportMp4.failed_exports t = 0%nat
    /\ (ExportMp4.exported_count t + ExportMp4.skipped_existing t
        + ExportMp4.missing_sources t
        = List.length
            (ExportMp4.considered args
               (yielded (iter_episode_views rt h5_file video_root))))%nat.
Proof.
  intros W sys args w w' h5 root t Hd H.
  pose proof (export_counts_rows W sys args w w' h5 root t H) as (Hr & Ht).
  unfold ExportMp4.export_episodes in H.
  destruct (assert_required_structure rt h5) as [[]|]; cbn [bind] in H; [|discriminate].
  destruct (ValidateTransfer.list_of _) as [views|] eqn:El; cbn [bind] in H;
    [|discriminate].
  injection H as H.
  apply export_views_fold in H as (_ & _ & Hdry); [|apply counted_empty].
  destruct (Hdry Hd) as (-> & Hc & Hf). cbn in Hc, Hf.
  repeat split; try assumption.
  rewrite <- Hr, length_map.
  pose proof (count_status_total (ExportMp4.manifest_rows t)) as Hs.
  destruct Ht as (H1 & H2 & H3 & H4 & _). lia.
Qed.

(** X15. 02_export_mp4_from_hdf5.py: the rows are those of a prefix of the
    episodes in the order of the iterator.  With [--max-episodes m] the
    prefix has [m] episodes, or all of them when there are fewer, for
    [m >= 0]; for a negative [m] it is not empty in general: the last
    [-m] episodes are left out. *)
Theorem max_episodes_keeps_a_prefix :
  forall (W : Type) (sys : ExportMp4.system W) (args : ExportMp4.export_args)
         (w w' : W) (h5_file : H5.File) (video_root : Py.Path)
         (t : ExportMp4.tally),
    ExportMp4.export_episodes sys rt args w h5_file video_root = Ok (w', t) ->
    let views := yielded (iter_episode_views rt h5_file video_root) in
    let n := Z.of_nat (List.length views) in
    (exists left_out,
       views = map ExportMp4.row_view (ExportMp4.manifest_rows t) ++ left_out)
    /\ Z.of_nat (List.length (ExportMp4.manifest_rows t))
       = match ExportMp4.max_episodes args with
         | None => n
         | Some m => if m <? 0 then Z.max 0 (n + m) else Z.min m n
         end.
Proof.
  intros W sys args w w' h5 root t H views n.
  pose proof (export_counts_rows W sys args w w' h5 root t H) as (Hr & _).
  fold views in Hr.
  assert (Hlen : List.length (ExportMp4.manifest_rows t)
                 = List.length (ExportMp4.considered args views)).
  { rewrite <- Hr. now rewrite length_map. }
  rewrite Hlen, Hr. unfold ExportMp4.considered, PyMore.slice_to.
  destruct (ExportMp4.max_episodes args) as [m|].
  - destruct (Z.ltb_spec m 0).
    + split; [eexists; symmetry; apply firstn_skipn|].
      rewrite length_firstn. subst n. lia.
    + split; [eexists; symmetry; apply firstn_skipn|].
      rewrite length_firstn. subst n. lia.
  - split; [exists []; now rewrite app_nil_r | reflexivity].
Qed.

End Stages.

(* ================================================================== *)
(** ** The transfer bundle *)

Module TransferFacts.
Import PyMore Names RunTransfer StageRules PyFacts NameFacts.

Lemma range_In (n v : Z) : In v (range n) <-> 0 <= v < n.
Proof.
  unfold range. rewrite in_map_iff. split.
  - intros [i [<- Hi]]. apply in_seq in Hi. lia.
  - intros H. exists (Z.to_nat v). split; [lia|]. apply in_seq. lia.
Qed.

Lemma range_succ (n : Z) : 0 <= n -> range (n + 1) = range n ++ [n].
Proof.
  intros H. unfold range.
  replace (Z.to_nat (n + 1)) with (S (Z.to_nat n)) by lia.
  rewrite seq_S, map_app. cbn [map Nat.add]. now rewrite Z2Nat.id.
Qed.


Lemma range_NoDup (n : Z) : NoDup (range n).
Proof.
  unfold range. apply Finite.Injective_map_NoDup; [|apply seq_NoDup].
  intros x y E. lia.
Qed.

Lemma span_spec (f : ascii -> bool) (s : string) :
  forall a b, span f s = (a, b) ->
    s = (a ++ b)%string /\ Forall (fun c => f c = true) (list_ascii_of_string a).
Proof.
  induction s as [|c t IH]; intros a b H; cbn [span] in H.
  - injection H as <- <-. split; [reflexivity | constructor].
  - destruct (f c) eqn:E.
    + destruct (span f t) as [a' b']. injection H as <- <-.
      destruct (IH a' b' eq_refl) as [-> Hall]. split; [reflexivity|].
      cbn. now constructor.
    + injection H as <- <-. split; [reflexivity | constructor].
Qed.

Lemma all_digits_true (s : string) :
  Forall (fun c => Py.is_ascii_digit c = true) (list_ascii_of_string s) ->
  Py.all_digits s = true.
Proof.
  induction s as [|c t IH]; intros H; [reflexivity|].
  cbn in H. inversion H; subst. cbn [Py.all_digits].
  apply andb_true_iff. split; [assumption | now apply IH].
Qed.

Lemma int_nonneg (s : string) : Py.all_digits s = true -> 0 <= Py.int_of_digits s.
Proof.
  intros H. unfold Py.int_of_digits. rewrite int_digits_value by exact H.
  pose proof (decimal_value_nonneg s). lia.
Qed.

(** What a name that matches the pattern gives. *)
Lemma parse_demo_filename_some (name : string) (d : Z) (cam : string) :
  parse_demo_filename name = Some (d, cam) ->
  0 <= d /\ cam <> EmptyString /\ has_char newline cam = false.
Proof.
  unfold parse_demo_filename.
  destruct (remove_prefix "demo_" (chomp name)) as [rest|]; [|discriminate].
  destruct (span Py.is_ascii_digit rest) as [digits rest'] eqn:Es.
  destruct digits as [|c0 ds]; [discriminate|].
  destruct rest' as [|u tail]; [discriminate|].
  destruct (Ascii.eqb_spec u "_"%char) as [->|Hu].
  2:{ destruct u as [[] [] [] [] [] [] [] []]; try discriminate; now elim Hu. }
  destruct (remove_suffix ".mp4" tail) as [key|]; [|discriminate].
  destruct key as [|k0 ks]; [discriminate|].
  destruct (has_char newline (String k0 ks)) eqn:Eh; [discriminate|].
  intros [= <- <-]. split; [|split; [discriminate | exact Eh]].
  apply int_nonneg, all_digits_true.
  now destruct (span_spec _ _ _ _ Es).
Qed.

Lemma wanted_jobs_app (n : Z) (l1 l2 : list (Z * string)) :
  wanted_jobs n (l1 ++ l2) = wanted_jobs n l1 ++ wanted_jobs n l2.
Proof. unfold wanted_jobs. apply flat_map_app. Qed.


Section Loops.
Variable sha256_file : Py.Path -> string.
Variable a : transfer_args.
Variable profiles : list string.
Hypothesis some_profile : profiles <> [].

Lemma profile_found (v : Z) :
  0 <= v ->
  nth_error profiles (Z.to_nat (v mod Z.of_nat (List.length profiles)))
  = Some (nth (Z.to_nat (v mod Z.of_nat (List.length profiles))) profiles EmptyString).
Proof.
  intros Hv. apply nth_error_nth'.
  assert (0 < Z.of_nat (List.length profiles)).
  { destruct profiles; [congruence | cbn [List.length]; lia]. }
  pose proof (Z.mod_pos_bound v (Z.of_nat (List.length profiles)) ltac:(lia)). lia.
Qed.

(** The loop over the variants of one video, with its invariant: [jobs]
    are the keys of the jobs so far. *)
Lemma add_variants (video_path : Py.Path) (demo : Z) (camera : string)
    (vs : list Z) : forall (b : bundle) (jobs : list (Z * Z * string)),
  0 <= demo ->
  Forall (fun v => 0 <= v < variants_per_demo a) vs ->
  map job_key (job_lines b) = jobs ->
  next_job_id b = Z.of_nat (List.length (job_lines b)) ->
  map job_id (job_lines b) = map job_name (range (next_job_id b)) ->
  map (fun e => (expected_job_id e, expected_output_filename e)) (expected_lines b)
  = map (fun j => (job_id j, variant_output_name (demo_id j) (variant_idx j) (camera_key j)))
      (job_lines b) ->
  Forall (job_ok a profiles) (job_lines b) ->
  let b' := fold_left (add_variant a profiles video_path demo camera) vs b in
  map job_key (job_lines b') = jobs ++ map (fun v => (demo, v, camera)) vs
  /\ next_job_id b' = Z.of_nat (List.length (job_lines b'))
  /\ map job_id (job_lines b') = map job_name (range (next_job_id b'))
  /\ map (fun e => (expected_job_id e, expected_output_filename e)) (expected_lines b')
     = map (fun j => (job_id j, variant_output_name (demo_id j) (variant_idx j) (camera_key j)))
         (job_lines b')
  /\ checksum_lines b' = checksum_lines b
  /\ unique_demo_ids b' = unique_demo_ids b
  /\ Forall (job_ok a profiles) (job_lines b').
Proof.
  induction vs as [|v vs IH]; intros b jobs Hd Hvs Hk Hn Hid He Hok;
    cbv zeta in *; cbn [fold_left].
  - cbn [map]. rewrite app_nil_r. repeat split; assumption.
  - inversion Hvs as [|? ? Hv Hvs']; subst.
    specialize (IH (add_variant a profiles video_path demo camera b v)
                  (map job_key (job_lines b) ++ [(demo, v, camera)]) Hd Hvs').
    cbn [add_variant job_lines expected_lines checksum_lines unique_demo_ids
         next_job_id] in IH.
    destruct IH as (I1 & I2 & I3 & I4 & I5 & I6 & I7).
    + now rewrite map_app.
    + rewrite length_app. cbn [List.length]. lia.
    + rewrite map_app, Hid, range_succ by lia. now rewrite map_app.
    + rewrite !map_app, He. reflexivity.
    + apply Forall_app. split; [exact Hok|]. constructor; [|constructor].
      unfold job_ok. cbn [seed demo_id variant_idx prompt_profile].
      split; [unfold seed_of; lia|]. split; [exact Hd|]. split; [exact Hv|].
      apply profile_found. lia.
    + rewrite I1, <- app_assoc. repeat split; assumption.
Qed.

Lemma set_add_spec (x : Z) (s : list Z) :
  NoDup s ->
  NoDup (set_add x s) /\ forall d, In d (set_add x s) <-> d = x \/ In d s.
Proof.
  intros Hn. unfold set_add. destruct (existsb (Z.eqb x) s) eqn:E.
  - split; [exact Hn|]. intros d. split; [auto|]. intros [->|H]; [|exact H].
    apply existsb_exists in E as [y [Hy Exy]]. apply Z.eqb_eq in Exy. now subst.
  - split.
    + apply NoDup_app; [exact Hn | repeat constructor; intros [] |].
      intros y Hy [<-|[]].
      assert (existsb (Z.eqb x) s = true); [|congruence].
      apply existsb_exists. exists x. split; [exact Hy | apply Z.eqb_refl].
    + intros d. rewrite in_app_iff. cbn. intuition.
Qed.

Lemma add_video_ok (b : bundle) (seen : list (Z * string)) (video_name : string) :
  bundle_ok a profiles b seen ->
  bundle_ok a profiles (add_video sha256_file a profiles b video_name)
    (seen ++ matched [video_name]).
Proof.
  intros Hb. pose proof Hb as (H1 & H2 & H3 & H4 & H5 & H6 & H7 & H8).
  unfold add_video, matched. cbn [flat_map].
  destruct (parse_demo_filename video_name) as [[d cam]|] eqn:Ep.
  - apply parse_demo_filename_some in Ep as (Hd & _ & _).
    pose proof (add_variants (Py.joinpath (input_videos_dir a) video_name) d cam
                  (range (variants_per_demo a))
                  {| job_lines := job_lines b;
                     expected_lines := expected_lines b;
                     checksum_lines :=
                       checksum_lines b
                       ++ [(sha256_file (Py.joinpath (input_videos_dir a) video_name)
                            ++ "  " ++ video_name)%string];
                     unique_demo_ids := set_add d (unique_demo_ids b);
                     next_job_id := next_job_id b |}
                  (map job_key (job_lines b)) Hd) as L.
    cbn [job_lines expected_lines checksum_lines unique_demo_ids next_job_id] in L.
    destruct L as (L1 & L2 & L3 & L4 & L5 & L6 & L7); try assumption; try reflexivity.
    { apply Forall_forall. intros v Hv. now apply range_In. }
    destruct (set_add_spec d (unique_demo_ids b) H6) as [S1 S2].
    unfold bundle_ok. rewrite L5, L6.
    split; [|split; [exact L2|split; [exact L3|split; [exact L4|split;
      [|split; [exact S1|split; [|exact L7]]]]]]].
    + rewrite L1, H1, wanted_jobs_app. unfold wanted_jobs at 3.
      cbn [flat_map app fst snd]. now rewrite app_nil_r.
    + rewrite !length_app, H5. reflexivity.
    + intros x. rewrite S2, map_app, in_app_iff, H7. cbn. intuition.
  - cbn [app]. rewrite app_nil_r. exact Hb.
Qed.

Lemma add_videos_ok (input_videos : list string) : forall b seen,
  bundle_ok a profiles b seen ->
  bundle_ok a profiles (fold_left (add_video sha256_file a profiles) input_videos b)
    (seen ++ matched input_videos).
Proof.
  induction input_videos as [|name names IH]; intros b seen H; cbn [fold_left].
  - unfold matched. cbn [flat_map]. now rewrite app_nil_r.
  - apply (add_video_ok _ _ name) in H. apply IH in H.
    replace (seen ++ matched (name :: names))
      with ((seen ++ matched [name]) ++ matched names); [exact H|].
    rewrite <- app_assoc. f_equal. unfold matched. cbn [flat_map].
    now rewrite app_nil_r.
Qed.

End Loops.

Lemma bundle_ok_start (a : transfer_args) (profiles : list string) :
  bundle_ok a profiles
    {| job_lines := []; expected_lines := []; checksum_lines := [];
       unique_demo_ids := []; next_job_id := 0 |} [].
Proof.
  unfold bundle_ok. cbn. repeat split; try constructor; try contradiction.
Qed.

(** What [build_bundle] returns satisfies the invariant of its loops. *)
Lemma build_bundle_ok sha256_file a input_videos b :
  build_bundle sha256_file a input_videos = inr b ->
  1 <= variants_per_demo a
  /\ job_lines b <> []
  /\ bundle_ok a (stripped_values (prompt_profiles a)) b (matched input_videos).
Proof.
  unfold build_bundle. destruct (Z.ltb_spec (variants_per_demo a) 1); [discriminate|].
  destruct input_videos as [|n0 ns]; [discriminate|].
  destruct (stripped_values (prompt_profiles a)) as [|p0 ps] eqn:Ep; [discriminate|].
  pose proof (add_videos_ok sha256_file a (p0 :: ps) ltac:(discriminate) (n0 :: ns)
                _ [] (bundle_ok_start a (p0 :: ps))) as Hok.
  cbn [app] in Hok.
  match type of Hok with
  | bundle_ok _ _ ?x _ => remember x as b0 eqn:Eb
  end.
  destruct (job_lines b0) eqn:Ej; [discriminate|].
  intros [= <-]. split; [lia|]. split; [rewrite Ej; discriminate | exact Hok].
Qed.

Lemma job_name_inj (n m : Z) : 0 <= n -> 0 <= m -> job_name n = job_name m -> n = m.
Proof.
  unfold job_name. intros Hn Hm H. apply append_inv_head in H.
  destruct (format_d_spec 6 n Hn) as (_ & _ & <-).
  destruct (format_d_spec 6 m Hm) as (_ & _ & <-). now rewrite H.
Qed.

Lemma parse_demo_name (d : Z) (tail : string) :
  0 <= d ->
  parse_demo_filename ("demo_" ++ format_d 4 d ++ "_" ++ tail ++ ".mp4")
  = match tail with
    | EmptyString => None
    | String _ _ => if has_char newline tail then None else Some (d, tail)
    end.
Proof.
  intros Hd. unfold parse_demo_filename.
  replace ("demo_" ++ format_d 4 d ++ "_" ++ tail ++ ".mp4")%string
    with (("demo_" ++ format_d 4 d ++ "_" ++ tail) ++ ".mp4")%string
    by (now rewrite !append_assoc).
  rewrite chomp_mp4. rewrite !append_assoc. rewrite remove_prefix_app.
  change ("_" ++ tail ++ ".mp4")%string with (String "_" (tail ++ ".mp4")).
  destruct (format_d_spec 4 d Hd) as (Ha & Hn & Hi).
  rewrite span_digits by (exact Ha || reflexivity).
  remember (format_d 4 d) as f eqn:Ef. destruct f; [congruence|].
  rewrite remove_suffix_app, Hi. reflexivity.
Qed.

Lemma has_char_app (c : ascii) (s t : string) :
  has_char c (s ++ t) = has_char c s || has_char c t.
Proof.
  induction s as [|x s IH]; cbn [append has_char]; [reflexivity|].
  now rewrite IH, orb_assoc.
Qed.

(** *** Comma-separated values *)








Lemma digits_hold_no (c : ascii) (s : string) :
  Py.is_ascii_digit c = false -> Py.all_digits s = true -> has_char c s = false.
Proof.
  intros Hc. induction s as [|x s IH]; cbn [Py.all_digits has_char]; [reflexivity|].
  intros H. apply andb_true_iff in H as [Hx Hs]. rewrite (IH Hs), orb_false_r.
  destruct (Ascii.eqb_spec x c) as [->|]; [congruence | reflexivity].
Qed.

(** Two formatted numbers that are followed by an underscore are read
    back apart from what follows them. *)
Lemma format_d_cut (w : nat) (n m : Z) (x y : string) :
  0 <= n -> 0 <= m ->
  (format_d w n ++ String "_" x = format_d w m ++ String "_" y)%string ->
  n = m /\ x = y.
Proof.
  intros Hn Hm H.
  destruct (format_d_spec w n Hn) as (An & _ & In_).
  destruct (format_d_spec w m Hm) as (Am & _ & Im).
  apply (f_equal (span Py.is_ascii_digit)) in H.
  rewrite !span_digits in H by (assumption || reflexivity).
  injection H as H1 H2. split; [|exact H2]. rewrite <- In_, <- Im. now rewrite H1.
Qed.

End TransferFacts.

Section TransferJobs.
Import PyMore Names StageRules PyFacts NameFacts TransferFacts.


(** X17. 03_run_transfer.py: the jobs of a bundle are numbered from job_000000
    on, in the order of the lines, by consecutive integers written with
    six digits or more; so the job ids, and with them the names of the
    request files, are pairwise distinct. *)
Theorem transfer_job_ids_are_consecutive_and_distinct :
  forall (sha256_file : Py.Path -> string) (a : RunTransfer.transfer_args)
         (input_videos : list string) (b : RunTransfer.bundle),
    RunTransfer.build_bundle sha256_file a input_videos = inr b ->
    map RunTransfer.job_id (RunTransfer.job_lines b)
    = map (fun n => ("job_" ++ format_d 6 n)%string)
        (range (Z.of_nat (List.length (RunTransfer.job_lines b))))
    /\ NoDup (map RunTransfer.job_id (RunTransfer.job_lines b)).
Proof.
  intros sha a names b H.
  apply build_bundle_ok in H as (_ & _ & _ & H2 & H3 & _).
  rewrite H3, H2. split; [reflexivity|].
  apply Finite.Injective_map_NoDup_in; [|apply range_NoDup].
  intros n m Hn Hm E. apply range_In in Hn, Hm.
  apply job_name_inj; [lia | lia | exact E].
Qed.

(** X18. 03_run_transfer.py: with at most 1000 variants per demo, two jobs of a
    bundle that have the same seed have the same demo id and the same
    variant index.  Beyond 1000 variants seeds repeat: variant 1000 of a
    demo has the seed of variant 0 of the next demo. *)
Theorem transfer_seeds_are_distinct_up_to_1000_variants :
  (forall (sha256_file : Py.Path -> string) (a : RunTransfer.transfer_args)
          (input_videos : list string) (b : RunTransfer.bundle)
          (j1 j2 : RunTransfer.job_record),
     RunTransfer.build_bundle sha256_file a input_videos = inr b ->
     RunTransfer.variants_per_demo a <= 1000 ->
     In j1 (RunTransfer.job_lines b) -> In j2 (RunTransfer.job_lines b) ->
     RunTransfer.seed j1 = RunTransfer.seed j2 ->
     RunTransfer.demo_id j1 = RunTransfer.demo_id j2
     /\ RunTransfer.variant_idx j1 = RunTransfer.variant_idx j2)
  /\ (forall base demo : Z,
        RunTransfer.seed_of base demo 1000 = RunTransfer.seed_of base (demo + 1) 0).
Proof.
  split.
  - intros sha a names b j1 j2 H Hv H1 H2 Hs.
    apply build_bundle_ok in H as (_ & _ & _ & _ & _ & _ & _ & _ & _ & Hok).
    rewrite Forall_forall in Hok.
    destruct (Hok j1 H1) as (S1 & D1 & V1 & _).
    destruct (Hok j2 H2) as (S2 & D2 & V2 & _). lia.
  - intros base demo. unfold RunTransfer.seed_of. lia.
Qed.

(** X19. 03_run_transfer.py: the name of an expected output tells its demo id,
    its variant index and its camera key apart: two names are equal only
    for equal demo ids, variant indices and camera keys, none of them
    negative.  Such a name matches the pattern of the input names again:
    it is read as the demo id with the camera key [vNN_camera]. *)
Theorem variant_output_name_is_injective :
  (forall (d v d' v' : Z) (cam cam' : string),
     0 <= d -> 0 <= v -> 0 <= d' -> 0 <= v' ->
     variant_output_name d v cam = variant_output_name d' v' cam' ->
     d = d' /\ v = v' /\ cam = cam')
  /\ (forall (d v : Z) (cam : string),
        0 <= d -> 0 <= v -> has_char newline cam = false ->
        parse_demo_filename (variant_output_name d v cam)
        = Some (d, ("v" ++ format_d 2 v ++ "_" ++ cam)%string)).
Proof.
  split.
  - intros d v d' v' cam cam' Hd Hv Hd' Hv' H.
    unfold variant_output_name in H. apply append_inv_head in H.
    change ("_v" ++ format_d 2 v ++ "_" ++ cam ++ ".mp4")%string
      with (String "_" (String "v" (format_d 2 v ++ String "_" (cam ++ ".mp4")))) in H.
    change ("_v" ++ format_d 2 v' ++ "_" ++ cam' ++ ".mp4")%string
      with (String "_" (String "v" (format_d 2 v' ++ String "_" (cam' ++ ".mp4")))) in H.
    apply format_d_cut in H as [-> H]; [|assumption|assumption].
    injection H as H.
    apply format_d_cut in H as [-> H]; [|assumption|assumption].
    apply append_inv_tail in H. auto.
  - intros d v cam Hd Hv Hn. unfold variant_output_name.
    change ("_v" ++ format_d 2 v ++ "_" ++ cam ++ ".mp4")%string
      with ("_" ++ String "v" (format_d 2 v ++ "_" ++ cam ++ ".mp4"))%string.
    replace (String "v" (format_d 2 v ++ "_" ++ cam ++ ".mp4"))
      with (("v" ++ format_d 2 v ++ "_" ++ cam) ++ ".mp4")%string
      by (cbn [append]; now rewrite !append_assoc).
    rewrite (parse_demo_name d _ Hd). cbn [append].
    cbn [has_char]. rewrite has_char_app. cbn [has_char append].
    destruct (format_d_spec 2 v Hv) as (Ha & _ & _).
    rewrite (digits_hold_no newline _ eq_refl Ha), Hn. reflexivity.
Qed.


End TransferJobs.

(* ================================================================== *)
(** ** The promotion of the incoming file *)

Module PromoteFacts.
Import Promote.

Lemma read_chunks_all (chunk_size : nat) :
  (0 < chunk_size)%nat ->
  forall (fuel : nat) (handle digest : list byte),
    (List.length handle < fuel)%nat ->
    read_chunks fuel chunk_size handle digest = Some (digest ++ handle).
Proof.
  intros Hc. induction fuel as [|fuel IH]; intros handle digest Hf; [lia|].
  cbn [read_chunks].
  destruct chunk_size as [|n]; [lia|].
  destruct handle as [|x t].
  - cbn [firstn]. now rewrite app_nil_r.
  - cbn [firstn]. rewrite IH.
    + rewrite <- app_assoc. f_equal. f_equal.
      change (x :: firstn n t) with (firstn (S n) (x :: t)).
      apply firstn_skipn.
    + rewrite length_skipn. cbn [List.length] in *. lia.
Qed.

Lemma sha256_file_eq (sha256 : list byte -> string) (content : list byte) :
  sha256_file sha256 content = Some (sha256 content).
Proof.
  unfold sha256_file. rewrite read_chunks_all by lia. reflexivity.
Qed.

Lemma path_eqb_eq (p q : Py.Path) : path_eqb p q = true <-> p = q.
Proof.
  unfold path_eqb. destruct p as [a1 l1], q as [a2 l2]. cbn [Py.anchor Py.parts].
  destruct (list_eq_dec string_dec l1 l2) as [->|Hl].
  - rewrite andb_true_r, String.eqb_eq. split; [now intros -> | now intros [= ->]].
  - rewrite andb_false_r. split; [discriminate | intros [= _ E]; contradiction].
Qed.

Lemma write_same (fs : files) (p : Py.Path) (content : list byte) :
  write fs p content p = Some content.
Proof.
  unfold write. now rewrite (proj2 (path_eqb_eq p p) eq_refl).
Qed.

Lemma write_other (fs : files) (p q : Py.Path) (content : list byte) :
  q <> p -> write fs p content q = fs q.
Proof.
  intros H. unfold write. destruct (path_eqb q p) eqn:E; [|reflexivity].
  apply path_eqb_eq in E. contradiction.
Qed.

(** [promote], once the hashing loops are known to end. *)
Lemma promote_eq (sha256 : list byte -> string) (render : meta -> list byte)
    (args : promote_args) (fs : files) :
  promote sha256 render args fs
  = Some
      match fs (incoming_hdf5 args) with
      | None => inl MissingIncoming
      | Some source =>
          let m c :=
            {| source_size_bytes := List.length source;
               source_sha256 := sha256 source;
               canonical_sha256 := sha256 c;
               content_match := String.eqb (sha256 source) (sha256 c) |} in
          let copied := write fs (canonical_hdf5 args) source in
          match fs (canonical_hdf5 args) with
          | Some target =>
              if String.eqb (sha256 target) (sha256 source)
              then inr (write fs (meta_out args) (render (m target)), m target)
              else if negb (force args) then inl TargetDiffers
              else inr (write copied (meta_out args) (render (m source)), m source)
          | None => inr (write copied (meta_out args) (render (m source)), m source)
          end
      end.
Proof.
  unfold promote.
  destruct (fs (incoming_hdf5 args)) as [source|]; [|reflexivity].
  rewrite sha256_file_eq.
  destruct (fs (canonical_hdf5 args)) as [target|] eqn:Et.
  - rewrite sha256_file_eq.
    destruct (String.eqb (sha256 target) (sha256 source)).
    + rewrite Et, sha256_file_eq. reflexivity.
    + destruct (force args); cbn [negb]; [|reflexivity].
      rewrite write_same, sha256_file_eq. reflexivity.
  - rewrite write_same, sha256_file_eq. reflexivity.
Qed.

End PromoteFacts.

Section Promotion.
Import Promote PromoteFacts.

Variable sha256 : list byte -> string.

(** X21. 01_lerobot_to_hdf5.py: reading a file by chunks does not show in its
    checksum: [sha256_file] is the SHA-256 of the whole content, and the
    loop ends for every content.  The same holds of the loop for every
    size of chunk that is not zero. *)
Theorem sha256_file_hashes_the_whole_content :
  (forall content : list byte, sha256_file sha256 content = Some (sha256 content))
  /\ (forall (chunk_size fuel : nat) (handle digest : list byte),
        (0 < chunk_size)%nat -> (List.length handle < fuel)%nat ->
        read_chunks fuel chunk_size handle digest = Some (digest ++ handle)).
Proof.
  split.
  - apply sha256_file_eq.
  - intros n fuel handle digest Hn Hf. now apply read_chunks_all.
Qed.

(** X22. 01_lerobot_to_hdf5.py: when the promotion ends normally, the metadata
    it writes give the checksum of the incoming file for both files and
    say that the contents match, and no file other than the canonical
    file and the metadata file has changed.  When the metadata are not
    written over the canonical file, the canonical file has the checksum
    of the incoming file, and a canonical file that existed before is
    still the same file unless [--force] was given.  When the metadata
    path is the canonical path, the file there ends up holding the
    metadata, not the dataset. *)
Theorem promote_ends_with_matching_checksums :
  forall (render : meta -> list byte) (args : promote_args)
         (fs fs' : files) (m : meta),
    promote sha256 render args fs = Some (inr (fs', m)) ->
    exists source,
      fs (incoming_hdf5 args) = Some source
      /\ source_size_bytes m = List.length source
      /\ source_sha256 m = sha256 source
      /\ canonical_sha256 m = sha256 source
      /\ content_match m = true
      /\ fs' (meta_out args) = Some (render m)
      /\ (meta_out args <> canonical_hdf5 args ->
          exists canonical,
            fs' (canonical_hdf5 args) = Some canonical
            /\ sha256 canonical = sha256 source)
      /\ (forall p, p <> canonical_hdf5 args -> p <> meta_out args -> fs' p = fs p)
      /\ (forall old,
            fs (canonical_hdf5 args) = Some old -> force args = false ->
            meta_out args <> canonical_hdf5 args ->
            fs' (canonical_hdf5 args) = Some old)
      /\ (meta_out args = canonical_hdf5 args ->
          fs' (canonical_hdf5 args) = Some (render m)).
Proof.
  intros render args fs fs' m H. rewrite promote_eq in H. injection H as H.
  destruct (fs (incoming_hdf5 args)) as [source|]; [|discriminate].
  exists source. split; [reflexivity|]. cbv zeta in H.
  destruct (fs (canonical_hdf5 args)) as [target|] eqn:Et.
  - destruct (String.eqb (sha256 target) (sha256 source)) eqn:Eh.
    + apply String.eqb_eq in Eh. injection H as <- <-.
      cbn [source_size_bytes source_sha256 canonical_sha256 content_match].
      rewrite Eh, String.eqb_refl, write_same.
      repeat split; try reflexivity.
      * intros Hm. exists target. split; [|exact Eh].
        rewrite write_other by congruence. exact Et.
      * intros p _ Hp. now apply write_other.
      * intros old [= <-] _ Hm. rewrite write_other by congruence. exact Et.
      * intros E. rewrite <- E. apply write_same.
    + destruct (force args) eqn:Ef; cbn [negb] in H; [|discriminate].
      injection H as <- <-.
      cbn [source_size_bytes source_sha256 canonical_sha256 content_match].
      rewrite String.eqb_refl, write_same.
      repeat split; try reflexivity.
      * intros Hm. exists source. split; [|reflexivity].
        rewrite write_other by congruence. apply write_same.
      * intros p Hc Hp. rewrite write_other by exact Hp. now apply write_other.
      * intros old _ Hf. discriminate Hf.
      * intros E. rewrite <- E. apply write_same.
  - injection H as <- <-.
    cbn [source_size_bytes source_sha256 canonical_sha256 content_match].
    rewrite String.eqb_refl, write_same.
    repeat split; try reflexivity.
    + intros Hm. exists source. split; [|reflexivity].
      rewrite write_other by congruence. apply write_same.
    + intros p Hc Hp. rewrite write_other by exact Hp. now apply write_other.
    + intros old Ho. discriminate Ho.
    + intros E. rewrite <- E. apply write_same.
Qed.

(** X23. 01_lerobot_to_hdf5.py: the promotion always ends; it ends with
    [SystemExit] in two cases only: when the incoming file is missing,
    and when the canonical file exists with another checksum and
    [--force] is not given. *)
Theorem promote_stops_for_a_missing_source_or_a_differing_target :
  forall (render : meta -> list byte) (args : promote_args) (fs : files),
    promote sha256 render args fs <> None
    /\ (promote sha256 render args fs = Some (inl MissingIncoming)
        <-> fs (incoming_hdf5 args) = None)
    /\ (promote sha256 render args fs = Some (inl TargetDiffers)
        <-> exists source target,
              fs (incoming_hdf5 args) = Some source
              /\ fs (canonical_hdf5 args) = Some target
              /\ sha256 target <> sha256 source
              /\ force args = false).
Proof.
  intros render args fs. rewrite promote_eq. split; [discriminate|].
  destruct (fs (incoming_hdf5 args)) as [source|].
  - cbv zeta. destruct (fs (canonical_hdf5 args)) as [target|].
    + destruct (String.eqb_spec (sha256 target) (sha256 source)) as [E|E].
      * split; [split; discriminate|]. split; [discriminate|].
        intros (s0 & t0 & [= <-] & [= <-] & Hn & _). contradiction.
      * destruct (force args); cbn [negb].
        -- split; [split; discriminate|]. split; [discriminate|].
           intros (s0 & t0 & _ & _ & _ & Hf). discriminate.
        -- split; [split; discriminate|]. split; [|reflexivity].
           intros _. now exists source, target.
    + split; [split; discriminate|]. split; [discriminate|].
      intros (s0 & t0 & _ & Ht & _). discriminate.
  - split; [split; reflexivity|]. split; [discriminate|].
    intros (s0 & t0 & Hs & _). discriminate.
Qed.

End Promotion.

(* ================================================================== *)
(** ** The requests for labels *)

Module SamplerFacts.
Import PyMore ReasonLabels StageRules.

(** *** Sorting with a test *)

Section SortedByFacts.
Context {A : Type} (leb : A -> A -> bool).
Hypothesis leb_total : forall x y, leb x y = true \/ leb y x = true.
Hypothesis leb_trans : forall x y z, leb x y = true -> leb y z = true -> leb x z = true.

Lemma insert_by_perm (x : A) (l : list A) : Permutation (insert_by leb x l) (x :: l).
Proof.
  induction l as [|y t IH]; cbn [insert_by]; [reflexivity|].
  destruct (leb x y); [reflexivity|].
  rewrite IH. apply perm_swap.
Qed.

Lemma sorted_by_perm (l : list A) : Permutation (sorted_by leb l) l.
Proof.
  induction l as [|x t IH]; cbn [sorted_by fold_right]; [reflexivity|].
  fold (sorted_by leb t). rewrite insert_by_perm. now constructor.
Qed.

Lemma insert_by_sorted (x : A) (l : list A) :
  StronglySorted (fun a b => leb a b = true) l ->
  StronglySorted (fun a b => leb a b = true) (insert_by leb x l).
Proof.
  induction l as [|y t IH]; intros H; cbn [insert_by].
  - repeat constructor.
  - inversion H as [|? ? Hs Hf]; subst. destruct (leb x y) eqn:E.
    + constructor; [exact H|]. constructor; [exact E|].
      eapply Forall_impl; [|exact Hf]. intros z Hz. now apply (leb_trans x y z).
    + constructor; [now apply IH|].
      eapply Permutation_Forall; [symmetry; apply insert_by_perm|].
      constructor; [|exact Hf].
      destruct (leb_total x y) as [H1|H1]; [congruence | exact H1].
Qed.

Lemma sorted_by_sorted (l : list A) :
  StronglySorted (fun a b => leb a b = true) (sorted_by leb l).
Proof.
  induction l as [|x t IH]; cbn [sorted_by fold_right]; [constructor|].
  now apply insert_by_sorted.
Qed.

End SortedByFacts.

Lemma StronglySorted_weaken {A} (P Q : A -> A -> Prop) (l : list A) :
  (forall a b, P a b -> Q a b) -> StronglySorted P l -> StronglySorted Q l.
Proof.
  intros H. induction 1 as [|x l Hs IH Hf]; constructor; [exact IH|].
  eapply Forall_impl; [|exact Hf]. intros y. apply H.
Qed.

Lemma key_leb_le (a b : RunTransfer.job_record) : key_leb a b = true <-> key_le a b.
Proof.
  unfold key_leb, key_le.
  rewrite orb_true_iff, andb_true_iff, Z.ltb_lt, Z.eqb_eq, Z.leb_le. tauto.
Qed.

Lemma key_leb_total (a b : RunTransfer.job_record) :
  key_leb a b = true \/ key_leb b a = true.
Proof. rewrite !key_leb_le. unfold key_le. lia. Qed.

Lemma key_leb_trans (a b c : RunTransfer.job_record) :
  key_leb a b = true -> key_leb b c = true -> key_leb a c = true.
Proof. rewrite !key_leb_le. unfold key_le. lia. Qed.

(** *** Picking positions *)

Lemma split_off {A} (ps : list A) : forall qs,
  NoDup ps -> incl ps qs -> exists rest, Permutation (ps ++ rest) qs.
Proof.
  induction ps as [|p ps IH]; intros qs Hn Hi.
  - exists qs. reflexivity.
  - inversion Hn as [|? ? Hp Hn']; subst.
    destruct (in_split p qs (Hi p (or_introl eq_refl))) as (q1 & q2 & ->).
    destruct (IH (q1 ++ q2) Hn') as [rest Hr].
    + intros x Hx. pose proof (Hi x (or_intror Hx)) as Hq.
      apply in_app_or in Hq as [Hq|[Hq|Hq]]; apply in_or_app; auto.
      subst. contradiction.
    + exists rest. cbn [app]. rewrite Hr. apply Permutation_middle.
Qed.

Lemma pick_app {A} (l : list A) (ps qs : list nat) :
  pick l (ps ++ qs) = pick l ps ++ pick l qs.
Proof. unfold pick. apply flat_map_app. Qed.

Lemma pick_perm {A} (l : list A) (ps qs : list nat) :
  Permutation ps qs -> Permutation (pick l ps) (pick l qs).
Proof. unfold pick. apply Permutation_flat_map. Qed.

Lemma pick_seq {A} (l : list A) : forall pre,
  pick (pre ++ l) (seq (List.length pre) (List.length l)) = l.
Proof.
  induction l as [|x t IH]; intros pre; [reflexivity|].
  cbn [List.length seq]. unfold pick. cbn [flat_map].
  rewrite nth_error_app2, Nat.sub_diag by lia. cbn [nth_error app]. f_equal.
  specialize (IH (pre ++ [x])). rewrite <- app_assoc, length_app in IH.
  cbn [List.length app] in IH. rewrite Nat.add_1_r in IH. exact IH.
Qed.

Lemma pick_all {A} (l : list A) : pick l (seq 0 (List.length l)) = l.
Proof. exact (pick_seq l []). Qed.

Lemma pick_length {A} (l : list A) (ps : list nat) :
  Forall (fun i => (i < List.length l)%nat) ps ->
  List.length (pick l ps) = List.length ps.
Proof.
  induction ps as [|p ps IH]; intros H; [reflexivity|].
  inversion H as [|? ? Hp Hps]; subst. unfold pick. cbn [flat_map].
  rewrite length_app. fold (pick l ps). rewrite (IH Hps).
  destruct (nth_error l p) eqn:E; [reflexivity|].
  apply nth_error_None in E. lia.
Qed.

(** Items picked at distinct positions are some of the items. *)
Lemma pick_sub {A} (l : list A) (ps : list nat) :
  NoDup ps -> Forall (fun i => (i < List.length l)%nat) ps ->
  exists rest, Permutation (pick l ps ++ rest) l.
Proof.
  intros Hn Hf.
  destruct (split_off ps (seq 0 (List.length l)) Hn) as [rest Hr].
  - intros i Hi. apply in_seq. rewrite Forall_forall in Hf. specialize (Hf i Hi). lia.
  - exists (pick l rest). rewrite <- pick_app.
    rewrite (pick_perm l _ _ Hr). now rewrite pick_all.
Qed.

(** *** Groups *)

Lemma distinct_In (l : list string) (x : string) : In x (distinct l) <-> In x l.
Proof.
  induction l as [|y t IH]; cbn [distinct]; [tauto|].
  cbn [In]. rewrite filter_In, IH. split.
  - intros [H|[H _]]; auto.
  - intros [H|H]; [now left|].
    destruct (String.eqb_spec y x) as [E|E]; [now left | right; auto].
Qed.

Lemma distinct_NoDup (l : list string) : NoDup (distinct l).
Proof.
  induction l as [|y t IH]; cbn [distinct]; constructor.
  - rewrite filter_In. intros [_ H]. now rewrite String.eqb_refl in H.
  - now apply NoDup_filter.
Qed.

Lemma flat_map_nothing {A B} (keys : list A) :
  flat_map (fun _ : A => @nil B) keys = [].
Proof. induction keys; cbn; auto. Qed.

Lemma flat_map_both {A B} (f g : A -> list B) (keys : list A) :
  Permutation (flat_map (fun k => f k ++ g k) keys)
    (flat_map f keys ++ flat_map g keys).
Proof.
  induction keys as [|k keys IH]; cbn [flat_map]; [reflexivity|].
  rewrite IH, <- !app_assoc. apply Permutation_app_head.
  rewrite !app_assoc. apply Permutation_app_tail. apply Permutation_app_comm.
Qed.

Lemma flat_map_one {B} (x : B) (k0 : string) (keys : list string) :
  NoDup keys -> In k0 keys ->
  flat_map (fun k => if String.eqb k0 k then [x] else []) keys = [x].
Proof.
  induction keys as [|k keys IH]; intros Hn Hi; [contradiction|].
  inversion Hn as [|? ? Hk Hn']; subst. cbn [flat_map].
  destruct (String.eqb_spec k0 k) as [->|E].
  - cbn [app]. f_equal.
    assert (H : forall l, ~ In k l ->
                flat_map (fun k' => if String.eqb k k' then [x] else []) l = []).
    { induction l as [|y l IHl]; intros Hy; [reflexivity|]. cbn [flat_map].
      destruct (String.eqb_spec k y) as [->|]; [elim Hy; now left|].
      apply IHl. intros H. apply Hy. now right. }
    now apply H.
  - cbn [app]. apply IH; [exact Hn'|]. destruct Hi as [->|Hi]; [congruence | exact Hi].
Qed.

(** Filtering by each key of a list of distinct keys sorts the items into
    groups: nothing is lost and nothing comes twice. *)
Lemma groups_perm {A} (f : A -> string) (keys : list string) (l : list A) :
  NoDup keys -> (forall x, In x l -> In (f x) keys) ->
  Permutation (flat_map (fun k => filter (fun x => String.eqb (f x) k) l) keys) l.
Proof.
  intros Hn. induction l as [|x t IH]; intros Hin.
  - cbn [filter]. now rewrite flat_map_nothing.
  - transitivity
      (flat_map (fun k => (if String.eqb (f x) k then [x] else [])
                          ++ filter (fun y => String.eqb (f y) k) t) keys).
    + erewrite flat_map_ext; [reflexivity|]. intros k. cbn [filter].
      now destruct (String.eqb (f x) k).
    + rewrite flat_map_both, flat_map_one; [|exact Hn|apply Hin; now left].
      cbn [app]. constructor. apply IH. intros y Hy. apply Hin. now right.
Qed.

Section Sampling.
Context {R G : Type} (c : @chance R G).
Hypothesis fair : picks_positions c.

Lemma sample_spec {A} (g : G) (population : list A) (k : Z) :
  0 <= k <= Z.of_nat (List.length population) ->
  exists picked g',
    sample c g population k = Returned (picked, g')
    /\ List.length picked = Z.to_nat k
    /\ exists rest, Permutation (picked ++ rest) population.
Proof.
  intros Hk. unfold sample.
  destruct (Z.ltb_spec k 0); [lia|].
  destruct (Z.ltb_spec (Z.of_nat (List.length population)) k); [lia|]. cbn [orb].
  destruct (fair g (List.length population) (Z.to_nat k) ltac:(lia)) as (Hn & Hf & Hl).
  destruct (choose c g (List.length population) (Z.to_nat k)) as [ps g'].
  cbn [fst] in *. exists (pick population ps), g'.
  split; [reflexivity|]. split; [now rewrite pick_length|]. now apply pick_sub.
Qed.

Lemma sample_fails {A} (g : G) (population : list A) (k : Z) :
  k < 0 -> sample c g population k = Failed SampleOutOfRange.
Proof.
  intros Hk. unfold sample. now rewrite (proj2 (Z.ltb_lt k 0) Hk).
Qed.

(** The loop over the groups fails only when [math.ceil] does; else each
    group that is not empty gives at least one of its items, and what is
    picked is picked from the groups. *)
Lemma sample_groups_spec (ratio : R) (groups : list (list RunTransfer.job_record)) :
  forall g,
    Forall (fun group => group <> []) groups ->
    (exists n, ceil_times c n ratio = None
               /\ sample_groups c ratio g groups = Failed CeilOfNonFinite)
    \/ exists sampled g',
         sample_groups c ratio g groups = Returned (sampled, g')
         /\ (exists rest, Permutation (sampled ++ rest) (List.concat groups))
         /\ Forall (fun group => exists j, In j group /\ In j sampled) groups.
Proof.
  induction groups as [|group rest IH]; intros g Hne; cbn [sample_groups].
  - right. exists [], g. split; [reflexivity|]. split; [now exists []|constructor].
  - inversion Hne as [|? ? Hg Hrest]; subst.
    destruct (ceil_times c (List.length group) ratio) as [x|] eqn:Ec.
    2:{ left. now exists (List.length group). }
    assert (Hlen : (0 < List.length group)%nat).
    { destruct group; [congruence | cbn; lia]. }
    destruct (sample_spec g group (Z.min (Z.max 1 x) (Z.of_nat (List.length group)))
                ltac:(lia)) as (picked & g1 & -> & Hl & rest1 & Hp).
    destruct (IH g1 Hrest) as [(n & Hn & ->)|(sampled & g2 & -> & (rest2 & Hp2) & Hall)].
    + left. now exists n.
    + right. exists (picked ++ sampled), g2. split; [reflexivity|]. split.
      * exists (rest1 ++ rest2). cbn [List.concat]. rewrite <- Hp, <- Hp2.
        rewrite <- !app_assoc. apply Permutation_app_head.
        rewrite !app_assoc. apply Permutation_app_tail. apply Permutation_app_comm.
      * constructor.
        -- destruct picked as [|j picked]; [cbn in Hl; lia|].
           exists j. split; [|now left].
           eapply Permutation_in; [exact Hp | now left].
        -- eapply Forall_impl; [|exact Hall]. intros gr (j & Hj & Hs).
           exists j. split; [exact Hj | apply in_or_app; now right].
Qed.

End Sampling.

Lemma grouped_spec (tbl : list (Z * string)) (jobs : list RunTransfer.job_record) :
  Permutation (List.concat (grouped tbl jobs)) jobs
  /\ Forall (fun group => group <> []) (grouped tbl jobs)
  /\ forall j, In j jobs ->
       exists group, In group (grouped tbl jobs)
                     /\ forall j', In j' group -> task_of tbl j' = task_of tbl j.
Proof.
  unfold grouped.
  set (keys := sorted_by String.leb (distinct (map (task_of tbl) jobs))).
  assert (Hk : forall k, In k keys <-> In k (map (task_of tbl) jobs)).
  { intros k. unfold keys. split; intros H.
    - apply distinct_In. eapply Permutation_in; [apply sorted_by_perm | exact H].
    - apply distinct_In in H.
      eapply Permutation_in; [symmetry; apply sorted_by_perm | exact H]. }
  assert (Hn : NoDup keys).
  { eapply Permutation_NoDup; [symmetry; apply sorted_by_perm | apply distinct_NoDup]. }
  split; [|split].
  - rewrite <- flat_map_concat_map. apply groups_perm; [exact Hn|].
    intros j Hj. apply Hk. now apply in_map.
  - apply Forall_forall. intros group Hg. apply in_map_iff in Hg as (k & <- & Hin).
    apply Hk in Hin. apply in_map_iff in Hin as (j & Hj & Hin).
    intros E. assert (H : In j (filter (fun job => String.eqb (task_of tbl job) k) jobs)).
    { apply filter_In. split; [exact Hin | now apply String.eqb_eq]. }
    rewrite E in H. contradiction.
  - intros j Hj. eexists. split.
    + apply in_map. apply Hk. apply in_map. exact Hj.
    + intros j' Hj'. apply filter_In in Hj' as [_ E]. now apply String.eqb_eq in E.
Qed.

(** *** The lookup of task texts *)

Lemma dict_get_set_same (k : Z) (v : string) (d : list (Z * string)) :
  dict_get k (dict_set k v d) = Some v.
Proof.
  unfold dict_get, dict_set.
  destruct (existsb (fun p => fst p =? k) d) eqn:E.
  - induction d as [|[k' v'] d IH]; [discriminate|]. cbn [map find fst existsb] in *.
    destruct (Z.eqb_spec k' k) as [->|Hk].
    + cbn [fst]. now rewrite Z.eqb_refl.
    + cbn [fst]. rewrite (proj2 (Z.eqb_neq k' k) Hk). apply IH.
      cbn [orb] in E. exact E.
  - induction d as [|[k' v'] d IH]; cbn [app find fst existsb] in *.
    + now rewrite Z.eqb_refl.
    + apply orb_false_iff in E as [E1 E2]. rewrite E1. now apply IH.
Qed.

Lemma dict_get_set_other (k k' : Z) (v : string) (d : list (Z * string)) :
  k' <> k -> dict_get k' (dict_set k v d) = dict_get k' d.
Proof.
  intros Hk. unfold dict_get, dict_set.
  destruct (existsb (fun p => fst p =? k) d).
  - f_equal. induction d as [|[k0 v0] d IH]; [reflexivity|]. cbn [map find fst].
    destruct (Z.eqb_spec k0 k) as [->|H0]; cbn [fst].
    + rewrite (proj2 (Z.eqb_neq k k') (not_eq_sym Hk)). exact IH.
    + destruct (k0 =? k'); [reflexivity | exact IH].
  - f_equal. induction d as [|[k0 v0] d IH]; cbn [app find fst].
    + now rewrite (proj2 (Z.eqb_neq k k') (not_eq_sym Hk)).
    + destruct (k0 =? k'); [reflexivity | exact IH].
Qed.

(** *** Paths of one more component *)

Lemma append_empty (s : string) : (s ++ EmptyString)%string = s.
Proof. induction s as [|c s IH]; cbn; [reflexivity | now rewrite IH]. Qed.

Lemma split_slash_whole (s : string) : forall cur,
  has_char "/" s = false -> Py.split_slash cur s = [(cur ++ s)%string].
Proof.
  induction s as [|c t IH]; intros cur H; cbn [Py.split_slash].
  - now rewrite append_empty.
  - cbn [has_char] in H. apply orb_false_iff in H as [Hc Ht]. rewrite Hc.
    rewrite (IH _ Ht), NameFacts.append_assoc. reflexivity.
Qed.

(** Joining a name of one component to a relative directory. *)
Lemma join_name (dir : Py.Path) (name : string) :
  name <> EmptyString -> name <> "."%string -> has_char "/" name = false ->
  Py.joinpath dir name
  = {| Py.anchor := Py.anchor dir; Py.parts := Py.parts dir ++ [name] |}.
Proof.
  intros Hn Hd Hs. unfold Py.joinpath, Py.path_of_str, Py.splitroot.
  destruct name as [|c t]; [congruence|].
  cbn [has_char] in Hs. apply orb_false_iff in Hs as [Hc Ht]. rewrite Hc.
  cbn [Py.anchor Py.parts]. cbn [String.eqb].
  rewrite split_slash_whole by (cbn [has_char]; now rewrite Hc, Ht).
  cbn [append filter]. unfold Py.keep_part.
  destruct (String.eqb_spec (String c t) EmptyString) as [E|_]; [discriminate|].
  destruct (String.eqb_spec (String c t) ".") as [E|_]; [congruence|].
  reflexivity.
Qed.

Lemma format_d_holds_no (c : ascii) (w : nat) (d : Z) :
  Py.is_ascii_digit c = false -> c <> "-"%char -> has_char c (format_d w d) = false.
Proof.
  intros Hc Hm. unfold format_d, Py.zfill. destruct (d <? 0).
  - cbn [has_char]. destruct (Ascii.eqb_spec "-"%char c) as [E|_]; [congruence|].
    cbn [orb]. apply TransferFacts.digits_hold_no; [exact Hc|].
    rewrite NameFacts.zeros_digits. apply NameFacts.decimal_digits.
  - apply TransferFacts.digits_hold_no; [exact Hc|].
    rewrite NameFacts.zeros_digits. apply NameFacts.decimal_digits.
Qed.

End SamplerFacts.

Section Requests.
Import PyMore ReasonLabels StageRules SamplerFacts PyFacts PathFacts NameFacts.

(** X24. 06_run_reason_labels.py: what [_sample_augmented_jobs] returns is made
    of jobs it was given, none more often than it was given; it is sorted
    by demo id, then by variant index; with a cap it has no more items
    than the cap; and without a cap and with a positive ratio every task
    text of a job given has a job in it.  The generator is only asked
    for positions. *)
Theorem sample_augmented_jobs_is_a_sorted_sample :
  forall (R G : Type) (c : @chance R G) (jobs : list RunTransfer.job_record)
         (task_by_demo_id : list (Z * string)) (ratio : R) (max_items : option Z)
         (g g' : G) (sampled : list RunTransfer.job_record),
    picks_positions c ->
    _sample_augmented_jobs c jobs task_by_demo_id ratio max_items g
    = Returned (sampled, g') ->
    (exists rest, Permutation (sampled ++ rest) jobs)
    /\ StronglySorted key_le sampled
    /\ (forall m, max_items = Some m -> Z.of_nat (List.length sampled) <= Z.max 0 m)
    /\ (max_items = None -> not_positive c ratio = false ->
        forall j, In j jobs ->
          exists j', In j' sampled
                     /\ task_of task_by_demo_id j' = task_of task_by_demo_id j).
Proof.
  intros R G c jobs tbl ratio max_items g g' sampled fair H.
  assert (Hsorted : forall l, StronglySorted key_le (sorted_by key_leb l)).
  { intros l. eapply StronglySorted_weaken; [|apply (sorted_by_sorted key_leb)].
    - intros a b. apply key_leb_le.
    - apply key_leb_total.
    - apply key_leb_trans. }
  unfold _sample_augmented_jobs in H.
  destruct (not_positive c ratio) eqn:Er; cbn [orb] in H.
  { injection H as <- <-. split; [exists jobs; reflexivity|].
    split; [constructor|]. split; [intros; cbn; lia | discriminate]. }
  destruct jobs as [|j0 js] eqn:Ej.
  { injection H as <- <-. split; [exists []; reflexivity|].
    split; [constructor|]. split; [intros; cbn; lia | intros _ _ j []]. }
  rewrite <- Ej in *. clear Ej.
  destruct (grouped_spec tbl jobs) as (Hperm & Hne & Htask).
  destruct (sample_groups_spec c fair ratio (grouped tbl jobs) g Hne)
    as [(n & _ & Hf)|(s1 & g1 & Hs & (rest1 & Hp1) & Hall)];
    rewrite ?Hf, ?Hs in H; [discriminate|].
  destruct max_items as [m|].
  - destruct (Z.ltb_spec m (Z.of_nat (List.length s1))) as [Hm|Hm].
    + destruct (Z.ltb_spec m 0) as [Hneg|Hpos].
      { rewrite sample_fails in H by exact Hneg. discriminate. }
      destruct (sample_spec c fair g1 s1 m ltac:(lia))
        as (s2 & g2 & Hs2 & Hl2 & rest2 & Hp2).
      rewrite Hs2 in H. injection H as <- <-.
      split; [|split; [apply Hsorted|split; [|discriminate]]].
      * exists (rest2 ++ rest1). rewrite sorted_by_perm, app_assoc, Hp2, Hp1.
        exact Hperm.
      * intros m' [= <-].
        rewrite (Permutation_length (sorted_by_perm key_leb s2)), Hl2. lia.
    + injection H as <- <-.
      split; [|split; [apply Hsorted|split; [|discriminate]]].
      * exists rest1. rewrite sorted_by_perm, Hp1. exact Hperm.
      * intros m' [= <-].
        rewrite (Permutation_length (sorted_by_perm key_leb s1)). lia.
  - injection H as <- <-.
    split; [|split; [apply Hsorted|split; [discriminate|]]].
    + exists rest1. rewrite sorted_by_perm, Hp1. exact Hperm.
    + intros _ _ j Hj. destruct (Htask j Hj) as (group & Hg & Ht).
      rewrite Forall_forall in Hall. destruct (Hall group Hg) as (j' & Hj' & Hin).
      exists j'. split; [|now apply Ht].
      eapply Permutation_in; [symmetry; apply sorted_by_perm | exact Hin].
Qed.

(** X25. 06_run_reason_labels.py: a ratio that is not positive, or no job,
    gives no sample and leaves the generator as it was.  Else, for a
    ratio whose ceiling can be taken, the sampler returns a sample unless
    the cap is negative, in which case [rng.sample] raises its
    [ValueError]; a cap of zero gives the empty sample. *)
Theorem sample_augmented_jobs_edge_cases :
  forall (R G : Type) (c : @chance R G) (jobs : list RunTransfer.job_record)
         (task_by_demo_id : list (Z * string)) (ratio : R) (max_items : option Z)
         (g : G),
    (not_positive c ratio = true \/ jobs = [] ->
     _sample_augmented_jobs c jobs task_by_demo_id ratio max_items g = Returned ([], g))
    /\ (picks_positions c -> not_positive c ratio = false -> jobs <> [] ->
        (forall n, ceil_times c n ratio <> None) ->
        match max_items with
        | Some m =>
            if m <? 0
            then _sample_augmented_jobs c jobs task_by_demo_id ratio max_items g
                 = Failed SampleOutOfRange
            else exists sampled g',
                   _sample_augmented_jobs c jobs task_by_demo_id ratio max_items g
                   = Returned (sampled, g')
                   /\ (m = 0 -> sampled = [])
        | None =>
            exists sampled g',
              _sample_augmented_jobs c jobs task_by_demo_id ratio max_items g
              = Returned (sampled, g')
              /\ sampled <> []
        end).
Proof.
  intros R G c jobs tbl ratio max_items g. split.
  - unfold _sample_augmented_jobs. intros [->| ->]; [reflexivity|].
    now rewrite orb_true_r.
  - intros fair Hr Hj Hceil. unfold _sample_augmented_jobs. rewrite Hr. cbn [orb].
    destruct jobs as [|j0 js] eqn:Ej; [congruence|]. rewrite <- Ej in *.
    destruct (grouped_spec tbl jobs) as (Hperm & Hne & Htask).
    destruct (sample_groups_spec c fair ratio (grouped tbl jobs) g Hne)
      as [(n & Hn & _)|(s1 & g1 & Hs & (rest1 & Hp1) & Hall)];
      [now elim (Hceil n)|].
    rewrite Hs.
    destruct max_items as [m|].
    + destruct (Z.ltb_spec m 0) as [Hneg|Hpos].
      * destruct (Z.ltb_spec m (Z.of_nat (List.length s1))); [|lia].
        now rewrite sample_fails.
      * destruct (Z.ltb_spec m (Z.of_nat (List.length s1))) as [Hm|Hm].
        -- destruct (sample_spec c fair g1 s1 m ltac:(lia))
             as (s2 & g2 & Hs2 & Hl2 & _).
           rewrite Hs2. eexists _, _. split; [reflexivity|].
           intros ->. destruct s2; [reflexivity | discriminate Hl2].
        -- eexists _, _. split; [reflexivity|].
           intros ->. destruct s1; [reflexivity | cbn in Hm; lia].
    + eexists _, _. split; [reflexivity|].
      intros E. destruct (Htask j0 ltac:(rewrite Ej; now left)) as (group & Hg & _).
      rewrite Forall_forall in Hall. destruct (Hall group Hg) as (j' & _ & Hin).
      assert (Hs1 : In j' (sorted_by key_leb s1)).
      { eapply Permutation_in; [symmetry; apply sorted_by_perm | exact Hin]. }
      rewrite E in Hs1. contradiction.
Qed.

(** X26. 06_run_reason_labels.py: the lookup of task texts gives, for a demo
    id, the text of the last row of that demo id, the empty text when
    that row has none; it gives nothing for a demo id of no row. *)
Theorem task_table_keeps_the_last_row :
  forall (original_records : list manifest_row) (d : Z),
    dict_get d (task_table original_records)
    = option_map
        (fun r => match row_task_text r with Some s => s | None => EmptyString end)
        (last_row d original_records).
Proof.
  intros rows d. unfold task_table, last_row.
  assert (H : forall d0,
             dict_get d
               (fold_left
                  (fun dict row =>
                     dict_set (row_demo_id row)
                       (match row_task_text row with Some s => s | None => EmptyString end)
                       dict) rows d0)
             = match find (fun r => row_demo_id r =? d) (rev rows) with
               | Some r =>
                   Some (match row_task_text r with Some s => s | None => EmptyString end)
               | None => dict_get d d0
               end).
  { induction rows as [|r rows IH] using rev_ind; intros d0; [reflexivity|].
    rewrite fold_left_app, rev_app_distr. cbn [fold_left rev app find].
    destruct (Z.eqb_spec (row_demo_id r) d) as [<-|Hd].
    - apply dict_get_set_same.
    - rewrite dict_get_set_other by congruence. apply IH. }
  rewrite H. now destruct (find _ _).
Qed.

(** X27. 06_run_reason_labels.py: for a row whose expected export name is a
    plain file name, the original video of the request is that name in
    data/videos/original, whether or not the export wrote such a file; so
    for a row of the manifest of the validation stage it is the front
    export of the demo, whatever camera the source video is of.  Only a
    row without an expected export name, or with an empty one, falls back
    on the resolved source path. *)
Theorem original_video_path_is_the_expected_export :
  (forall (row : manifest_row) (name : string),
     row_expected_export_name row = Some name ->
     name <> EmptyString -> name <> "."%string -> has_char "/" name = false ->
     _resolve_original_video_path row = ("data/videos/original/" ++ name)%string)
  /\ (forall r : ValidateTransfer.manifest_record,
        ValidateTransfer.expected_export_name r
        = Scripts.expected_export_name (Adapter.demo_id (ValidateTransfer.record_view r)) ->
        _resolve_original_video_path (row_of_record r)
        = ("data/videos/original/"
           ++ Scripts.output_name (Adapter.demo_id (ValidateTransfer.record_view r)) "front")%string)
  /\ (forall row : manifest_row,
        row_expected_export_name row = None
        \/ row_expected_export_name row = Some EmptyString ->
        _resolve_original_video_path row
        = match row_video_path_resolved row with
          | Some s => s
          | None => EmptyString
          end).
Proof.
  assert (P : forall row name,
             row_expected_export_name row = Some name ->
             name <> EmptyString -> name <> "."%string -> has_char "/" name = false ->
             _resolve_original_video_path row = ("data/videos/original/" ++ name)%string).
  { intros row name Hr Hn Hd Hs. unfold _resolve_original_video_path. rewrite Hr.
    destruct name as [|c t]; [congruence|].
    rewrite join_name by assumption. reflexivity. }
  split; [exact P|]. split.
  - intros r Hr. apply P.
    + cbn [row_of_record row_expected_export_name]. rewrite Hr. reflexivity.
    + discriminate.
    + discriminate.
    + unfold Scripts.output_name. rewrite !TransferFacts.has_char_app.
      rewrite (format_d_holds_no "/" 4 _ eq_refl ltac:(discriminate)). reflexivity.
  - intros row [H|H]; unfold _resolve_original_video_path; now rewrite H.
Qed.

End Requests.

(* ================================================================== *)
(** ** From one stage to the next *)

Module OrderFacts.
Import Obj Adapter PyFacts AdapterFacts StageRules StageFacts ExportFacts.

(** The demo id of a yielded view is the sort key of its episode key. *)
Lemma yielded_demo_id rt h5 root view :
  In view (yielded (iter_episode_views rt h5 root)) ->
  _sort_key rt (episode_key view) = Ok (demo_id view).
Proof.
  unfold iter_episode_views. destruct (get_episode_group h5) as [eps|]; [|intros []].
  destruct (Py.sort_by_key (_sort_key rt) (H5.keys eps)); [|intros []].
  intros H. apply yield_views_in in H as (key & _ & Hv).
  now apply episode_view_fields in Hv as [-> Hd].
Qed.

Lemma yielded_demo_ids_sorted rt h5 root :
  StronglySorted Z.le (map demo_id (yielded (iter_episode_views rt h5 root))).
Proof.
  destruct (sort_value_exists rt) as [f Hf].
  assert (Hd : forall v, In v (yielded (iter_episode_views rt h5 root)) ->
                         demo_id v = f (episode_key v)).
  { intros v Hv. symmetry. apply Hf. exact (yielded_demo_id _ _ _ _ Hv). }
  assert (Hs : StronglySorted (Py.key_le f)
                 (map episode_key (yielded (iter_episode_views rt h5 root)))).
  { unfold iter_episode_views. destruct (get_episode_group h5) as [eps|];
      [|constructor].
    destruct (Py.sort_by_key (_sort_key rt) (H5.keys eps)) as [ordered|] eqn:Es;
      [|constructor].
    destruct (yield_views_keys rt eps root ordered) as [rest [Hk _]].
    assert (Hall : forall key, In key (H5.keys eps) -> _sort_key rt key = Ok (f key)).
    { intros key Hin. destruct (sort_by_key_ok _ _ _ Es key Hin) as [z Hz].
      now rewrite (Hf _ _ Hz). }
    rewrite (sort_by_key_total _ f _ Hall) in Es. injection Es as <-.
    pose proof (sorted_sorted f (H5.keys eps)) as S.
    rewrite Hk in S. now apply StronglySorted_app_l in S. }
  induction (yielded (iter_episode_views rt h5 root)) as [|v vs IH];
    cbn [map] in *; [constructor|].
  inversion Hs as [|? ? Hs' Hf']; subst. constructor.
  - apply IH; [|exact Hs']. intros w Hw. apply Hd. now right.
  - rewrite Forall_map in *. rewrite Forall_forall in *. intros w Hw.
    rewrite (Hd v (or_introl eq_refl)), (Hd w (or_intror Hw)).
    exact (Hf' w Hw).
Qed.

Lemma yielded_demo_id_nonneg rt h5 root view :
  In view (yielded (iter_episode_views rt h5 root)) -> 0 <= demo_id view.
Proof.
  intros H. exact (sort_key_nonneg _ _ _ (yielded_demo_id _ _ _ _ H)).
Qed.

Lemma considered_prefix (args : ExportMp4.export_args) (views : list EpisodeView) :
  exists left_out, views = ExportMp4.considered args views ++ left_out.
Proof.
  unfold ExportMp4.considered, PyMore.slice_to.
  destruct (ExportMp4.max_episodes args) as [m|].
  - destruct (m <? 0); eexists; symmetry; apply firstn_skipn.
  - exists []. now rewrite app_nil_r.
Qed.

Section Machine.
Context {W : Type} (sys : ExportMp4.system W).

Lemma export_view_named args w t view :
  Forall (row_named args) (ExportMp4.manifest_rows t) ->
  Forall (row_named args)
    (ExportMp4.manifest_rows (snd (ExportMp4.export_view sys args (w, t) view))).
Proof.
  intros H. unfold ExportMp4.export_view.
  match goal with
  | |- context [let '(w', st') := ?X in _] => destruct X as [w1 st1]
  end.
  cbn [snd ExportMp4.manifest_rows]. apply Forall_app. split; [exact H|].
  constructor; [|constructor]. unfold row_named. cbn. auto.
Qed.

Lemma export_views_named args views : forall w t,
  Forall (row_named args) (ExportMp4.manifest_rows t) ->
  Forall (row_named args)
    (ExportMp4.manifest_rows
       (snd (fold_left (ExportMp4.export_view sys args) views (w, t)))).
Proof.
  induction views as [|v vs IH]; intros w t H; cbn [fold_left]; [exact H|].
  pose proof (export_view_named args w t v H) as H1.
  destruct (ExportMp4.export_view sys args (w, t) v) as [w1 t1]. now apply IH.
Qed.

End Machine.
End OrderFacts.

Section StagesCompose.
Import Obj Adapter PyMore Names PyFacts AdapterFacts StageRules StageFacts ExportFacts.
Import NameFacts OrderFacts.

Variable rt : runtime.

(** X28. 00a_validate_transfer.py and 02_export_mp4_from_hdf5.py: the lines of
    the validation manifest and the rows of the export manifest come in
    the order of their demo ids, none before one of a smaller demo id. *)
Theorem stage_manifests_follow_demo_id_order :
  (forall (path_exists : Py.Path -> bool) (h5_file : H5.File)
          (video_root : Py.Path) (rep : ValidateTransfer.report),
     ValidateTransfer.validate_transfer rt path_exists h5_file video_root = Ok rep ->
     StronglySorted Z.le
       (map (fun r => demo_id (ValidateTransfer.record_view r))
          (ValidateTransfer.manifest rep)))
  /\ (forall (W : Type) (sys : ExportMp4.system W) (args : ExportMp4.export_args)
             (w w' : W) (h5_file : H5.File) (video_root : Py.Path)
             (t : ExportMp4.tally),
        ExportMp4.export_episodes sys rt args w h5_file video_root = Ok (w', t) ->
        StronglySorted Z.le
          (map (fun r => demo_id (ExportMp4.row_view r)) (ExportMp4.manifest_rows t))).
Proof.
  split.
  - intros pe h5 root rep H.
    unfold ValidateTransfer.validate_transfer in H.
    destruct (assert_required_structure rt h5) as [[]|]; cbn [bind] in H;
      [|discriminate].
    destruct (get_episode_group h5) as [eps|]; cbn [bind] in H; [|discriminate].
    destruct (ValidateTransfer.list_of _) as [views|] eqn:El; cbn [bind] in H;
      [|discriminate].
    apply list_of_ok in El as [-> _].
    destruct (ValidateTransfer.check_views _ _ _ _) as [st|] eqn:Ec; cbn [bind] in H;
      [|discriminate].
    injection H as <-. cbn [ValidateTransfer.manifest].
    apply check_views_steps in Ec as (Hl & _).
    cbn [ValidateTransfer.lines map app] in Hl.
    rewrite <- (map_map ValidateTransfer.record_view demo_id), Hl.
    apply yielded_demo_ids_sorted.
  - intros W sys args w w' h5 root t H.
    apply export_counts_rows in H as (Hr & _).
    rewrite <- (map_map ExportMp4.row_view demo_id), Hr.
    destruct (considered_prefix args (yielded (iter_episode_views rt h5 root)))
      as [rest Hp].
    pose proof (yielded_demo_ids_sorted rt h5 root) as S.
    rewrite Hp, map_app in S. now apply StronglySorted_app_l in S.
Qed.

(** X29. 02_export_mp4_from_hdf5.py and 03_run_transfer.py: every row of the
    export manifest is named after the demo id of its episode and the
    camera key inferred from the raw path of its video; and the transfer
    script reads that demo id and that camera key back from the name of
    the exported file, provided that the camera key is not empty and
    holds no newline. *)
Theorem exported_names_are_read_back_by_the_transfer :
  forall (W : Type) (sys : ExportMp4.system W) (args : ExportMp4.export_args)
         (w w' : W) (h5_file : H5.File) (video_root : Py.Path)
         (t : ExportMp4.tally) (r : ExportMp4.row),
    ExportMp4.export_episodes sys rt args w h5_file video_root = Ok (w', t) ->
    In r (ExportMp4.manifest_rows t) ->
    row_named args r
    /\ 0 <= demo_id (ExportMp4.row_view r)
    /\ (ExportMp4.camera_key r <> EmptyString ->
        has_char newline (ExportMp4.camera_key r) = false ->
        parse_demo_filename (ExportMp4.output_video_name r)
        = Some (demo_id (ExportMp4.row_view r), ExportMp4.camera_key r)).
Proof.
  intros W sys args w w' h5 root t r H Hin.
  pose proof (export_counts_rows rt W sys args w w' h5 root t H) as (Hr & _).
  assert (Hn : Forall (row_named args) (ExportMp4.manifest_rows t)).
  { unfold ExportMp4.export_episodes in H.
    destruct (assert_required_structure rt h5) as [[]|]; cbn [bind] in H;
      [|discriminate].
    destruct (ValidateTransfer.list_of _) as [views|]; cbn [bind] in H;
      [|discriminate].
    injection H as H.
    pose proof (export_views_named sys args (ExportMp4.considered args views) w
                  ExportMp4.empty_tally (Forall_nil _)) as F.
    rewrite H in F. exact F. }
  rewrite Forall_forall in Hn. pose proof (Hn r Hin) as Hrow.
  assert (Hd : 0 <= demo_id (ExportMp4.row_view r)).
  { apply (yielded_demo_id_nonneg rt h5 root).
    destruct (considered_prefix args (yielded (iter_episode_views rt h5 root)))
      as [rest Hp].
    rewrite Hp, <- Hr. apply in_or_app. left. now apply in_map. }
  split; [exact Hrow|]. split; [exact Hd|].
  intros Hc Hnl. destruct Hrow as (_ & -> & _).
  unfold Scripts.output_name. rewrite format_04d_is_format_d.
  rewrite (TransferFacts.parse_demo_name _ _ Hd).
  destruct (ExportMp4.camera_key r); [congruence|]. now rewrite Hnl.
Qed.

End StagesCompose.

(* ================================================================== *)
(** ** More evaluations *)

Module MoreEvaluations.
Import Obj Adapter Rules PyMore Names Sample MoreSamples.

(** Five columns in place of six. *)
Lemma five_columns_tagged :
  load_arrays five_column_episode = Ok five_column_arrays
  /\ validate_episode_arrays five_column_episode = Ok ["delta_eef_shape_not_Tx6"]
  /\ (In "delta_eef_shape_not_Tx6" ["delta_eef_shape_not_Tx6"]
      <-> ~ is_Tx6 (delta_eef five_column_arrays)).
Proof.
  split; [reflexivity|]. split; [reflexivity|].
  apply (validate_episode_arrays_shape_tag five_column_episode five_column_arrays
           ["delta_eef_shape_not_Tx6"] eq_refl eq_refl).
Defined.

Lemma good_episode_raises_no_key_error :
  H5.lookup "0" [("0", good_episode)] = Some good_episode
  /\ missing_paths good_episode = []
  /\ forall name, validate_episode_arrays good_episode <> Raise (KeyError name).
Proof.
  split; [reflexivity|]. split; [reflexivity|].
  apply (required_paths_rule_out_key_errors rt [("0", good_episode)] video_root
           "0" good_episode).
  - intros s name H. discriminate H.
  - reflexivity.
  - reflexivity.
Defined.

Lemma good_episode_read_has_all_paths :
  episode_view rt [("0", good_episode)] video_root "0" = Ok view_0
  /\ load_arrays good_episode = Ok good_arrays
  /\ missing_paths good_episode = [].
Proof.
  split; [reflexivity|]. split; [reflexivity|].
  apply (required_paths_are_the_paths_read rt [("0", good_episode)] video_root
           "0" good_episode view_0 good_arrays); reflexivity.
Defined.

Lemma view_0_belongs_to_its_episode :
  In view_0 (yielded (iter_episode_views rt two_demos video_root))
  /\ In (episode_key view_0) ["0"; "1"].
Proof.
  assert (H : In view_0 (yielded (iter_episode_views rt two_demos video_root))).
  { vm_compute. left. reflexivity. }
  split; [exact H|].
  apply (yielded_views_match_their_episodes rt two_demos video_root
           [("0", good_episode); ("1", nan_pose_episode)] view_0 eq_refl H).
Defined.

Lemma two_demos_keys_distinct :
  NoDup ["0"; "1"]
  /\ NoDup (map episode_key (yielded (iter_episode_views rt two_demos video_root))).
Proof.
  assert (H : NoDup ["0"; "1"]).
  { constructor; [intros [E|[]]; discriminate E|].
    constructor; [intros []|constructor]. }
  split; [exact H|].
  apply (yielded_keys_are_distinct rt two_demos video_root
           [("0", good_episode); ("1", nan_pose_episode)] eq_refl H).
Defined.

Lemma demo_7_wrist_read_back :
  0 <= 7
  /\ has_char newline "wrist" = false
  /\ parse_demo_filename (Scripts.output_name 7 "wrist") = Some (7, "wrist").
Proof.
  split; [lia|]. split; [reflexivity|].
  apply (proj1 parse_demo_filename_inverts_output_name 7 "wrist");
    [lia | discriminate | reflexivity].
Defined.

Lemma two_demos_validated :
  ValidateTransfer.validate_transfer rt always_there two_demos video_root
  = Ok two_demos_report
  /\ (0 < ValidateTransfer.episodes_total two_demos_report)%nat
  /\ ValidateTransfer.validation_passed two_demos_report = false.
Proof.
  assert (H : ValidateTransfer.validate_transfer rt always_there two_demos video_root
              = Ok two_demos_report) by (vm_compute; reflexivity).
  split; [exact H|].
  destruct (validate_transfer_passes_iff_every_episode_is_clean rt always_there
              two_demos video_root two_demos_report H)
    as (eps & _ & _ & _ & _ & H0 & _).
  split; [exact H0 | reflexivity].
Defined.

Lemma two_demos_exported :
  exists t,
    ExportMp4.export_episodes counting_system rt overwrite_args 0%nat two_demos
      video_root = Ok (1%nat, t)
    /\ (ExportMp4.exported_count t + ExportMp4.skipped_existing t
        + ExportMp4.missing_sources t + ExportMp4.failed_exports t
        = List.length (ExportMp4.manifest_rows t))%nat.
Proof.
  eexists. split; [reflexivity|].
  apply (export_counts_partition_the_episodes rt nat counting_system overwrite_args
           0%nat 1%nat two_demos video_root _ eq_refl).
Defined.

Lemma two_demos_dry_run :
  ExportMp4.dry_run dry_run_args = true
  /\ exists t,
       ExportMp4.export_episodes counting_system rt dry_run_args 0%nat two_demos
         video_root = Ok (0%nat, t)
       /\ ExportMp4.checksums t = [].
Proof.
  split; [reflexivity|]. eexists. split; [reflexivity|].
  apply (dry_run_runs_nothing rt nat counting_system dry_run_args
           0%nat 0%nat two_demos video_root _ eq_refl eq_refl).
Defined.

Lemma two_demos_without_the_last :
  exists t,
    ExportMp4.export_episodes counting_system rt overwrite_args 0%nat two_demos
      video_root = Ok (1%nat, t)
    /\ Z.of_nat (List.length (ExportMp4.manifest_rows t)) = 1.
Proof.
  eexists. split; [reflexivity|].
  apply (max_episodes_keeps_a_prefix rt nat counting_system overwrite_args
           0%nat 1%nat two_demos video_root _ eq_refl).
Defined.



Lemma bundle_of_two_videos_numbered :
  RunTransfer.build_bundle fixed_sha transfer_sample video_names = inr two_video_bundle
  /\ NoDup (map RunTransfer.job_id (RunTransfer.job_lines two_video_bundle)).
Proof.
  assert (H : RunTransfer.build_bundle fixed_sha transfer_sample video_names
              = inr two_video_bundle) by (vm_compute; reflexivity).
  split; [exact H|].
  apply (transfer_job_ids_are_consecutive_and_distinct fixed_sha transfer_sample
           video_names two_video_bundle H).
Defined.

(** Two jobs of one demo, one per camera, share the seed 1000: they have
    the same demo id and the same variant index. *)
Lemma two_cameras_share_a_seed :
  RunTransfer.build_bundle fixed_sha transfer_sample camera_names
  = inr two_camera_bundle
  /\ RunTransfer.variants_per_demo transfer_sample <= 1000
  /\ In first_job (RunTransfer.job_lines two_camera_bundle)
  /\ In wrist_job (RunTransfer.job_lines two_camera_bundle)
  /\ first_job <> wrist_job
  /\ RunTransfer.seed first_job = RunTransfer.seed wrist_job
  /\ RunTransfer.demo_id first_job = RunTransfer.demo_id wrist_job
  /\ RunTransfer.variant_idx first_job = RunTransfer.variant_idx wrist_job.
Proof.
  assert (H : RunTransfer.build_bundle fixed_sha transfer_sample camera_names
              = inr two_camera_bundle) by (vm_compute; reflexivity).
  assert (Hv : RunTransfer.variants_per_demo transfer_sample <= 1000) by (cbn; lia).
  assert (H1 : In first_job (RunTransfer.job_lines two_camera_bundle))
    by (left; reflexivity).
  assert (H2 : In wrist_job (RunTransfer.job_lines two_camera_bundle))
    by (right; right; left; reflexivity).
  assert (Hs : RunTransfer.seed first_job = RunTransfer.seed wrist_job)
    by reflexivity.
  split; [exact H|]. split; [exact Hv|]. split; [exact H1|]. split; [exact H2|].
  split; [discriminate|]. split; [exact Hs|].
  apply (proj1 transfer_seeds_are_distinct_up_to_1000_variants fixed_sha
           transfer_sample camera_names two_camera_bundle first_job wrist_job
           H Hv H1 H2 Hs).
Defined.

Lemma variant_2_of_demo_1_read_back :
  0 <= 1 /\ 0 <= 2
  /\ has_char newline "front" = false
  /\ parse_demo_filename (variant_output_name 1 2 "front") = Some (1, "v02_front").
Proof.
  split; [lia|]. split; [lia|]. split; [reflexivity|].
  apply (proj2 variant_output_name_is_injective 1 2 "front");
    [lia | lia | reflexivity].
Defined.

Lemma two_bytes_in_chunks_of_one :
  (0 < 1)%nat /\ (List.length [x01; x02] < 3)%nat
  /\ Promote.read_chunks 3 1 [x01; x02] [] = Some [x01; x02].
Proof.
  split; [lia|]. split; [cbn; lia|].
  apply (proj2 (sha256_file_hashes_the_whole_content plain_sha) 1%nat 3%nat
           [x01; x02] []); [lia | cbn; lia].
Defined.

Lemma incoming_promoted :
  exists fs' m,
    Promote.promote plain_sha no_text promote_sample incoming_only
    = Some (inr (fs', m))
    /\ Promote.content_match m = true.
Proof.
  assert (H : exists fs' m,
             Promote.promote plain_sha no_text promote_sample incoming_only
             = Some (inr (fs', m))).
  { rewrite PromoteFacts.promote_eq. eexists. eexists. reflexivity. }
  destruct H as (fs' & m & H). exists fs', m. split; [exact H|].
  destruct (promote_ends_with_matching_checksums plain_sha no_text promote_sample
              incoming_only fs' m H) as (source & _ & _ & _ & _ & H0 & _).
  exact H0.
Defined.

Lemma first_positions_pick : StageRules.picks_positions first_positions.
Proof.
  intros g n k Hk. cbn [ReasonLabels.choose first_positions fst].
  split; [apply seq_NoDup|]. split; [|apply length_seq].
  apply Forall_forall. intros i Hi. apply in_seq in Hi. lia.
Qed.

Lemma four_jobs_sampled :
  ReasonLabels._sample_augmented_jobs first_positions four_jobs two_tasks 1 None 0%nat
  = ReasonLabels.Returned ([job_of 0 0; job_of 0 1; job_of 1 0; job_of 1 1], 2%nat)
  /\ StronglySorted StageRules.key_le [job_of 0 0; job_of 0 1; job_of 1 0; job_of 1 1].
Proof.
  split; [reflexivity|].
  apply (sample_augmented_jobs_is_a_sorted_sample Z nat first_positions four_jobs
           two_tasks 1 None 0%nat 2%nat _ first_positions_pick eq_refl).
Defined.

Lemma four_jobs_negative_cap :
  ReasonLabels.not_positive first_positions 1 = false
  /\ four_jobs <> []
  /\ ReasonLabels._sample_augmented_jobs first_positions four_jobs two_tasks 1
       (Some (-1)) 0%nat
     = ReasonLabels.Failed ReasonLabels.SampleOutOfRange.
Proof.
  split; [reflexivity|]. split; [discriminate|].
  apply (proj2 (sample_augmented_jobs_edge_cases Z nat first_positions four_jobs
                  two_tasks 1 (Some (-1)) 0%nat) first_positions_pick eq_refl).
  - discriminate.
  - intros n. discriminate.
Defined.

Lemma front_row_request :
  ReasonLabels.row_expected_export_name front_row = Some "demo_0000_front.mp4"
  /\ has_char "/" "demo_0000_front.mp4" = false
  /\ ReasonLabels._resolve_original_video_path front_row
     = "data/videos/original/demo_0000_front.mp4".
Proof.
  split; [reflexivity|]. split; [reflexivity|].
  apply (proj1 original_video_path_is_the_expected_export front_row
           "demo_0000_front.mp4"); [reflexivity | discriminate | discriminate | reflexivity].
Defined.

Lemma two_demos_in_order :
  ValidateTransfer.validate_transfer rt always_there two_demos video_root
  = Ok two_demos_report
  /\ StronglySorted Z.le
       (map (fun r => demo_id (ValidateTransfer.record_view r))
          (ValidateTransfer.manifest two_demos_report)).
Proof.
  assert (H : ValidateTransfer.validate_transfer rt always_there two_demos video_root
              = Ok two_demos_report) by (vm_compute; reflexivity).
  split; [exact H|].
  apply (proj1 (stage_manifests_follow_demo_id_order rt) always_there two_demos
           video_root two_demos_report H).
Defined.

Lemma two_demos_exports_read_back :
  exists t r,
    ExportMp4.export_episodes counting_system rt dry_run_args 0%nat two_demos
      video_root = Ok (0%nat, t)
    /\ In r (ExportMp4.manifest_rows t)
    /\ 0 <= demo_id (ExportMp4.row_view r).
Proof.
  assert (H : exists t r,
             ExportMp4.export_episodes counting_system rt dry_run_args 0%nat
               two_demos video_root = Ok (0%nat, t)
             /\ In r (ExportMp4.manifest_rows t)).
  { eexists. eexists. split; [reflexivity|]. left. reflexivity. }
  destruct H as (t & r & H & Hin). exists t, r.
  split; [exact H|]. split; [exact Hin|].
  apply (exported_names_are_read_back_by_the_transfer rt nat counting_system
           dry_run_args 0%nat 0%nat two_demos video_root t r H Hin).
Defined.

Lemma front_camera_wins :
  Py.contains "observation.images.front" (lower "videos/Observation.Images.Front/wrist.mp4")
  = true
  /\ infer_camera_key "videos/Observation.Images.Front/wrist.mp4" = "front".
Proof.
  split; [reflexivity|].
  apply (infer_camera_key_is_a_name_part "videos/Observation.Images.Front/wrist.mp4").
  reflexivity.
Defined.

Lemma view_0_clip_requested :
  exists r,
    ExportMp4.manifest_rows
      (snd (ExportMp4.export_view counting_system overwrite_args
              (0%nat, ExportMp4.empty_tally) view_0))
    = ExportMp4.manifest_rows ExportMp4.empty_tally ++ [r]
    /\ ExportMp4.row_view r = view_0.
Proof.
  destruct (export_view_runs_ffmpeg_only_for_a_positive_duration nat counting_system
              overwrite_args 0%nat ExportMp4.empty_tally view_0)
    as (r & H1 & H2 & _).
  exists r. split; [exact H1 | exact H2].
Defined.

End MoreEvaluations.
